(** * WIT: a shallow embedding of the versioning engine

    The development follows [src/utilities.py] and [src/wit.py].  Python
    strings are [string]s, Python lists are [list]s, and the file system
    is a tree of directories and regular files.  A Python exception is a
    value of type [exn] carried by [result]; a function that mutates a
    list or the file system returns the new value. *)

From Stdlib Require Import String Ascii List Arith Lia Bool.
Import ListNotations.
Set Warnings "-register-all".
Open Scope string_scope.
Open Scope list_scope.

(** ** Exceptions and results *)

(** The exceptions the modelled code can raise.  [OSError] stands for the
    whole family ([FileNotFoundError], [NotADirectoryError],
    [IsADirectoryError], [FileExistsError]): the handlers in [wit.py] only
    ever catch [OSError].

    [OutsideTree] is no exception of Python.  It ends a run at the point
    where the code follows a path out of the directory tree that is
    modelled (an absolute path, or one that climbs above its start with
    [..]): what the
    code does from there depends on files the model does not have, and
    nothing is claimed about it.  No handler catches it. *)
Inductive exn : Type :=
| OSError
| IndexError
| ValueError
| RecursionError
| DistutilsFileError
| OutsideTree.

Inductive result (A : Type) : Type :=
| Ok (a : A)
| Raise (e : exn).
Arguments Ok {A} a.
Arguments Raise {A} e.

Definition bind {A B : Type} (r : result A) (k : A -> result B) : result B :=
  match r with
  | Ok a => k a
  | Raise e => Raise e
  end.

Notation "'do' x <- r ; k" := (bind r (fun x => k))
  (at level 10, x name, r at level 100, k at level 200).

(** [for x in xs: acc = body(acc, x)] where [body] may raise. *)
Fixpoint for_each {A S : Type} (body : S -> A -> result S) (xs : list A) (acc : S)
  : result S :=
  match xs with
  | [] => Ok acc
  | x :: xs' => do acc' <- body acc x; for_each body xs' acc'
  end.

(** ** Python string and list primitives *)

(** [x in xs] for a list of strings. *)
Definition str_in (x : string) (xs : list string) : bool :=
  existsb (String.eqb x) xs.

(** [xs[i]] *)
Definition py_index {A : Type} (xs : list A) (i : nat) : result A :=
  match nth_error xs i with
  | Some x => Ok x
  | None => Raise IndexError
  end.

(** [s.split(sep)] for a one-character separator: never the empty list. *)
Fixpoint split (sep : ascii) (s : string) : list string :=
  match s with
  | EmptyString => [EmptyString]
  | String c s' =>
      if Ascii.eqb c sep then EmptyString :: split sep s'
      else match split sep s' with
           | [] => [String c EmptyString]
           | w :: ws => String c w :: ws
           end
  end.

Definition LF : ascii := "010"%char.
Definition CR : ascii := "013"%char.

(** The ASCII line boundaries of [str.splitlines]: LF, CR, VT, FF, FS, GS
    and RS.  File contents are taken to be ASCII text; the boundaries
    outside ASCII (NEL, LS, PS) are not represented. *)
Definition is_linebreak (c : ascii) : bool :=
  let n := nat_of_ascii c in
  existsb (Nat.eqb n) [10; 11; 12; 13; 28; 29; 30]%nat.

(** [s.splitlines()]: a CR LF pair is one boundary, and a boundary at the
    very end of the text opens no further line. *)
Fixpoint splitlines (s : string) : list string :=
  match s with
  | EmptyString => []
  | String c s' =>
      if is_linebreak c then
        EmptyString ::
          match s' with
          | String c' s'' =>
              if Ascii.eqb c CR && Ascii.eqb c' LF then splitlines s''
              else splitlines s'
          | EmptyString => []
          end
      else match splitlines s' with
           | [] => [String c EmptyString]
           | w :: ws => String c w :: ws
           end
  end.

Definition NL : string := String LF EmptyString.

(** ["\n".join(lines)] *)
Definition join_lines (lines : list string) : string := String.concat NL lines.

(** [s.endswith("/")] *)
Fixpoint ends_with_sep (s : string) : bool :=
  match s with
  | EmptyString => false
  | String c EmptyString => Ascii.eqb c "/"%char
  | String _ s' => ends_with_sep s'
  end.

(** [os.path.join(a, b)] of [posixpath]. *)
Definition os_path_join (a b : string) : string :=
  match b with
  | String "/"%char _ => b
  | _ =>
      match a with
      | EmptyString => b
      | _ => if ends_with_sep a then a ++ b else a ++ "/" ++ b
      end
  end.

(** ** Per-file three-way merge ([utilities.merge_common_changes]) *)

(** One pass through the body of the [while] loop at index [i]: the two
    nested [try ... except IndexError ... else] blocks.  The read of
    [common_content[i]] sits in an [else] clause, so its [IndexError] is
    handled by neither [except]. *)
Definition merge_iteration (common_content branch_content head_content : list string)
    (i : nat) (merged_content : list string) : result (list string) :=
  match py_index branch_content i with
  | Raise _ =>
      do head_line <- py_index head_content i;
      Ok (merged_content ++ [head_line])
  | Ok branch_line =>
      match py_index head_content i with
      | Raise _ => Ok (merged_content ++ [branch_line])
      | Ok head_line =>
          do common_line <- py_index common_content i;
          if negb (common_line =? head_line) && negb (common_line =? branch_line)
          then Raise ValueError
          else if (common_line =? head_line) && negb (common_line =? branch_line)
          then Ok (merged_content ++ [branch_line])
          else Ok (merged_content ++ [head_line])
      end
  end.

(** [while i < branch_len or i < head_len: ...; i += 1].  The counter [n]
    is the number of iterations still to run, [max branch_len head_len - i]
    (see [while_condition]). *)
Fixpoint merge_while (common_content branch_content head_content : list string)
    (n i : nat) (merged_content : list string) : result (list string) :=
  match n with
  | 0 => Ok merged_content
  | S n' =>
      do merged' <- merge_iteration common_content branch_content head_content
                      i merged_content;
      merge_while common_content branch_content head_content n' (S i) merged'
  end.

Definition merge_lines (common_content branch_content head_content : list string)
  : result (list string) :=
  let branch_len := length branch_content in
  let head_len := length head_content in
  merge_while common_content branch_content head_content
    (Nat.max branch_len head_len) 0 [].

(** The files [merge_common_changes] touches, by path: [None] for a path
    that cannot be opened. *)
Definition file_store : Type := string -> option string.

Definition open_read (fs : file_store) (path : string) : result string :=
  match fs path with
  | Some text => Ok text
  | None => Raise OSError
  end.

Definition write_text (fs : file_store) (path text : string) : file_store :=
  fun p => if p =? path then Some text else fs p.

(** [merge_common_changes(common_file, branch_file, head_file, dst)]: the
    store after the call and how the call ended. *)
Definition merge_common_changes (common_file branch_file head_file dst : string)
    (fs : file_store) : file_store * result unit :=
  let run :=
    do common_text <- open_read fs common_file;
    do branch_text <- open_read fs branch_file;
    do head_text <- open_read fs head_file;
    merge_lines (splitlines common_text) (splitlines branch_text)
      (splitlines head_text) in
  match run with
  | Ok merged_content => (write_text fs dst (join_lines merged_content), Ok tt)
  | Raise e => (fs, Raise e)
  end.

(** The reconciliation rule in the specification's words, for the line
    index [i]. *)
Inductive line_outcome : Type :=
| Take (line : string)
| Conflict.

Definition opt_eqb (a b : option string) : bool :=
  match a, b with
  | Some x, Some y => x =? y
  | None, None => true
  | _, _ => false
  end.

Definition three_way_rule (ancestor branch head : list string) (i : nat)
  : option line_outcome :=
  match nth_error branch i, nth_error head i with
  | None, None => None
  | None, Some h => Some (Take h)
  | Some b, None => Some (Take b)
  | Some b, Some h =>
      let a := nth_error ancestor i in
      if negb (opt_eqb a (Some h)) && negb (opt_eqb a (Some b))
      then Some Conflict
      else if opt_eqb a (Some h) && negb (opt_eqb a (Some b))
      then Some (Take b)
      else Some (Take h)
  end.

Definition is_conflict (o : option line_outcome) : bool :=
  match o with
  | Some Conflict => true
  | _ => false
  end.

Definition taken (o : option line_outcome) : list string :=
  match o with
  | Some (Take l) => [l]
  | _ => []
  end.

(** The whole merge in the specification's words: every index from 0 up
    to the longer edited version, a failure as soon as one index is in
    conflict, otherwise the lines taken. *)
Definition three_way_spec (ancestor branch head : list string)
  : result (list string) :=
  let outcomes := map (three_way_rule ancestor branch head)
                    (seq 0 (Nat.max (length branch) (length head))) in
  if existsb is_conflict outcomes then Raise ValueError
  else Ok (flat_map taken outcomes).

(** ** The file system *)

(** A directory lists its entries by name; [os.listdir] returns the names
    in the order of the list.  Only directories and regular files are
    represented (no links, no special files). *)
Inductive node : Type :=
| File (content : string)
| Dir (entries : list (string * node)).

Definition entries : Type := list (string * node).

Fixpoint lookup (name : string) (es : entries) : option node :=
  match es with
  | [] => None
  | (n, x) :: rest => if n =? name then Some x else lookup name rest
  end.

Definition names (es : entries) : list string := map fst es.

(** [os.path.isfile(os.path.join(dir, name))] and [os.path.isdir]. *)
Definition isfile (es : entries) (name : string) : bool :=
  match lookup name es with
  | Some (File _) => true
  | _ => false
  end.

Definition isdir (es : entries) (name : string) : bool :=
  match lookup name es with
  | Some (Dir _) => true
  | _ => false
  end.

(** [open(os.path.join(dir, name), "r").read()] *)
Definition read_file (es : entries) (name : string) : result string :=
  match lookup name es with
  | Some (File text) => Ok text
  | _ => Raise OSError
  end.

(** ** Paths given as strings *)

(** Whether the components of a relative path climb, with [..], above the
    directory that the path starts from; [depth] counts the levels gone
    down so far. *)
Fixpoint climbs (components : list string) (depth : nat) : bool :=
  match components with
  | [] => false
  | c :: rest =>
      if (c =? "") || (c =? ".") then climbs rest depth
      else if c =? ".." then
        match depth with
        | 0 => true
        | S depth' => climbs rest depth'
        end
      else climbs rest (S depth)
  end.

(** A relative path that never climbs above its start stays below the
    directory that it is joined to.  An absolute path replaces that
    directory in [os.path.join]; a path that climbs leaves it.  The model
    follows neither. *)
Definition stays_below (path : string) : bool :=
  negb (prefix "/" path) && negb (climbs (split "/"%char path) 0).

(** The node that the operating system reaches from the directory node
    [n] along the components of a relative path.  An empty component and
    [.] stand for the directory reached so far, and [..] for the one
    above it ([above] lists the directories gone through, the nearest
    first); every component but the last has to lead through a
    directory. *)
Fixpoint follow (components : list string) (above : list node) (n : node)
  : option node :=
  match components with
  | [] => Some n
  | c :: rest =>
      match n with
      | File _ => None
      | Dir es =>
          if (c =? "") || (c =? ".") then follow rest above n
          else if c =? ".." then
            match above with
            | parent :: above' => follow rest above' parent
            | [] => None
            end
          else match lookup c es with
               | Some x => follow rest (n :: above) x
               | None => None
               end
      end
  end.

(** What is found at [os.path.join(dir, path)], for the directory with the
    entries [es] and a path that the user or a file supplies: [Ok None]
    when nothing is there. *)
Definition entry_at (es : entries) (path : string) : result (option node) :=
  if stays_below path then Ok (follow (split "/"%char path) [] (Dir es))
  else Raise OutsideTree.

(** [open(os.path.join(dir, path), "r").read()] for such a path. *)
Definition read_path (es : entries) (path : string) : result string :=
  do found <- entry_at es path;
  match found with
  | Some (File text) => Ok text
  | _ => Raise OSError
  end.

(** Replacing the entry [name] of a directory, or adding it at the end. *)
Fixpoint set_entry (name : string) (x : node) (es : entries) : entries :=
  match es with
  | [] => [(name, x)]
  | (n, y) :: rest =>
      if n =? name then (n, x) :: rest else (n, y) :: set_entry name x rest
  end.

(** Creating or overwriting the regular file [name] of a directory. *)
Definition write_file (name text : string) (es : entries) : entries :=
  set_entry name (File text) es.

(** ** The commit graph ([utilities.get_parents], [get_all_commits]) *)

(** The images directory holds, for a commit [c], the snapshot directory
    [c], the metadata file [c.txt], and the file [references.txt].  The
    identifiers that [create_image_dir] produces are single path
    components; an identifier given on the command line, or read from a
    metadata file, is whatever string stands there, and is joined to the
    images directory as a path. *)

(** [get_head_commit_id(references_path)] *)
Definition get_head_commit_id (images : entries) : result string :=
  do text <- read_file images "references.txt";
  do line0 <- py_index (splitlines text) 0;
  py_index (split "="%char line0) 1.

(** [get_parents(images_dir, commit_id)] *)
Definition get_parents (images : entries) (commit_id : string)
  : result (list string) :=
  do text <- read_path images (commit_id ++ ".txt");
  do line0 <- py_index (splitlines text) 0;
  do value <- py_index (split "="%char line0) 1;
  let parents := split ","%char value in
  do first <- py_index parents 0;
  if first =? "None" then Ok [] else Ok parents.

(** A computation that may run out of recursion depth ([None]), raise, or
    return. *)
Definition fueled (A : Type) : Type := option (result A).

Definition fbind {A B : Type} (r : fueled A) (k : A -> fueled B) : fueled B :=
  match r with
  | Some (Ok a) => k a
  | Some (Raise e) => Some (Raise e)
  | None => None
  end.

(** [get_all_commits_util(images_dir, current_commit, commits)]: the list
    [commits] after the call.  [depth] bounds the nesting of the
    recursive calls. *)
Fixpoint get_all_commits_util (depth : nat) (images : entries)
    (current_commit : string) (commits : list string) : fueled (list string) :=
  match depth with
  | 0 => None
  | S depth' =>
      match get_parents images current_commit with
      | Raise e => Some (Raise e)
      | Ok parents =>
          match parents with
          | [] => Some (Ok (commits ++ [current_commit]))
          | parent0 :: _ =>
              let commits := commits ++ [current_commit] in
              if (1 <? length parents)%nat then
                (fix for_parents (ps : list string) (commits : list string)
                   : fueled (list string) :=
                   match ps with
                   | [] => Some (Ok commits)
                   | parent :: ps' =>
                       fbind (get_all_commits_util depth' images parent commits)
                         (for_parents ps')
                   end) parents commits
              else get_all_commits_util depth' images parent0 commits
          end
      end
  end.

(** The [for parent in parents] loop, on its own. *)
Fixpoint walk_parents (depth : nat) (images : entries) (ps : list string)
    (commits : list string) : fueled (list string) :=
  match ps with
  | [] => Some (Ok commits)
  | parent :: ps' =>
      fbind (get_all_commits_util depth images parent commits)
        (walk_parents depth images ps')
  end.

(** [get_all_commits(images_dir, commit_id)] *)
Definition get_all_commits (depth : nat) (images : entries)
    (commit_id : option string) : fueled (list string) :=
  let commits := [] in
  match commit_id with
  | None =>
      match get_head_commit_id images with
      | Raise e => Some (Raise e)
      | Ok commit => get_all_commits_util depth images commit commits
      end
  | Some commit => get_all_commits_util depth images commit commits
  end.

(** The search for a common commit in [wit.merge]:
    [[
      common_commit = None
      for commit_id in src_commits:
          if commit_id in head_commits:
              common_commit = commit_id
    ]] *)
Definition scan_common (src_commits head_commits : list string) : option string :=
  fold_left
    (fun common_commit commit_id =>
       if str_in commit_id head_commits then Some commit_id else common_commit)
    src_commits None.

(** The two histories and the common commit, as [wit.merge] computes them
    before it touches the file system. *)
Definition merge_base (depth : nat) (images : entries) (src_commit_id : string)
  : fueled (list string * list string * option string) :=
  fbind (get_all_commits depth images (Some src_commit_id)) (fun src_commits =>
  fbind (get_all_commits depth images None) (fun head_commits =>
  Some (Ok (src_commits, head_commits, scan_common src_commits head_commits)))).

(** The merge base in the specification's words: the first identifier of
    the source history that occurs in the head history. *)
Definition first_common (src_commits head_commits : list string) : option string :=
  find (fun commit_id => str_in commit_id head_commits) src_commits.

(** The history walk in the specification's words: the commit itself, then
    the histories of its parents, in order. *)
Inductive history (images : entries) : string -> list string -> Prop :=
| history_walk (c : string) (parents : list string) (hs : list (list string)) :
    get_parents images c = Ok parents ->
    Forall2 (history images) parents hs ->
    history images c (c :: concat hs).

(** A finite acyclic commit graph: the commits [ids] all have readable
    metadata, their parents are among [ids], and [rank] decreases along
    every parent edge. *)
Definition acyclic_graph (rank : string -> nat) (images : entries)
    (ids : list string) : bool :=
  forallb
    (fun c =>
       match get_parents images c with
       | Ok parents =>
           forallb (fun p => (rank p <? rank c)%nat && str_in p ids) parents
       | Raise _ => false
       end)
    ids.

(** ** Paths below a directory *)

(** The node a path of components leads to, if any. *)
Fixpoint get_node (path : list string) (n : node) : option node :=
  match path with
  | [] => Some n
  | name :: rest =>
      match n with
      | Dir es =>
          match lookup name es with
          | Some x => get_node rest x
          | None => None
          end
      | File _ => None
      end
  end.

(** Putting a node at a path whose parent directories exist. *)
Fixpoint set_node (path : list string) (x : node) (n : node) : option node :=
  match path with
  | [] => Some x
  | name :: rest =>
      match n with
      | Dir es =>
          match rest, lookup name es with
          | [], _ => Some (Dir (set_entry name x es))
          | _, Some sub =>
              match set_node rest x sub with
              | Some sub' => Some (Dir (set_entry name sub' es))
              | None => None
              end
          | _, None => None
          end
      | File _ => None
      end
  end.

(** [open(os.path.join(dir, name), "w").write(text)]: a directory of that
    name makes [open] raise. *)
Definition open_write (name text : string) (es : entries) : result entries :=
  match lookup name es with
  | Some (Dir _) => Raise OSError
  | _ => Ok (write_file name text es)
  end.

(** [shutil.copy2(s, d)] for a regular file [s] with the given content and
    [d = os.path.join(dst, item)], seen from the directory [dst]: when [d]
    is itself a directory the copy goes to [d/item]. *)
Definition copy2 (item content : string) (dst : option node) : result node :=
  match dst with
  | Some (Dir es) =>
      match lookup item es with
      | Some (Dir sub) =>
          do sub' <- open_write item content sub;
          Ok (Dir (set_entry item (Dir sub') es))
      | _ => Ok (Dir (write_file item content es))
      end
  | _ => Raise OSError
  end.

(** ** The reference file ([references.txt]) *)

(** A Python [dict] from strings to strings, in insertion order. *)
Definition dict : Type := list (string * string).

Fixpoint dict_get (k : string) (d : dict) : option string :=
  match d with
  | [] => None
  | (k', v) :: rest => if k' =? k then Some v else dict_get k rest
  end.

Definition dict_in (k : string) (d : dict) : bool :=
  match dict_get k d with
  | Some _ => true
  | None => false
  end.

(** [d[k] = v]: a present key keeps its place. *)
Fixpoint dict_set (k v : string) (d : dict) : dict :=
  match d with
  | [] => [(k, v)]
  | (k', v') :: rest =>
      if k' =? k then (k', v) :: rest else (k', v') :: dict_set k v rest
  end.

(** [name, commit = line.split("=")] *)
Definition unpack_binding (line : string) : result (string * string) :=
  match split "="%char line with
  | [name; commit] => Ok (name, commit)
  | _ => Raise ValueError
  end.

(** [for line in content: name, commit = line.split("="); params[name] = commit] *)
Definition read_bindings (content : list string) : result dict :=
  for_each
    (fun params line =>
       do binding <- unpack_binding line;
       Ok (dict_set (fst binding) (snd binding) params))
    content [].

(** [get_branches(references_path)] *)
Definition get_branches (images : entries) : result dict :=
  do text <- read_file images "references.txt";
  read_bindings (tl (splitlines text)).

(** [update_references(references_path, commit_id, branch)]: the images
    directory with the rewritten file.  Nothing is written when a line
    does not parse. *)
Definition update_references (images : entries) (commit_id branch : string)
  : result entries :=
  do text <- read_file images "references.txt";
  let content := splitlines text in
  do params <- read_bindings content;
  let params := dict_set "HEAD" commit_id params in
  let params :=
    if dict_in branch params then dict_set branch commit_id params else params in
  let content := map (fun kv => (fst kv ++ "=" ++ snd kv)%string) params in
  Ok (write_file "references.txt" (join_lines content) images).

(** ** Comparing directories ([filecmp.dircmp], [filecmp.cmpfiles]) *)

(** [filecmp.DEFAULT_IGNORES] and the hidden names [os.curdir], [os.pardir]. *)
Definition DEFAULT_IGNORES : list string :=
  ["RCS"; "CVS"; "tags"; ".git"; ".hg"; ".bzr"; "_darcs"; "__pycache__"].

Definition hide : list string := ["."; ".."].

Fixpoint insert_sorted (x : string) (l : list string) : list string :=
  match l with
  | [] => [x]
  | y :: l' => if String.leb x y then x :: l else y :: insert_sorted x l'
  end.

(** [list.sort()] on strings. *)
Definition sort (l : list string) : list string := fold_right insert_sorted [] l.

(** [dircmp.left_list]: the names of a directory, filtered and sorted. *)
Definition listing (es : entries) : list string :=
  sort (filter (fun n => negb (str_in n (hide ++ DEFAULT_IGNORES))) (names es)).

Definition common (es1 es2 : entries) : list string :=
  filter (fun n => str_in n (listing es2)) (listing es1).

Definition left_only (es1 es2 : entries) : list string :=
  filter (fun n => negb (str_in n (listing es2))) (listing es1).

Definition right_only (es1 es2 : entries) : list string :=
  filter (fun n => negb (str_in n (listing es1))) (listing es2).

Definition common_dirs (es1 es2 : entries) : list string :=
  filter (fun n => isdir es1 n && isdir es2 n) (common es1 es2).

Definition common_files (es1 es2 : entries) : list string :=
  filter (fun n => isfile es1 n && isfile es2 n) (common es1 es2).

(** [dircmp.funny_files] and the third list of [cmpfiles] hold the files
    that could not be read; every file of a [node] can be. *)
Definition funny_files (es1 es2 : entries) : list string := [].

(** [filecmp.cmpfiles(dir1, dir2, common_files, shallow=False)[1]] *)
Definition mismatch (es1 es2 : entries) : list string :=
  filter
    (fun n =>
       match lookup n es1, lookup n es2 with
       | Some (File c1), Some (File c2) => negb (c1 =? c2)
       | _, _ => false
       end)
    (common_files es1 es2).

Definition errors (es1 es2 : entries) : list string := [].

(** The recursive call on the subdirectory [name] of a directory, for a
    function defined by recursion on the tree. *)
Definition on_child {A : Type} (rec : node -> A) : entries -> string -> option A :=
  fix find (es : entries) (name : string) : option A :=
    match es with
    | [] => None
    | (n, x) :: rest => if n =? name then Some (rec x) else find rest name
    end.

(** [are_dir_trees_equal(dir1, dir2)] *)
Fixpoint are_dir_trees_equal (dir1 dir2 : node) {struct dir1} : result bool :=
  match dir1, dir2 with
  | Dir es1, Dir es2 =>
      if (0 <? length (left_only es1 es2))%nat
         || (0 <? length (right_only es1 es2))%nat
         || (0 <? length (funny_files es1 es2))%nat
      then Ok false
      else if (0 <? length (mismatch es1 es2))%nat
              || (0 <? length (errors es1 es2))%nat
      then Ok false
      else
        (fix for_dirs (dirs : list string) : result bool :=
           match dirs with
           | [] => Ok true
           | common_dir :: dirs' =>
               match on_child are_dir_trees_equal es1 common_dir,
                     lookup common_dir es2 with
               | Some equal_below, Some new_dir2 =>
                   do same <- equal_below new_dir2;
                   if negb same then Ok false else for_dirs dirs'
               | _, _ => Raise OSError
               end
           end) (common_dirs es1 es2)
  | _, _ => Raise OSError
  end.

(** [get_dirs_diffs(dir1, dir2, changes, by_content)]: the list [changes]
    after the call.  [dir2] is the path of the second directory; the path
    of the first one is never used. *)
Fixpoint get_dirs_diffs (t1 : node) (dir2 : string) (t2 : node)
    (changes : list string) (by_content : bool) {struct t1}
  : result (list string) :=
  match t1, t2 with
  | Dir es1, Dir es2 =>
      let changes :=
        if by_content then
          let changed_files := mismatch es1 es2 in
          changes ++ map (os_path_join dir2) changed_files
        else
          let diff_files := right_only es1 es2 in
          changes ++ map (os_path_join dir2) diff_files in
      for_each
        (fun changes common_dir =>
           let new_dir2 := os_path_join dir2 common_dir in
           match on_child get_dirs_diffs es1 common_dir,
                 lookup common_dir es2 with
           | Some diffs_below, Some sub2 =>
               diffs_below new_dir2 sub2 changes by_content
           | _, _ => Raise OSError
           end)
        (common_dirs es1 es2) changes
  | _, _ => Raise OSError
  end.

(** ** Materialising a snapshot ([utilities.execute_checkout]) *)

Definition child (dst : option node) (item : string) : option node :=
  match dst with
  | Some (Dir es) => lookup item es
  | _ => None
  end.

Definition set_child (dst : option node) (item : string) (d : option node)
  : option node :=
  match dst, d with
  | Some (Dir es), Some x => Some (Dir (set_entry item x es))
  | _, _ => dst
  end.

(** [execute_checkout(src, dst, ignore)]: what is at the path [dst] after
    the call ([None] when nothing is there), and how the call ended.  An
    exception leaves the copies made so far in place. *)
Fixpoint execute_checkout (src : node) (dst : option node) (ignore : list string)
    {struct src} : option node * result unit :=
  match src with
  | File _ => (dst, Raise OSError)
  | Dir items =>
      (fix for_items (items : entries) (dst : option node)
         : option node * result unit :=
         match items with
         | [] => (dst, Ok tt)
         | (item, s) :: items' =>
             let step :=
               match s with
               | Dir _ =>
                   let below := execute_checkout s (child dst item) ignore in
                   (set_child dst item (fst below), snd below)
               | File content =>
                   if negb (str_in item ignore) then
                     match copy2 item content dst with
                     | Ok d => (Some d, Ok tt)
                     | Raise e => (dst, Raise e)
                     end
                   else (dst, Ok tt)
               end in
             match snd step with
             | Ok _ => for_items items' (fst step)
             | Raise e => (fst step, Raise e)
             end
         end) items dst
  end.

(** ** Copying a tree ([distutils.dir_util.copy_tree]) *)

(** [n.startswith(".nfs")] *)
Definition is_nfs (n : string) : bool := prefix ".nfs" n.

(** [copy_tree(src, dst)] into a directory [dst] that [os.mkdir] has just
    created: the tree found at [dst] afterwards.  [copy_tree] leaves out
    the names that start with [.nfs]; a regular file is copied by
    [copy_file]. *)
Fixpoint copy_tree (src : node) : node :=
  match src with
  | File content => File content
  | Dir names =>
      Dir ((fix for_names (names : entries) : entries :=
              match names with
              | [] => []
              | (n, x) :: names' =>
                  if is_nfs n then for_names names'
                  else (n, copy_tree x) :: for_names names'
              end) names)
  end.

(** ** The repository *)

(** The file system below the repository root [home_dir], the directory
    that [split_path] has found to contain [.wit]. *)
Record repository : Type := mkRepository {
  home_dir : string;
  home : entries
}.

Definition WIT : list string := [".wit"].
Definition IMAGES : list string := [".wit"; "images"].
Definition STAGING_AREA : list string := [".wit"; "staging_area"].

Definition node_at (path : list string) (r : repository) : option node :=
  get_node path (Dir (home r)).

(** The entries of a directory of the repository; none when it is
    missing, so that every read below it fails. *)
Definition dir_at (path : list string) (r : repository) : entries :=
  match node_at path r with
  | Some (Dir es) => es
  | _ => []
  end.

Definition images_of (r : repository) : entries := dir_at IMAGES r.

Definition wit_path (r : repository) : string := os_path_join (home_dir r) ".wit".
Definition staging_dir (r : repository) : string :=
  os_path_join (wit_path r) "staging_area".
Definition images_dir (r : repository) : string :=
  os_path_join (wit_path r) "images".

(** What a command prints, and what it appends to [wit_log.txt] (the log
    file itself is not part of the modelled tree). *)
Inductive message : Type :=
| Line (text : string)
| StatusReport (commit_id : string)
    (changes_to_commit changes_not_staged untracked_files : list string)
| ErrorText (e : exn)
| Logged (e : exn).

(** A command acts on the repository and on the output, and returns or
    raises. *)
Definition cmd (A : Type) : Type :=
  repository -> list message -> repository * list message * result A.

Definition ret {A : Type} (a : A) : cmd A := fun r out => (r, out, Ok a).

Definition lift {A : Type} (x : result A) : cmd A := fun r out => (r, out, x).

Definition cbind {A B : Type} (c : cmd A) (k : A -> cmd B) : cmd B :=
  fun r out =>
    match c r out with
    | (r', out', Ok a) => k a r' out'
    | (r', out', Raise e) => (r', out', Raise e)
    end.

Notation "'run' x <- c ;; k" := (cbind c (fun x => k))
  (at level 10, x name, c at level 100, k at level 200).
Notation "'exec' c ;; k" := (cbind c (fun _ => k))
  (at level 10, c at level 100, k at level 200).

Definition get : cmd repository := fun r out => (r, out, Ok r).

Definition print (m : message) : cmd unit := fun r out => (r, out ++ [m], Ok tt).

(** [try: c  except OSError as e: handler(e)] *)
Definition try_os {A : Type} (c : cmd A) (handler : cmd A) : cmd A :=
  fun r out =>
    match c r out with
    | (r', out', Raise OSError) => handler r' out'
    | other => other
    end.

(** Replacing the node at a path; the parent directory has to exist. *)
Definition put_node (path : list string) (x : node) : cmd unit :=
  fun r out =>
    match set_node path x (Dir (home r)) with
    | Some (Dir es) => (mkRepository (home_dir r) es, out, Ok tt)
    | _ => (r, out, Raise OSError)
    end.

(** Rewriting the images directory as a whole. *)
Definition put_images (es : entries) : cmd unit :=
  fun r out =>
    match node_at IMAGES r with
    | Some (Dir _) => put_node IMAGES (Dir es) r out
    | _ => (r, out, Raise OSError)
    end.

Definition the_node (o : option node) : result node :=
  match o with
  | Some n => Ok n
  | None => Raise OSError
  end.

Definition lift_fueled {A : Type} (x : fueled A) : result A :=
  match x with
  | Some r => r
  | None => Raise RecursionError
  end.

(** [get_activated_branch(home_dir)] *)
Definition get_activated_branch (r : repository) : result string :=
  read_file (dir_at WIT r) "activated.txt".

(** ** [wit.status] *)

Definition status (checkout : bool)
  : cmd (option (list string * list string * list string)) :=
  run r <- get ;;
  let images := images_of r in
  if negb (isfile images "references.txt") then
    exec print (Line "No commit was found.") ;; ret None
  else
    run head_commit_id <- lift (get_head_commit_id images) ;;
    let commit_dir := lookup head_commit_id images in
    let changes_to_commit := [] in
    let changes_not_staged := [] in
    let untracked_files := [] in
    run changes_to_commit <-
      lift (do c <- the_node commit_dir;
            do s <- the_node (node_at STAGING_AREA r);
            get_dirs_diffs c (staging_dir r) s changes_to_commit false) ;;
    run changes_not_staged <-
      lift (do s <- the_node (node_at STAGING_AREA r);
            get_dirs_diffs s (home_dir r) (Dir (home r)) changes_not_staged true) ;;
    run untracked_files <-
      lift (do s <- the_node (node_at STAGING_AREA r);
            get_dirs_diffs s (home_dir r) (Dir (home r)) untracked_files false) ;;
    if checkout then
      ret (Some (changes_to_commit, changes_not_staged, untracked_files))
    else
      exec print (StatusReport head_commit_id changes_to_commit
                    changes_not_staged untracked_files) ;;
      ret None.

(** ** [wit.commit] *)

(** [create_image_dir(home_dir)], where [commit_id] is the outcome of
    [random.choices]: [os.mkdir] raises when the name is taken. *)
Definition create_image_dir (commit_id : string) : cmd string :=
  run r <- get ;;
  match lookup commit_id (images_of r) with
  | Some _ => lift (Raise OSError)
  | None =>
      exec put_images (images_of r ++ [(commit_id, Dir [])]) ;; ret commit_id
  end.

(** [create_meta_data(commit_id, images_dir, message, second_parent)],
    where [date] is the outcome of [time.ctime()]. *)
Definition create_meta_data (date commit_id message : string)
    (second_parent : option string) : cmd unit :=
  run r <- get ;;
  let images := images_of r in
  run parent <-
    (if isfile images "references.txt" then
       run head <- lift (get_head_commit_id images) ;;
       match second_parent with
       | None => ret head
       | Some second => ret (String.concat "," [head; second])
       end
     else ret "None") ;;
  let content :=
    [ ("parent=" ++ parent ++ NL)%string;
      ("date=" ++ date ++ NL)%string;
      ("message=" ++ message ++ NL)%string ] in
  run images' <- lift (open_write (commit_id ++ ".txt") (String.concat "" content)
                     images) ;;
  put_images images'.

(** [commit(message, second_parent)]: [Some commit_id] for a new commit,
    [None] when nothing was committed. *)
Definition commit (date fresh_id : string) (message : string)
    (second_parent : option string) : cmd (option string) :=
  run r <- get ;;
  let images := images_of r in
  run unchanged <-
    (if isfile images "references.txt" then
       run head_commit <- lift (get_head_commit_id images) ;;
       lift (do head_commit_dir <- the_node (lookup head_commit images);
             do staging <- the_node (node_at STAGING_AREA r);
             are_dir_trees_equal head_commit_dir staging)
     else ret false) ;;
  if unchanged : bool then
    exec print (Line "No changes made since the last commit. Commit aborted.") ;;
    ret None
  else
    run commit_id <- create_image_dir fresh_id ;;
    exec create_meta_data date commit_id message second_parent ;;
    run r <- get ;;
    run snapshot <-
      lift (match node_at STAGING_AREA r with
            | Some (Dir staged) => Ok (copy_tree (Dir staged))
            | _ => Raise DistutilsFileError
            end) ;;
    exec put_images (set_entry commit_id snapshot (images_of r)) ;;
    exec print (Line ("Commit executed. "
                      ++ os_path_join (images_dir r) commit_id ++ " created.")) ;;
    run activated_branch <- lift (get_activated_branch r) ;;
    run r <- get ;;
    let images := images_of r in
    exec (if isfile images "references.txt" then
            run images' <- lift (update_references images commit_id
                                   activated_branch) ;;
            put_images images'
          else
            let refs :=
              join_lines [("HEAD=" ++ commit_id)%string;
                          ("master=" ++ commit_id)%string] in
            run images' <- lift (open_write "references.txt" refs images) ;;
            put_images images') ;;
    ret (Some commit_id).

(** ** [wit.branch] *)

(** [branch(name)].  The file is opened in mode [a+], so the new line goes
    to the end of the text that was read. *)
Definition branch (name : string) : cmd unit :=
  run r <- get ;;
  let images := images_of r in
  if negb (isfile images "references.txt") then
    print (Line "Can not complete the proccess. No commit found.")
  else
    run text <- lift (read_file images "references.txt") ;;
    let content := splitlines text in
    run line0 <- lift (py_index content 0) ;;
    run head_commit_id <- lift (py_index (split "="%char line0) 1) ;;
    let all_branches := map (fun line => hd "" (split "="%char line)) content in
    if str_in name all_branches then
      print (Line ("Branch name '" ++ name
                   ++ "' is already in use. Aborting proccess."))
    else
      put_images
        (write_file "references.txt"
           (text ++ NL ++ name ++ "=" ++ head_commit_id) images).

(** ** [wit.checkout] *)

(** [execute_checkout(commit_dir, dst, ignore)] with [dst] the directory at
    [path] of the repository ([[]] for [home_dir] itself).  [os.listdir]
    raises when [commit_dir] is missing. *)
Definition checkout_into (commit_dir : option node) (path : list string)
    (ignore : list string) : cmd unit :=
  fun r out =>
    match commit_dir with
    | None => (r, out, Raise OSError)
    | Some src =>
        let done := execute_checkout src (node_at path r) ignore in
        let r' :=
          match fst done with
          | Some d =>
              match set_node path d (Dir (home r)) with
              | Some (Dir es) => mkRepository (home_dir r) es
              | _ => r
              end
          | None => r
          end in
        (r', out, snd done)
    end.

(** [open(path, "r").read()] for a path of components below [home_dir]. *)
Definition read_at (path : list string) (r : repository) : result string :=
  match node_at path r with
  | Some (File text) => Ok text
  | _ => Raise OSError
  end.

(** [checkout(param)].  [commit_dir] is [os.path.join(images_dir,
    commit_id)], with the identifier as the reference file or the user
    gives it.  For a raw commit identifier the source calls
    [get_activated_branch(references_path)], which looks for
    [references.txt/.wit/activated.txt]. *)
Definition checkout (param : string) : cmd unit :=
  run status_params <- status true ;;
  match status_params with
  | None =>
      print (Line "Can not complete the checkout due to an unexpected error.")
  | Some (changes_to_commit, changes_not_staged, untracked_files) =>
      if (0 <? length changes_to_commit)%nat
         || (0 <? length changes_not_staged)%nat
      then
        print (Line "Can not complete the checkout. Make sure all changes made to the project are fully committed.")
      else
        run r <- get ;;
        exec (if negb (isfile (images_of r) "references.txt")
              then print (Line "Can not complete the checkout. No commit found.")
              else ret tt) ;;
        run branches <- lift (get_branches (images_of r)) ;;
        let is_branch := dict_in param branches in
        let commit_id :=
          match dict_get param branches with
          | Some c => c
          | None => param
          end in
        run commit_dir <- lift (entry_at (images_of r) commit_id) ;;
        run copied <-
          try_os
            (exec checkout_into commit_dir [] untracked_files ;; ret true)
            (exec print (Line "Copy proccess aborted due to an error.") ;;
             exec print (Logged OSError) ;;
             exec print (ErrorText OSError) ;; ret false) ;;
        if copied : bool then
          run r <- get ;;
          run commit_dir <- lift (entry_at (images_of r) commit_id) ;;
          run staged <-
            try_os
              (exec checkout_into commit_dir STAGING_AREA [] ;; ret true)
              (exec print (Line "Copy to staging area proccess aborted due to an error.") ;;
               exec print (Logged OSError) ;;
               exec print (ErrorText OSError) ;; ret false) ;;
          if staged : bool then
            run r <- get ;;
            exec (if is_branch then
                    run images' <- lift (update_references (images_of r)
                                           commit_id param) ;;
                    exec put_images images' ;;
                    run r <- get ;;
                    run wit' <- lift (open_write "activated.txt" param
                                        (dir_at WIT r)) ;;
                    put_node WIT (Dir wit')
                  else
                    run activated_branch <-
                      lift (read_at (IMAGES ++ ["references.txt"; ".wit";
                                                "activated.txt"]) r) ;;
                    run images' <- lift (update_references (images_of r)
                                           commit_id activated_branch) ;;
                    put_images images') ;;
            print (Line "Checkout proccess completed.")
          else ret tt
        else ret tt
  end.

(** ** [wit.merge] *)

(** The components of [os.path.normpath(path)] for an absolute path:
    empty components and [.] are dropped, [..] removes the component
    before it (and is dropped at the root). *)
Definition norm_components (path : string) : list string :=
  fold_left
    (fun new_comps comp =>
       if (comp =? "") || (comp =? ".") then new_comps
       else if comp =? ".." then removelast new_comps
       else new_comps ++ [comp])
    (split "/"%char path) [].

(** The length of the longest common prefix of two lists of components. *)
Fixpoint common_prefix_length (xs ys : list string) : nat :=
  match xs, ys with
  | x :: xs', y :: ys' =>
      if x =? y then S (common_prefix_length xs' ys') else 0
  | _, _ => 0
  end.

(** [os.path.relpath(path, start)] for absolute paths, as all paths below
    [home_dir] are ([home_dir] comes from [os.getcwd()]). *)
Definition relpath (path start : string) : string :=
  let start_list := norm_components start in
  let path_list := norm_components path in
  let i := common_prefix_length start_list path_list in
  let rel_list := repeat ".." (length start_list - i) ++ skipn i path_list in
  match rel_list with
  | [] => "."
  | _ => String.concat "/" rel_list
  end.

(** [shutil.copy2(item, os.path.join(dst, rel))] for a regular file with
    the given content and the components of [rel]. *)
Fixpoint copy2_at (rel : list string) (content : string) (dst : option node)
  : result node :=
  match rel with
  | [] => Raise OSError
  | [item] => copy2 item content dst
  | d :: rel' =>
      match dst with
      | Some (Dir es) =>
          do sub' <- copy2_at rel' content (lookup d es);
          Ok (Dir (set_entry d sub' es))
      | _ => Raise OSError
      end
  end.

(** One pass of [for item in files_changed] in [wit.merge].  An [item]
    is a path that [get_dirs_diffs] built below [src_image_dir]: the file
    it names is found in the source snapshot along [rel_dst]. *)
Definition merge_copy (src_image_dir : string) (src_snapshot : option node)
    (item : string) : cmd unit :=
  let rel_dst := relpath item src_image_dir in
  exec print (Line rel_dst) ;;
  run r <- get ;;
  run staging' <-
    lift (do src <- the_node src_snapshot;
          match get_node (split "/"%char rel_dst) src with
          | Some (File content) =>
              copy2_at (split "/"%char rel_dst) content (node_at STAGING_AREA r)
          | _ => Raise OSError
          end) ;;
  put_node STAGING_AREA staging'.

Fixpoint for_items {A : Type} (body : A -> cmd unit) (items : list A) : cmd unit :=
  match items with
  | [] => ret tt
  | item :: items' => exec body item ;; for_items body items'
  end.

(** [merge(param)].  [depth] is the recursion depth available to the
    history walks; running out of it is Python's [RecursionError].  The
    snapshots of the common commit and of the source are found at
    [os.path.join(images_dir, commit_id)], the first one first, as the
    directory comparison lists them. *)
Definition merge (depth : nat) (date fresh_id : string) (param : string)
  : cmd unit :=
  run r <- get ;;
  let images := images_of r in
  exec (if negb (isfile images "references.txt")
        then print (Line "Can not complete the proccess. No commit found.")
        else ret tt) ;;
  run branches <- lift (get_branches images) ;;
  let src_commit_id :=
    match dict_get param branches with
    | Some c => c
    | None => param
    end in
  run histories <-
    try_os
      (run src_commits <-
         lift (lift_fueled (get_all_commits depth images (Some src_commit_id))) ;;
       run head_commits <-
         lift (lift_fueled (get_all_commits depth images None)) ;;
       ret (Some (src_commits, head_commits)))
      (exec print (Line "Wrong commit_id or branch name entered.") ;;
       exec print (Logged OSError) ;;
       exec print (ErrorText OSError) ;; ret None) ;;
  match histories with
  | None => ret tt
  | Some (src_commits, head_commits) =>
      match scan_common src_commits head_commits with
      | None =>
          print (Line "No common basis between the HEAD commit and the branch was found. Aborting.")
      | Some common_commit =>
          let files_changed := [] in
          let src_dir := os_path_join (images_dir r) src_commit_id in
          run files_changed <-
            lift (do common_snapshot <- entry_at images common_commit;
                  do c <- the_node common_snapshot;
                  do src_snapshot <- entry_at images src_commit_id;
                  do s <- the_node src_snapshot;
                  get_dirs_diffs c src_dir s files_changed false) ;;
          run files_changed <-
            lift (do common_snapshot <- entry_at images common_commit;
                  do c <- the_node common_snapshot;
                  do src_snapshot <- entry_at images src_commit_id;
                  do s <- the_node src_snapshot;
                  get_dirs_diffs c src_dir s files_changed true) ;;
          let src_image_dir := os_path_join (images_dir r) src_commit_id in
          exec print (Line "Changed/added files merged to a new commit:") ;;
          run src_snapshot <- lift (entry_at images src_commit_id) ;;
          exec for_items (merge_copy src_image_dir src_snapshot)
                 files_changed ;;
          run head0 <- lift (py_index head_commits 0) ;;
          run new_commit_id <-
            commit date fresh_id
              ("Merge of " ++ head0 ++ " and " ++ src_commit_id)
              (Some src_commit_id) ;;
          match new_commit_id with
          | None => ret tt
          | Some new_id =>
              run r <- get ;;
              run activated_branch <- lift (get_activated_branch r) ;;
              run images' <- lift (update_references (images_of r) new_id
                                     activated_branch) ;;
              put_images images'
          end
      end
  end.

(** The three components of a finished command. *)
Definition final {A : Type} (x : repository * list message * result A)
  : repository := fst (fst x).
Definition printed {A : Type} (x : repository * list message * result A)
  : list message := snd (fst x).
Definition returned {A : Type} (x : repository * list message * result A)
  : result A := snd x.

(** ** Shapes of texts and identifiers *)

Fixpoint no_linebreak (s : string) : bool :=
  match s with
  | EmptyString => true
  | String c s' => negb (is_linebreak c) && no_linebreak s'
  end.

(** Appending a line feed to such a text opens an empty line: the text is
    empty, or ends in a line boundary other than a carriage return (which
    would pair up with the line feed). *)
Fixpoint opens_blank_line (s : string) : bool :=
  match s with
  | EmptyString => true
  | String c EmptyString => is_linebreak c && negb (Ascii.eqb c CR)
  | String _ s' => opens_blank_line s'
  end.

Definition COMMIT_ID_CHARS : string := "123456789abcdef".
Definition COMMIT_ID_LENGTH : nat := 40.

Fixpoint char_in (c : ascii) (s : string) : bool :=
  match s with
  | EmptyString => false
  | String c' s' => Ascii.eqb c c' || char_in c s'
  end.

Fixpoint all_chars (p : ascii -> bool) (s : string) : bool :=
  match s with
  | EmptyString => true
  | String c s' => p c && all_chars p s'
  end.

(** The strings [create_image_dir] can draw:
    [random.choices(COMMIT_ID_CHARS, k=COMMIT_ID_LENGTH)]. *)
Definition commit_id_ok (s : string) : bool :=
  (String.length s =? COMMIT_ID_LENGTH)%nat
  && all_chars (fun c => char_in c COMMIT_ID_CHARS) s.

(** ** Identical trees *)

(** Two trees are identical when they have the same names at every level,
    with the same file contents; the order of a listing does not count. *)
Inductive same_tree : node -> node -> Prop :=
| same_file (content : string) : same_tree (File content) (File content)
| same_dir (es1 es2 : entries) :
    (forall n, In n (names es1) <-> In n (names es2)) ->
    (forall n x1 x2,
        lookup n es1 = Some x1 -> lookup n es2 = Some x2 -> same_tree x1 x2) ->
    same_tree (Dir es1) (Dir es2).


(** The reference file, when there is one, starts with the HEAD line. *)
Definition head_line_first (images : entries) : bool :=
  match read_file images "references.txt" with
  | Ok text =>
      match splitlines text with
      | line0 :: _ => hd "" (split "="%char line0) =? "HEAD"
      | [] => false
      end
  | Raise _ => true
  end.

(** ** Auxiliary notions *)

(** What a step leaves alone outside the images directory. *)
Definition keeps (r r' : repository) : Prop :=
  home_dir r' = home_dir r
  /\ node_at STAGING_AREA r' = node_at STAGING_AREA r
  /\ get_activated_branch r' = get_activated_branch r.

(** The first key of a dictionary. *)
Definition first_key (d : dict) : option string :=
  match d with
  | (k, _) :: _ => Some k
  | [] => None
  end.



(** [s] contains a path separator. *)
Definition has_sep (s : string) : bool := char_in "/"%char s.

(** No name in the tree contains a path separator, as for every name
    that [os.listdir] returns. *)
Fixpoint plain_names (t : node) : bool :=
  match t with
  | File _ => true
  | Dir es =>
      (fix all (es : entries) : bool :=
         match es with
         | [] => true
         | (n, x) :: rest => negb (has_sep n) && plain_names x && all rest
         end) es
  end.

(** [s] contains no [=]. *)
Definition no_equals (s : string) : bool :=
  all_chars (fun c => negb (Ascii.eqb c "="%char)) s.

(** ** Well-formed bindings *)

(** A name or a commit identifier that survives a write to the reference
    file: it holds no line boundary and no [=]. *)
Definition clean_field (s : string) : bool := no_linebreak s && no_equals s.

(** A dictionary as [update_references] builds it from a readable file:
    the keys are distinct and every field is clean. *)
Definition well_formed (d : dict) : Prop :=
  NoDup (map fst d)
  /\ Forall (fun kv => clean_field (fst kv) = true
                       /\ clean_field (snd kv) = true) d.

(** ** What the directory comparison looks at *)

(** The names [filecmp.dircmp] drops from both listings. *)
Definition ignored (n : string) : bool := str_in n (hide ++ DEFAULT_IGNORES).

(** Two directories agree when, at every level, they hold the same names
    that are not ignored, two regular files of the same name have the
    same content, and two directories of the same name agree.  A name
    that is a regular file on one side and a directory on the other is
    subject to the first condition only. *)
Inductive agree : node -> node -> Prop :=
| agree_dirs (es1 es2 : entries) :
    (forall n, ignored n = false -> (In n (names es1) <-> In n (names es2))) ->
    (forall n c1 c2,
        ignored n = false ->
        lookup n es1 = Some (File c1) -> lookup n es2 = Some (File c2) ->
        c1 = c2) ->
    (forall n s1 s2,
        ignored n = false ->
        lookup n es1 = Some (Dir s1) -> lookup n es2 = Some (Dir s2) ->
        agree (Dir s1) (Dir s2)) ->
    agree (Dir es1) (Dir es2).

(** Two trees have the same names when they hold the same names at every
    level, whatever the contents of the files. *)
Inductive same_names : node -> node -> Prop :=
| same_names_file (c1 c2 : string) : same_names (File c1) (File c2)
| same_names_dir (es1 es2 : entries) :
    (forall n, In n (names es1) <-> In n (names es2)) ->
    (forall n x1 x2,
        lookup n es1 = Some x1 -> lookup n es2 = Some x2 -> same_names x1 x2) ->
    same_names (Dir es1) (Dir es2).

(** ** What a command leaves alone *)

(** Everything outside [.wit], and the activated branch. *)
Definition work_kept (r r' : repository) : Prop :=
  home_dir r' = home_dir r
  /\ get_activated_branch r' = get_activated_branch r
  /\ forall n, n <> ".wit" -> lookup n (home r') = lookup n (home r).

(** The same, and the staging area. *)
Definition untouched (r r' : repository) : Prop :=
  work_kept r r' /\ node_at STAGING_AREA r' = node_at STAGING_AREA r.

(** A command that relates the repository it ends with to the one it
    started from, however it ends. *)
Definition preserves {A : Type} (R : repository -> repository -> Prop)
    (c : cmd A) : Prop :=
  forall r out r' out' res, c r out = (r', out', res) -> R r r'.

(** ** What a checkout has to copy *)

(** Some regular file of the tree has a name that is not in [ignore]:
    [execute_checkout] reaches a call of [copy2]. *)
Fixpoint has_copy (src : node) (ignore : list string) {struct src} : bool :=
  match src with
  | File _ => false
  | Dir items =>
      (fix any (items : entries) : bool :=
         match items with
         | [] => false
         | (item, s) :: items' =>
             match s with
             | Dir _ => has_copy s ignore
             | File _ => negb (str_in item ignore)
             end || any items'
         end) items
  end.

(** There is a directory at the place. *)
Definition is_dir_node (o : option node) : bool :=
  match o with
  | Some (Dir _) => true
  | _ => false
  end.

(** There is a directory at the path [p] below the place. *)
Definition dir_below (p : list string) (o : option node) : bool :=
  match o with
  | Some t => is_dir_node (get_node p t)
  | None => false
  end.

(** ** [wit.init] *)

(** [os.mkdir(path)]: the path must be free and its parent a directory. *)
Definition mkdir (path : list string) : cmd unit :=
  fun r out =>
    match node_at path r with
    | Some _ => (r, out, Raise OSError)
    | None => put_node path (Dir []) r out
    end.

(** [init()], run in the directory [home_dir]. *)
Definition init : cmd unit :=
  run created <-
    try_os
      (exec mkdir WIT ;;
       exec mkdir IMAGES ;;
       exec mkdir STAGING_AREA ;; ret true)
      (exec print (Logged OSError) ;;
       exec print (ErrorText OSError) ;; ret false) ;;
  if created : bool then
    run r <- get ;;
    run wit' <- lift (open_write "activated.txt" "master" (dir_at WIT r)) ;;
    put_node WIT (Dir wit')
  else ret tt.

(** ** Labels of the commit graph ([utilities.split_text_for_node]) *)

(** [range(0, stop, step)] for a positive [step]. *)
Definition range_step (stop step : nat) : list nat :=
  map (fun k => k * step) (seq 0 ((stop + step - 1) / step)).

(** [[text[j: j + label_length] for j in range(0, len(text), label_length)]] *)
Definition label_chunks (text : string) : list string :=
  let label_length := 10 in
  map (fun j => substring j label_length text)
    (range_step (String.length text) label_length).

Definition split_text_for_node (text : string) : string :=
  join_lines (label_chunks text).

(** [s[n:]] *)
Fixpoint string_drop (n : nat) (s : string) : string :=
  match n, s with
  | 0, _ => s
  | S n', String _ s' => string_drop n' s'
  | S _, EmptyString => EmptyString
  end.

(** ** The tree diffs, in the specification's words *)





(** ** The tree diffs of the code, against the specification's *)






(** ** Example repositories *)

(** A store with an ancestor of one line and two edited versions of two
    lines. *)
Definition two_longer_store : file_store :=
  fun p => if p =? "base" then Some ("x" ++ NL)%string
           else if p =? "theirs" then Some ("x" ++ NL ++ "y" ++ NL)%string
           else if p =? "ours" then Some ("x" ++ NL ++ "z" ++ NL)%string
           else None.


(** What [create_meta_data] writes for a commit. *)
Definition meta_data_text (parent date message : string) : string :=
  "parent=" ++ parent ++ NL ++ "date=" ++ date ++ NL
  ++ "message=" ++ message ++ NL.

(** A diamond: [a] is the root, [b] and [c] both descend from it, and [d]
    merges them.  HEAD is [d]. *)
Definition diamond : entries :=
  [ ("references.txt", File ("HEAD=d" ++ NL ++ "master=d"));
    ("a", Dir []); ("a.txt", File (meta_data_text "None" "Mon" "root"));
    ("b", Dir []); ("b.txt", File (meta_data_text "a" "Tue" "left"));
    ("c", Dir []); ("c.txt", File (meta_data_text "a" "Wed" "right"));
    ("d", Dir []); ("d.txt", File (meta_data_text "b,c" "Thu" "Merge of b and c")) ].

Definition diamond_ids : list string := ["d"; "b"; "c"; "a"].

Definition diamond_rank (c : string) : nat :=
  if c =? "d" then 2 else if c =? "b" then 1 else if c =? "c" then 1 else 0.

(** A fork: [r] is the root, [b] its child, and both HEAD [h] and the
    branch commit [s] are children of [b]. *)
Definition fork : entries :=
  [ ("references.txt",
      File ("HEAD=h" ++ NL ++ "master=h" ++ NL ++ "feature=s"));
    ("r", Dir []); ("r.txt", File (meta_data_text "None" "Mon" "root"));
    ("b", Dir []); ("b.txt", File (meta_data_text "r" "Tue" "base"));
    ("h", Dir []); ("h.txt", File (meta_data_text "b" "Wed" "on master"));
    ("s", Dir []); ("s.txt", File (meta_data_text "b" "Thu" "on feature")) ].

Definition id1 : string := "1111111111111111111111111111111111111111".
Definition id2 : string := "2222222222222222222222222222222222222222".
Definition id3 : string := "3333333333333333333333333333333333333333".
Definition id4 : string := "4444444444444444444444444444444444444444".

(** A clean repository on [master] (commit [id1], one tracked file) whose
    working tree also holds the untracked file [notes.txt]; the branch
    [feature] (commit [id2]) tracks a [notes.txt] of its own. *)
Definition notes_repo : repository :=
  mkRepository "/home/user/project"
    [ ("a.txt", File "hello");
      ("notes.txt", File "my notes");
      (".wit", Dir
        [ ("images", Dir
            [ (id1, Dir [("a.txt", File "hello")]);
              ((id1 ++ ".txt")%string, File (meta_data_text "None" "Mon" "first"));
              (id2, Dir [("a.txt", File "hello"); ("notes.txt", File "their notes")]);
              ((id2 ++ ".txt")%string, File (meta_data_text id1 "Tue" "notes"));
              ("references.txt",
                File ("HEAD=" ++ id1 ++ NL ++ "master=" ++ id1 ++ NL
                      ++ "feature=" ++ id2)) ]);
          ("staging_area", Dir [("a.txt", File "hello")]);
          ("activated.txt", File "master") ]) ].

(** Two branches that changed the same line of [a.txt]: the root [id1]
    has [line], HEAD on [master] ([id2]) has [ours], and [feature]
    ([id3]) has [theirs]. *)
Definition conflict_repo : repository :=
  mkRepository "/home/user/project"
    [ ("a.txt", File ("ours" ++ NL));
      (".wit", Dir
        [ ("images", Dir
            [ (id1, Dir [("a.txt", File ("line" ++ NL))]);
              ((id1 ++ ".txt")%string, File (meta_data_text "None" "Mon" "first"));
              (id2, Dir [("a.txt", File ("ours" ++ NL))]);
              ((id2 ++ ".txt")%string, File (meta_data_text id1 "Tue" "ours"));
              (id3, Dir [("a.txt", File ("theirs" ++ NL))]);
              ((id3 ++ ".txt")%string, File (meta_data_text id1 "Wed" "theirs"));
              ("references.txt",
                File ("HEAD=" ++ id2 ++ NL ++ "master=" ++ id2 ++ NL
                      ++ "feature=" ++ id3)) ]);
          ("staging_area", Dir [("a.txt", File ("ours" ++ NL))]);
          ("activated.txt", File "master") ]) ].

Definition notes_checkout : repository * list message * result unit :=
  checkout "feature" notes_repo [].

Definition conflict_merge : repository * list message * result unit :=
  merge 10 "Thu" id4 "feature" conflict_repo [].

(** A repository on [master] (commit [id1]) in which [b.txt] has been
    staged since the last commit. *)
Definition staged_repo : repository :=
  mkRepository "/home/user/project"
    [ ("a.txt", File "hello");
      ("b.txt", File "more");
      (".wit", Dir
        [ ("images", Dir
            [ (id1, Dir [("a.txt", File "hello")]);
              ((id1 ++ ".txt")%string, File (meta_data_text "None" "Mon" "first"));
              ("references.txt",
                File ("HEAD=" ++ id1 ++ NL ++ "master=" ++ id1)) ]);
          ("staging_area", Dir [("a.txt", File "hello"); ("b.txt", File "more")]);
          ("activated.txt", File "master") ]) ].

Definition staged_commit : repository * list message * result (option string) :=
  commit "Fri" id3 "add b" None staged_repo [].




(** ** Further examples *)

(** A store of three versions that changed the second line differently. *)
Definition same_line_store : file_store :=
  fun p => if p =? "base" then Some ("title" ++ NL ++ "line" ++ NL)%string
           else if p =? "theirs" then Some ("title" ++ NL ++ "theirs" ++ NL)%string
           else if p =? "ours" then Some ("title" ++ NL ++ "ours" ++ NL)%string
           else None.

(** An images directory with two unrelated roots: HEAD [a], and [z] on
    the branch [other]. *)
Definition two_roots : entries :=
  [ ("references.txt", File ("HEAD=a" ++ NL ++ "master=a" ++ NL ++ "other=z"));
    ("a", Dir []); ("a.txt", File (meta_data_text "None" "Mon" "root"));
    ("z", Dir []); ("z.txt", File (meta_data_text "None" "Tue" "other root")) ].

Definition two_roots_repo : repository :=
  mkRepository "/home/user/project"
    [ (".wit", Dir
        [ ("images", Dir two_roots);
          ("staging_area", Dir []);
          ("activated.txt", File "master") ]) ].

(** A repository on [master] (commit [id1]) without pending changes. *)
Definition staged_clean_repo : repository :=
  mkRepository "/home/user/project"
    [ ("a.txt", File "hello");
      (".wit", Dir
        [ ("images", Dir
            [ (id1, Dir [("a.txt", File "hello")]);
              ((id1 ++ ".txt")%string, File (meta_data_text "None" "Mon" "first"));
              ("references.txt",
                File ("HEAD=" ++ id1 ++ NL ++ "master=" ++ id1)) ]);
          ("staging_area", Dir [("a.txt", File "hello")]);
          ("activated.txt", File "master") ]) ].

(** A repository right after [init], with one file staged and the branch
    [dev] written to [activated.txt] by hand. *)
Definition new_repo : repository :=
  mkRepository "/home/user/project"
    [ ("a.txt", File "hello");
      (".wit", Dir
        [ ("images", Dir []);
          ("staging_area", Dir [("a.txt", File "hello")]);
          ("activated.txt", File "dev") ]) ].

Definition first_commit : repository * list message * result (option string) :=
  commit "Mon" id1 "first" None new_repo [].

(** A project directory without a repository. *)
Definition plain_project : repository :=
  mkRepository "/home/user/project" [("a.txt", File "hello")].


(** The files of [conflict_repo] that a per-file merge of [a.txt] would
    read and write: the version of the common commit [id1], that of
    [feature] ([id3]), that of HEAD ([id2]), and the staged file. *)
Definition conflict_common_file : string :=
  "/home/user/project/.wit/images/" ++ id1 ++ "/a.txt".
Definition conflict_branch_file : string :=
  "/home/user/project/.wit/images/" ++ id3 ++ "/a.txt".
Definition conflict_head_file : string :=
  "/home/user/project/.wit/images/" ++ id2 ++ "/a.txt".
Definition conflict_staged_file : string :=
  "/home/user/project/.wit/staging_area/a.txt".

Definition conflict_store : file_store :=
  fun p => if p =? conflict_common_file then Some ("line" ++ NL)%string
           else if p =? conflict_branch_file then Some ("theirs" ++ NL)%string
           else if p =? conflict_head_file then Some ("ours" ++ NL)%string
           else if p =? conflict_staged_file then Some ("ours" ++ NL)%string
           else None.

(** * Properties *)

(** ** Three-way merge *)

Example merge_lines_takes_branch_change :
  merge_lines ["a"; "b"] ["a"; "B"; "c"] ["a"; "b"] = Ok ["a"; "B"; "c"].
Proof. reflexivity. Qed.

Example merge_lines_conflict :
  merge_lines ["a"] ["x"] ["y"] = Raise ValueError.
Proof. reflexivity. Qed.

Example splitlines_crlf :
  splitlines ("a" ++ String CR (String LF "") ++ "b" ++ NL ++ NL ++ "c" ++ NL)%string
  = ["a"; "b"; ""; "c"].
Proof. reflexivity. Qed.

Example split_eq_line : split "="%char "HEAD=abc" = ["HEAD"; "abc"].
Proof. reflexivity. Qed.

Lemma py_index_ok {A : Type} (xs : list A) (i : nat) :
  i < length xs -> exists x, nth_error xs i = Some x.
Proof.
  intros H. destruct (nth_error xs i) eqn:E; eauto.
  apply nth_error_None in E. lia.
Qed.

(** The [while] test of the source and the iteration counter agree. *)
Lemma while_condition (i branch_len head_len : nat) :
  (i <? branch_len)%nat || (i <? head_len)%nat
  = negb (Nat.max branch_len head_len - i =? 0)%nat.
Proof.
  destruct (Nat.ltb_spec i branch_len), (Nat.ltb_spec i head_len);
    destruct (Nat.eqb_spec (Nat.max branch_len head_len - i) 0); simpl;
    try reflexivity; lia.
Qed.

Section ThreeWay.
Variables common branch head : list string.

(** One iteration of the loop is the specification's rule at that index,
    as long as the ancestor has a line wherever both sides have one. *)
Lemma merge_iteration_rule (i : nat) (merged : list string) :
  (i < length branch \/ i < length head) ->
  (i < length branch -> i < length head -> i < length common) ->
  merge_iteration common branch head i merged
  = match three_way_rule common branch head i with
    | Some (Take l) => Ok (merged ++ [l])
    | Some Conflict => Raise ValueError
    | None => Raise IndexError
    end.
Proof.
  intros Hsome Hanc. unfold merge_iteration, three_way_rule, py_index.
  destruct (nth_error branch i) as [bl|] eqn:Eb;
    destruct (nth_error head i) as [hl|] eqn:Eh; simpl; try reflexivity.
  assert (Hb : i < length branch) by (apply nth_error_Some; congruence).
  assert (Hh : i < length head) by (apply nth_error_Some; congruence).
  destruct (py_index_ok common i (Hanc Hb Hh)) as [cl Ec]. rewrite Ec. simpl.
  destruct (negb (cl =? hl) && negb (cl =? bl)); [reflexivity|].
  destruct ((cl =? hl) && negb (cl =? bl)); reflexivity.
Qed.

Lemma merge_while_rule :
  forall (n i : nat) (merged : list string),
    (forall j, i <= j < i + n ->
               (j < length branch \/ j < length head)
               /\ (j < length branch -> j < length head -> j < length common)) ->
    merge_while common branch head n i merged
    = let outcomes := map (three_way_rule common branch head) (seq i n) in
      if existsb is_conflict outcomes then Raise ValueError
      else Ok (merged ++ flat_map taken outcomes).
Proof.
  induction n as [|n IH]; intros i merged Hrange; simpl.
  - now rewrite app_nil_r.
  - destruct (Hrange i ltac:(lia)) as [Hsome Hanc].
    rewrite (merge_iteration_rule i merged Hsome Hanc).
    destruct (three_way_rule common branch head i) as [[l|]|] eqn:Er; simpl.
    + rewrite IH by (intros j Hj; apply Hrange; lia). simpl.
      destruct (existsb _ _); [reflexivity|]. now rewrite <- app_assoc.
    + reflexivity.
    + exfalso. unfold three_way_rule in Er.
      destruct (nth_error branch i) eqn:Eb, (nth_error head i) eqn:Eh;
        try discriminate.
      * destruct (negb _ && negb _); [discriminate|].
        destruct (_ && negb _); discriminate.
      * apply nth_error_None in Eb, Eh. lia.
Qed.

Lemma merge_while_app :
  forall (n1 n2 i : nat) (merged : list string),
    merge_while common branch head (n1 + n2) i merged
    = do m <- merge_while common branch head n1 i merged;
      merge_while common branch head n2 (i + n1) m.
Proof.
  induction n1 as [|n1 IH]; intros n2 i merged; simpl.
  - now rewrite Nat.add_0_r.
  - destruct (merge_iteration common branch head i merged) as [m|e]; simpl;
      [|reflexivity].
    rewrite IH. now replace (S i + n1) with (i + S n1) by lia.
Qed.

(** When both sides are longer than the ancestor, the iteration at the
    first index past the ancestor's end reads [common_content[i]] out of
    range. *)
Lemma merge_iteration_past_ancestor (merged : list string) :
  length common < length branch ->
  length common < length head ->
  merge_iteration common branch head (length common) merged = Raise IndexError.
Proof.
  intros Hb Hh. unfold merge_iteration, py_index.
  destruct (py_index_ok branch _ Hb) as [bl ->].
  destruct (py_index_ok head _ Hh) as [hl ->].
  assert (E : nth_error common (length common) = None)
    by (apply nth_error_None; lia).
  now rewrite E.
Qed.
End ThreeWay.

(** X1: Wherever the ancestor has a line at each index that both sides have,
    the loop of [merge_common_changes] computes the specification's
    merge. *)
Lemma merge_lines_three_way (common branch head : list string) :
  (forall i, i < length branch -> i < length head -> i < length common) ->
  merge_lines common branch head = three_way_spec common branch head.
Proof.
  intros Hanc. unfold merge_lines, three_way_spec.
  rewrite merge_while_rule; [reflexivity|].
  intros j Hj. split; [lia|auto].
Qed.

Lemma merge_lines_three_way_example :
  merge_lines ["a"; "b"] ["a"; "B"; "c"] ["a"; "b"]
  = three_way_spec ["a"; "b"] ["a"; "B"; "c"] ["a"; "b"].
Proof. apply merge_lines_three_way. simpl. lia. Defined.

(** C4, at the input where it fails.  With an empty ancestor and the same
    one-line file on both sides, the claim's rule gives an outcome for
    index 0 (a merged line or a conflict), whereas the loop raises
    [IndexError] on [common_content[0]]: the reads of [branch_content[i]]
    and [head_content[i]] are guarded by [try ... except IndexError], the
    read of [common_content[i]] is not. *)
Theorem merge_lines_short_ancestor :
  merge_lines [] ["a"] ["a"] = Raise IndexError
  /\ three_way_spec [] ["a"] ["a"] = Raise ValueError
  /\ merge_iteration [] ["a"] [] 0 [] = Ok ["a"]
  /\ merge_iteration [] [] ["a"] 0 [] = Ok ["a"].
Proof. repeat split; reflexivity. Qed.

(** C10: the per-file three-way merge is partial.  When both edited
    versions are longer than the common ancestor and no index below the
    ancestor's length is in conflict, the loop reaches index
    [length common], where both sides have a line and the ancestor has
    none, and raises [IndexError]; [merge_common_changes] then ends with
    that exception and has written nothing. *)
Theorem merge_common_changes_index_error
    (common branch head : list string) :
  length common < length branch ->
  length common < length head ->
  existsb is_conflict
    (map (three_way_rule common branch head) (seq 0 (length common))) = false ->
  merge_lines common branch head = Raise IndexError
  /\ forall (fs : file_store) (cf bf hf dst ct bt ht : string),
      fs cf = Some ct -> fs bf = Some bt -> fs hf = Some ht ->
      splitlines ct = common -> splitlines bt = branch -> splitlines ht = head ->
      merge_common_changes cf bf hf dst fs = (fs, Raise IndexError).
Proof.
  intros Hb Hh Hclean.
  assert (E : merge_lines common branch head = Raise IndexError).
  { unfold merge_lines.
    replace (Nat.max (length branch) (length head))
      with (length common + S (Nat.max (length branch) (length head)
                                 - S (length common))) by lia.
    rewrite merge_while_app, merge_while_rule.
    - cbv zeta. rewrite Hclean. simpl.
      now rewrite merge_iteration_past_ancestor. 
    - intros j Hj. split; lia. }
  split; [exact E|].
  intros fs cf bf hf dst ct bt ht Hc Hbr Hhd Ec Eb Eh.
  unfold merge_common_changes, open_read.
  rewrite Hc, Hbr, Hhd. simpl. rewrite Ec, Eb, Eh, E. reflexivity.
Qed.

Lemma merge_common_changes_index_error_witness :
  merge_lines ["x"] ["x"; "y"] ["x"; "z"] = Raise IndexError
  /\ merge_common_changes "base" "theirs" "ours" "out" two_longer_store
     = (two_longer_store, Raise IndexError).
Proof.
  destruct (merge_common_changes_index_error ["x"] ["x"; "y"] ["x"; "z"])
    as [E F]; [simpl; lia | simpl; lia | reflexivity |].
  split; [exact E|].
  apply (F two_longer_store "base" "theirs" "ours" "out"
           ("x" ++ NL)%string ("x" ++ NL ++ "y" ++ NL)%string
           ("x" ++ NL ++ "z" ++ NL)%string);
    reflexivity.
Defined.

(** ** The commit graph *)

Example diamond_parents :
  get_parents diamond "d" = Ok ["b"; "c"] /\ get_parents diamond "a" = Ok []
  /\ get_parents diamond "zz" = Raise OSError.
Proof. repeat split; reflexivity. Qed.

Example diamond_history :
  get_all_commits 3 diamond None = Some (Ok ["d"; "b"; "a"; "c"; "a"]).
Proof. reflexivity. Qed.

Example diamond_out_of_depth :
  get_all_commits 2 diamond None = None.
Proof. reflexivity. Qed.

Lemma fbind_ret {A : Type} (r : fueled A) :
  fbind r (fun a => Some (Ok a)) = r.
Proof. destruct r as [[a|e]|]; reflexivity. Qed.

Lemma for_parents_walk (depth : nat) (images : entries) :
  forall (ps : list string) (commits : list string),
    (fix for_parents (ps : list string) (commits : list string)
       : fueled (list string) :=
       match ps with
       | [] => Some (Ok commits)
       | parent :: ps' =>
           fbind (get_all_commits_util depth images parent commits)
             (for_parents ps')
       end) ps commits
    = walk_parents depth images ps commits.
Proof.
  induction ps as [|p ps IH]; intros commits; [reflexivity|].
  cbn [walk_parents].
  destruct (get_all_commits_util depth images p commits) as [[a|e]|];
    cbn [fbind]; auto.
Qed.

(** Both branches of [if len(parents) > 1] walk the parents in order. *)
Lemma get_all_commits_util_unfold (depth : nat) (images : entries)
    (c : string) (commits : list string) :
  get_all_commits_util (S depth) images c commits
  = match get_parents images c with
    | Raise e => Some (Raise e)
    | Ok parents => walk_parents depth images parents (commits ++ [c])
    end.
Proof.
  cbn [get_all_commits_util].
  destruct (get_parents images c) as [[|p0 [|p1 ps]]|e]; try reflexivity.
  - cbn. now rewrite fbind_ret.
  - exact (for_parents_walk depth images (p0 :: p1 :: ps) (commits ++ [c])).
Qed.

Section Graph.
Variable images : entries.

(** A walk that returns has followed the specification's order. *)
Lemma get_all_commits_util_history :
  forall (depth : nat) (c : string) (commits l : list string),
    get_all_commits_util depth images c commits = Some (Ok l) ->
    exists h, history images c h /\ l = commits ++ h.
Proof.
  induction depth as [|depth IH]; intros c commits l H; [discriminate|].
  rewrite get_all_commits_util_unfold in H.
  destruct (get_parents images c) as [parents|e] eqn:Ep; [|discriminate].
  assert (W : forall ps acc out,
             walk_parents depth images ps acc = Some (Ok out) ->
             exists hs, Forall2 (history images) ps hs
                        /\ out = acc ++ concat hs).
  { induction ps as [|p ps IHps]; intros acc out Hw; simpl in Hw.
    - injection Hw as <-. exists []. split; [constructor|].
      simpl. now rewrite app_nil_r.
    - destruct (get_all_commits_util depth images p acc) as [[m|e]|] eqn:Eu;
        try discriminate.
      simpl in Hw. destruct (IH _ _ _ Eu) as (h & Hh & ->).
      destruct (IHps _ _ Hw) as (hs & Hhs & ->).
      exists (h :: hs). split; [now constructor|].
      simpl. now rewrite app_assoc. }
  destruct (W _ _ _ H) as (hs & Hhs & ->).
  exists (c :: concat hs). split; [now econstructor; eauto|].
  now rewrite <- app_assoc.
Qed.

Variable rank : string -> nat.
Variable ids : list string.
Hypothesis Hgraph : acyclic_graph rank images ids = true.

Lemma acyclic_graph_parents (c : string) :
  In c ids ->
  exists parents,
    get_parents images c = Ok parents
    /\ forall p, In p parents -> rank p < rank c /\ In p ids.
Proof.
  intros Hc. unfold acyclic_graph in Hgraph.
  rewrite forallb_forall in Hgraph. specialize (Hgraph c Hc).
  destruct (get_parents images c) as [parents|e]; [|discriminate].
  exists parents. split; [reflexivity|]. intros p Hp.
  rewrite forallb_forall in Hgraph. specialize (Hgraph p Hp).
  apply andb_true_iff in Hgraph as [Hr Hi]. split.
  - now apply Nat.ltb_lt.
  - unfold str_in in Hi. apply existsb_exists in Hi as (x & Hx & Heq).
    apply String.eqb_eq in Heq. now subst.
Qed.

(** Any depth above the rank of a commit is enough for its walk, and the
    walk appends one and the same history to whatever list it is given. *)
Lemma get_all_commits_util_total :
  forall (n : nat) (c : string),
    In c ids -> rank c < n ->
    exists h,
      history images c h
      /\ forall depth commits,
          n <= depth ->
          get_all_commits_util depth images c commits = Some (Ok (commits ++ h)).
Proof.
  induction n as [|n IH]; intros c Hc Hr; [lia|].
  destruct (acyclic_graph_parents c Hc) as (parents & Ep & Hps).
  assert (W : forall ps,
             (forall p, In p ps -> rank p < rank c /\ In p ids) ->
             exists hs,
               Forall2 (history images) ps hs
               /\ forall depth acc,
                   n <= depth ->
                   walk_parents depth images ps acc
                   = Some (Ok (acc ++ concat hs))).
  { induction ps as [|p ps IHps]; intros Hin.
    - exists []. split; [constructor|]. intros. simpl. now rewrite app_nil_r.
    - destruct (Hin p (or_introl eq_refl)) as [Hrp Hip].
      destruct (IH p Hip ltac:(lia)) as (h & Hh & Hrun).
      destruct (IHps (fun q Hq => Hin q (or_intror Hq))) as (hs & Hhs & Hwalk).
      exists (h :: hs). split; [now constructor|].
      intros depth acc Hd. simpl. rewrite (Hrun depth acc Hd). simpl.
      rewrite (Hwalk depth _ Hd). now rewrite app_assoc. }
  destruct (W parents Hps) as (hs & Hhs & Hwalk).
  exists (c :: concat hs). split; [now econstructor; eauto|].
  intros [|depth] commits Hd; [lia|].
  rewrite get_all_commits_util_unfold, Ep, (Hwalk depth) by lia.
  now rewrite <- app_assoc.
Qed.
End Graph.

Lemma count_occ_concat (a : string) (hs : list (list string)) :
  count_occ string_dec (concat hs) a
  = list_sum (map (fun h => count_occ string_dec h a) hs).
Proof.
  induction hs as [|h hs IH]; simpl; [reflexivity|].
  now rewrite count_occ_app, IH.
Qed.

(** C6: in an acyclic commit graph, the history of a commit is the commit
    itself followed by the histories of its parents, each in full and in
    the order of the parent list (both of them for a two-parent commit);
    nothing is dropped as already visited, so a commit occurs once for
    itself plus as often as it occurs in the parents' histories together. *)
Theorem collect_history_order (rank : string -> nat) (images : entries)
    (ids : list string) :
  acyclic_graph rank images ids = true ->
  forall c, In c ids ->
    exists (parents : list string) (hs : list (list string)),
      get_parents images c = Ok parents
      /\ Forall2 (fun p h =>
                    forall depth, rank p < depth ->
                      get_all_commits depth images (Some p) = Some (Ok h))
           parents hs
      /\ (forall depth, rank c < depth ->
            get_all_commits depth images (Some c) = Some (Ok (c :: concat hs)))
      /\ history images c (c :: concat hs)
      /\ forall a,
          count_occ string_dec (c :: concat hs) a
          = (if string_dec c a then 1 else 0)
            + list_sum (map (fun h => count_occ string_dec h a) hs).
Proof.
  intros Hgraph c Hc.
  destruct (acyclic_graph_parents images rank ids Hgraph c Hc)
    as (parents & Ep & Hps).
  pose (R := fun p h =>
               history images p h
               /\ forall depth acc, rank p < depth ->
                    get_all_commits_util depth images p acc
                    = Some (Ok (acc ++ h))).
  assert (W : forall ps,
             (forall p, In p ps -> rank p < rank c /\ In p ids) ->
             exists hs, Forall2 R ps hs).
  { induction ps as [|p ps IH]; intros Hin.
    - exists []. constructor.
    - destruct (Hin p (or_introl eq_refl)) as [_ Hip].
      destruct (get_all_commits_util_total images rank ids Hgraph
                  (S (rank p)) p Hip ltac:(lia)) as (h & Hh & Hrun).
      destruct (IH (fun q Hq => Hin q (or_intror Hq))) as (hs & Hhs).
      exists (h :: hs). constructor; [|exact Hhs].
      split; [exact Hh|]. intros depth acc Hd. apply Hrun. lia. }
  destruct (W parents Hps) as (hs & Hhs).
  exists parents, hs. split; [exact Ep|]. split; [|split; [|split]].
  - clear -Hhs. induction Hhs as [|p x ps xs [_ Hp] _ IH]; constructor; auto.
    intros depth Hd. exact (Hp depth [] Hd).
  - intros [|depth] Hd; [lia|]. unfold get_all_commits.
    rewrite get_all_commits_util_unfold, Ep.
    assert (Hlow : forall p, In p parents -> rank p < depth)
      by (intros p Hp; destruct (Hps p Hp); lia).
    assert (Hw : forall acc, walk_parents depth images parents acc
                             = Some (Ok (acc ++ concat hs))).
    { clear -Hhs Hlow. induction Hhs as [|p x ps xs [_ Hp] _ IH]; intros acc.
      - simpl. now rewrite app_nil_r.
      - simpl. rewrite (Hp depth acc (Hlow p (or_introl eq_refl))). simpl.
        rewrite IH by (intros q Hq; apply Hlow; now right).
        now rewrite app_assoc. }
    now rewrite Hw.
  - econstructor; [exact Ep|].
    clear -Hhs. induction Hhs as [|p x ps xs [Hp _] _ IH]; constructor; auto.
  - intros a. cbn [count_occ]. rewrite count_occ_concat.
    destruct (string_dec c a); reflexivity.
Qed.

Lemma collect_history_order_witness :
  acyclic_graph diamond_rank diamond diamond_ids = true
  /\ exists (parents : list string) (hs : list (list string)),
      get_parents diamond "d" = Ok parents
      /\ (forall depth, diamond_rank "d" < depth ->
            get_all_commits depth diamond (Some "d")
            = Some (Ok ("d" :: concat hs)))
      /\ count_occ string_dec ("d" :: concat hs) "a"
         = 0 + list_sum (map (fun h => count_occ string_dec h "a") hs).
Proof.
  split; [reflexivity|].
  destruct (collect_history_order diamond_rank diamond diamond_ids eq_refl
              "d" (or_introl eq_refl))
    as (parents & hs & Hp & _ & Hrun & _ & Hcount).
  exists parents, hs. split; [exact Hp|]. split; [exact Hrun|].
  exact (Hcount "a").
Defined.

(** In the diamond the shared root is listed once per path that reaches
    it. *)
Example diamond_root_twice :
  get_all_commits 3 diamond (Some "d") = Some (Ok ["d"; "b"; "a"; "c"; "a"])
  /\ count_occ string_dec ["d"; "b"; "a"; "c"; "a"] "a" = 2.
Proof. split; reflexivity. Qed.

(** C7: on a finite acyclic commit graph the history walk and the search
    for a common commit return: there is a recursion depth from which on
    [get_all_commits] yields the history of the source and of HEAD, and
    the scan of [wit.merge] yields its answer. *)
Theorem ancestor_search_terminates (rank : string -> nat) (images : entries)
    (ids : list string) (head_id source_id : string) :
  acyclic_graph rank images ids = true ->
  get_head_commit_id images = Ok head_id ->
  In head_id ids ->
  In source_id ids ->
  exists (bound : nat) (src_commits head_commits : list string),
    forall depth, bound <= depth ->
      get_all_commits depth images (Some source_id) = Some (Ok src_commits)
      /\ get_all_commits depth images None = Some (Ok head_commits)
      /\ merge_base depth images source_id
         = Some (Ok (src_commits, head_commits,
                     scan_common src_commits head_commits)).
Proof.
  intros Hgraph Hhead Hh Hs.
  destruct (get_all_commits_util_total images rank ids Hgraph
              (S (rank source_id)) source_id Hs ltac:(lia)) as (hs & _ & Hrs).
  destruct (get_all_commits_util_total images rank ids Hgraph
              (S (rank head_id)) head_id Hh ltac:(lia)) as (hh & _ & Hrh).
  exists (S (Nat.max (rank source_id) (rank head_id))), hs, hh.
  intros depth Hd.
  assert (Es : get_all_commits depth images (Some source_id) = Some (Ok hs))
    by (apply (Hrs depth []); lia).
  assert (Eh : get_all_commits depth images None = Some (Ok hh))
    by (unfold get_all_commits; rewrite Hhead; apply (Hrh depth []); lia).
  repeat split; auto.
  unfold merge_base. rewrite Es, Eh. reflexivity.
Qed.

Lemma ancestor_search_terminates_witness :
  exists (bound : nat) (src_commits head_commits : list string),
    forall depth, bound <= depth ->
      get_all_commits depth diamond (Some "c") = Some (Ok src_commits)
      /\ get_all_commits depth diamond None = Some (Ok head_commits)
      /\ merge_base depth diamond "c"
         = Some (Ok (src_commits, head_commits,
                     scan_common src_commits head_commits)).
Proof.
  apply (ancestor_search_terminates diamond_rank diamond diamond_ids "d" "c").
  - reflexivity.
  - reflexivity.
  - simpl. auto.
  - simpl. auto.
Defined.

Example diamond_merge_base :
  merge_base 3 diamond "c"
  = Some (Ok (["c"; "a"], ["d"; "b"; "a"; "c"; "a"], Some "a")).
Proof. reflexivity. Qed.

(** ** The common commit of a merge *)

Lemma find_app_last (P : string -> bool) (l : list string) (x : string) :
  find P (l ++ [x])
  = match find P l with
    | Some y => Some y
    | None => if P x then Some x else None
    end.
Proof.
  induction l as [|y l IH]; simpl; [reflexivity|].
  destruct (P y); [reflexivity | exact IH].
Qed.

(** The loop of [wit.merge] has no [break]: it keeps the last match of the
    source history, which is the first match of the reversed history. *)
Lemma scan_common_last (src_commits head_commits : list string) :
  scan_common src_commits head_commits
  = first_common (rev src_commits) head_commits.
Proof.
  unfold scan_common, first_common.
  set (P := fun c => str_in c head_commits).
  assert (G : forall l acc,
             fold_left (fun common c => if P c then Some c else common) l acc
             = match find P (rev l) with Some y => Some y | None => acc end).
  { induction l as [|x l IH]; intros acc; simpl; [reflexivity|].
    rewrite IH, find_app_last. destruct (find P (rev l)); [reflexivity|].
    destruct (P x); reflexivity. }
  change (fold_left (fun common c => if P c then Some c else common)
            src_commits None = find P (rev src_commits)).
  rewrite (G src_commits None). now destruct (find P (rev src_commits)).
Qed.

(** C1, at an input where it fails.  In the fork, the source history is
    [s; b; r] and the head history is [h; b; r]: the first identifier of
    the source history that occurs in the head history is [b], and the
    scan of [wit.merge] returns the root [r]. *)
Theorem merge_base_not_first_match :
  merge_base 3 fork "s" = Some (Ok (["s"; "b"; "r"], ["h"; "b"; "r"], Some "r"))
  /\ first_common ["s"; "b"; "r"] ["h"; "b"; "r"] = Some "b"
  /\ scan_common ["s"; "b"; "r"] ["h"; "b"; "r"] = Some "r".
Proof. repeat split; reflexivity. Qed.

(** ** Checkout and untracked files *)


(** C2, at an input where it fails.  The repository is clean and
    [notes.txt] is untracked: [status] lists it, as the path
    [os.path.join(home_dir, "notes.txt")].  [execute_checkout] tests the
    bare name [item] against that list, so the name is never found in it
    and the checkout of [feature] overwrites the untracked file with the
    snapshot's. *)
Theorem checkout_overwrites_untracked :
  returned (status true notes_repo [])
  = Ok (Some ([], [], ["/home/user/project/.wit";
                       "/home/user/project/notes.txt"]))
  /\ read_at ["notes.txt"] notes_repo = Ok "my notes"
  /\ node_at (STAGING_AREA ++ ["notes.txt"]) notes_repo = None
  /\ str_in "notes.txt" ["/home/user/project/.wit";
                         "/home/user/project/notes.txt"] = false
  /\ returned notes_checkout = Ok tt
  /\ printed notes_checkout = [Line "Checkout proccess completed."]
  /\ read_at ["notes.txt"] (final notes_checkout) = Ok "their notes".
Proof. vm_compute. repeat split; reflexivity. Qed.

(** The copy leaves a file alone only when its bare name is in [ignore]. *)
Example execute_checkout_ignores_bare_name :
  fst (execute_checkout (Dir [("notes.txt", File "their notes")])
         (Some (Dir [("notes.txt", File "my notes")])) ["notes.txt"])
  = Some (Dir [("notes.txt", File "my notes")])
  /\ fst (execute_checkout (Dir [("notes.txt", File "their notes")])
            (Some (Dir [("notes.txt", File "my notes")])) ["/home/notes.txt"])
     = Some (Dir [("notes.txt", File "their notes")]).
Proof. split; reflexivity. Qed.

(** ** Merge and conflicts *)

(** A line index where the ancestor and the two sides are pairwise
    distinct makes the per-file merge fail, whatever comes before it. *)
Lemma merge_while_conflict (common branch head : list string)
    (i : nat) (c b h : string) :
  nth_error common i = Some c ->
  nth_error branch i = Some b ->
  nth_error head i = Some h ->
  c <> b -> c <> h ->
  forall n start merged,
    start <= i < start + n ->
    merge_while common branch head n start merged = Raise ValueError.
Proof.
  intros Hc Hb Hh Hcb Hch.
  induction n as [|n IH]; intros start merged Hr; [lia|].
  cbn [merge_while].
  destruct (Nat.eq_dec start i) as [->|Hne].
  - unfold merge_iteration, py_index. rewrite Hb, Hh, Hc. simpl.
    apply String.eqb_neq in Hcb, Hch. now rewrite Hcb, Hch.
  - destruct (merge_iteration common branch head start merged) as [m|e] eqn:E.
    + simpl. apply IH. lia.
    + simpl. f_equal.
      assert (Hlt : start < i) by lia.
      unfold merge_iteration, py_index in E.
      destruct (py_index_ok branch start) as [b' Eb];
        [apply Nat.lt_trans with i; [lia | apply nth_error_Some; congruence]|].
      destruct (py_index_ok head start) as [h' Eh];
        [apply Nat.lt_trans with i; [lia | apply nth_error_Some; congruence]|].
      destruct (py_index_ok common start) as [c' Ec];
        [apply Nat.lt_trans with i; [lia | apply nth_error_Some; congruence]|].
      rewrite Eb, Eh, Ec in E. simpl in E.
      destruct (negb (c' =? h') && negb (c' =? b')); [congruence|].
      destruct ((c' =? h') && negb (c' =? b')); discriminate.
Qed.

(** X2: a line that the ancestor, the branch version and the head
    version all have, pairwise different, makes [merge_common_changes]
    raise [ValueError]; the destination is not written. *)
Lemma merge_common_changes_conflict (fs : file_store)
    (cf bf hf dst ct bt ht : string) (i : nat) (c b h : string) :
  fs cf = Some ct -> fs bf = Some bt -> fs hf = Some ht ->
  nth_error (splitlines ct) i = Some c ->
  nth_error (splitlines bt) i = Some b ->
  nth_error (splitlines ht) i = Some h ->
  c <> b -> c <> h -> b <> h ->
  merge_common_changes cf bf hf dst fs = (fs, Raise ValueError).
Proof.
  intros Hcf Hbf Hhf Hc Hb Hh Hcb Hch _.
  unfold merge_common_changes, open_read. rewrite Hcf, Hbf, Hhf. simpl.
  unfold merge_lines.
  rewrite (merge_while_conflict _ _ _ i c b h Hc Hb Hh Hcb Hch); [reflexivity|].
  assert (i < length (splitlines bt)) by (apply nth_error_Some; congruence).
  lia.
Qed.

(** C3: the per-file three-way path, [merge_common_changes], on a file
    whose ancestor, branch and head versions have at one index lines that
    are pairwise distinct.  The call fails with [ValueError], the
    conflict of the specification, before anything is written: every
    path of the file store reads as before the call, the files of the
    staging area and of the commits among them, so no file is modified
    and none is created. *)
Theorem three_way_conflict_aborts (fs : file_store)
    (cf bf hf dst ct bt ht : string) (i : nat) (c b h : string) :
  fs cf = Some ct -> fs bf = Some bt -> fs hf = Some ht ->
  nth_error (splitlines ct) i = Some c ->
  nth_error (splitlines bt) i = Some b ->
  nth_error (splitlines ht) i = Some h ->
  c <> b -> c <> h -> b <> h ->
  snd (merge_common_changes cf bf hf dst fs) = Raise ValueError
  /\ forall path, fst (merge_common_changes cf bf hf dst fs) path = fs path.
Proof.
  intros Hcf Hbf Hhf Hc Hb Hh Hcb Hch _.
  assert (Hlines : merge_lines (splitlines ct) (splitlines bt) (splitlines ht)
                   = Raise ValueError).
  { unfold merge_lines.
    apply (merge_while_conflict _ _ _ i c b h Hc Hb Hh Hcb Hch).
    assert (i < length (splitlines bt)) by (apply nth_error_Some; congruence).
    lia. }
  unfold merge_common_changes, open_read. rewrite Hcf, Hbf, Hhf.
  cbn [bind]. rewrite Hlines. cbn [fst snd]. auto.
Qed.

Lemma three_way_conflict_aborts_witness :
  snd (merge_common_changes conflict_common_file conflict_branch_file
         conflict_head_file conflict_staged_file conflict_store)
  = Raise ValueError
  /\ forall path,
       fst (merge_common_changes conflict_common_file conflict_branch_file
              conflict_head_file conflict_staged_file conflict_store) path
       = conflict_store path.
Proof.
  apply (three_way_conflict_aborts conflict_store
           conflict_common_file conflict_branch_file conflict_head_file
           conflict_staged_file
           ("line" ++ NL)%string ("theirs" ++ NL)%string ("ours" ++ NL)%string
           0 "line" "theirs" "ours");
    try reflexivity; discriminate.
Defined.

(** [wit.merge] itself never calls [merge_common_changes].  [master] and
    [feature] changed the one line of [a.txt] to different texts: the
    merge copies the [feature] version over the staged file and commits,
    with both commits as parents. *)
Example merge_commits_despite_conflict :
  merge_lines (splitlines ("line" ++ NL)) (splitlines ("theirs" ++ NL))
    (splitlines ("ours" ++ NL)) = Raise ValueError
  /\ node_at STAGING_AREA conflict_repo
     = Some (Dir [("a.txt", File ("ours" ++ NL))])
  /\ lookup id4 (images_of conflict_repo) = None
  /\ returned conflict_merge = Ok tt
  /\ node_at STAGING_AREA (final conflict_merge)
     = Some (Dir [("a.txt", File ("theirs" ++ NL))])
  /\ lookup id4 (images_of (final conflict_merge))
     = Some (Dir [("a.txt", File ("theirs" ++ NL))])
  /\ get_parents (images_of (final conflict_merge)) id4 = Ok [id2; id3]
  /\ get_head_commit_id (images_of (final conflict_merge)) = Ok id4.
Proof. vm_compute. repeat split; reflexivity. Qed.

(** ** Lines of a text *)

Lemma splitlines_LF (rest : string) :
  splitlines (String LF rest) = "" :: splitlines rest.
Proof. destruct rest; reflexivity. Qed.

Lemma splitlines_nonempty (c : ascii) (s : string) :
  exists w ws, splitlines (String c s) = w :: ws.
Proof.
  cbn [splitlines]. destruct (is_linebreak c); [eauto|].
  destruct (splitlines s); eauto.
Qed.

Lemma opens_blank_line_cons (c c' : ascii) (s : string) :
  opens_blank_line (String c (String c' s)) = opens_blank_line (String c' s).
Proof. reflexivity. Qed.

Lemma splitlines_cons (c : ascii) (s : string) :
  splitlines (String c s)
  = if is_linebreak c then
      "" :: match s with
            | String c' s'' =>
                if Ascii.eqb c CR && Ascii.eqb c' LF then splitlines s''
                else splitlines s
            | EmptyString => []
            end
    else match splitlines s with
         | [] => [String c ""]
         | w :: ws => String c w :: ws
         end.
Proof. reflexivity. Qed.

(** Appending a line feed and more text keeps every line of the text in
    place; the only thing it may add before the lines of the appended
    text is one empty line. *)
Lemma splitlines_app_LF (rest : string) :
  forall (n : nat) (text : string),
    String.length text <= n ->
    splitlines (text ++ String LF rest)
    = splitlines text
      ++ (if opens_blank_line text then [""] else [])
      ++ splitlines rest.
Proof.
  induction n as [|n IH]; intros text Hlen.
  - destruct text; [|simpl in Hlen; lia]. apply splitlines_LF.
  - destruct text as [|c s']; [apply splitlines_LF|].
    simpl in Hlen.
    change (String c s' ++ String LF rest)%string
      with (String c (s' ++ String LF rest)).
    rewrite (splitlines_cons c (s' ++ String LF rest)), (splitlines_cons c s').
    destruct (is_linebreak c) eqn:Ec.
    + destruct s' as [|c' s''].
      * change ("" ++ String LF rest)%string with (String LF rest).
        cbn [opens_blank_line]. rewrite Ec.
        change (Ascii.eqb LF LF) with true. rewrite andb_true_r.
        destruct (Ascii.eqb c CR); cbn [andb negb app].
        -- reflexivity.
        -- now rewrite splitlines_LF.
      * rewrite opens_blank_line_cons.
        change (String c' s'' ++ String LF rest)%string
          with (String c' (s'' ++ String LF rest)).
        cbv beta iota.
        destruct (Ascii.eqb c CR && Ascii.eqb c' LF) eqn:Ecrlf.
        -- simpl in Hlen. rewrite (IH s'') by lia. cbn [app].
           destruct s'' as [|c'' s3]; [|reflexivity].
           apply andb_true_iff in Ecrlf as [_ E']. apply Ascii.eqb_eq in E'.
           subst c'. reflexivity.
        -- change (String c' (s'' ++ String LF rest))
             with (String c' s'' ++ String LF rest)%string.
           rewrite (IH (String c' s'')) by lia. reflexivity.
    + rewrite (IH s') by lia.
      destruct s' as [|c' s''].
      * cbn [opens_blank_line splitlines app]. rewrite Ec. reflexivity.
      * destruct (splitlines_nonempty c' s'') as (w & ws & ->).
        rewrite opens_blank_line_cons. reflexivity.
Qed.

Lemma splitlines_single (s : string) :
  no_linebreak s = true -> s <> "" -> splitlines s = [s].
Proof.
  induction s as [|c s IH]; intros Hclean Hne; [congruence|].
  cbn [no_linebreak] in Hclean. apply andb_true_iff in Hclean as [Hc Hs].
  apply negb_true_iff in Hc. rewrite splitlines_cons, Hc.
  destruct s as [|c' s'].
  - reflexivity.
  - now rewrite IH.
Qed.

Lemma no_linebreak_app (s t : string) :
  no_linebreak (s ++ t) = no_linebreak s && no_linebreak t.
Proof.
  induction s as [|c s IH]; simpl; [reflexivity|].
  now rewrite IH, andb_assoc.
Qed.

(** No line of a text contains a line boundary. *)
Lemma splitlines_clean :
  forall (n : nat) (text : string),
    String.length text <= n ->
    forallb no_linebreak (splitlines text) = true.
Proof.
  induction n as [|n IH]; intros text Hlen.
  - destruct text; [reflexivity | simpl in Hlen; lia].
  - destruct text as [|c s]; [reflexivity|]. simpl in Hlen.
    rewrite splitlines_cons. destruct (is_linebreak c) eqn:Ec.
    + cbn [forallb no_linebreak andb]. destruct s as [|c' s']; [reflexivity|].
      destruct (Ascii.eqb c CR && Ascii.eqb c' LF).
      * apply IH. simpl in Hlen. lia.
      * apply IH. simpl in *. lia.
    + specialize (IH s ltac:(lia)).
      destruct (splitlines s) as [|w ws].
      * cbn [forallb no_linebreak]. now rewrite Ec.
      * cbn [forallb no_linebreak] in *. rewrite Ec. exact IH.
Qed.

(** Nor does a field of a clean line. *)
Lemma split_clean (sep : ascii) (s : string) :
  no_linebreak s = true -> forallb no_linebreak (split sep s) = true.
Proof.
  induction s as [|c s IH]; intros Hclean; [reflexivity|].
  cbn [no_linebreak] in Hclean. apply andb_true_iff in Hclean as [Hc Hs].
  specialize (IH Hs). cbn [split].
  destruct (Ascii.eqb c sep); [exact IH|].
  destruct (split sep s) as [|w ws].
  - cbn [forallb no_linebreak]. now rewrite Hc.
  - cbn [forallb no_linebreak] in *. now rewrite Hc.
Qed.

Lemma forallb_py_index {A : Type} (p : A -> bool) (xs : list A) (i : nat) (x : A) :
  forallb p xs = true -> py_index xs i = Ok x -> p x = true.
Proof.
  intros Hall Hx. unfold py_index in Hx.
  destruct (nth_error xs i) as [y|] eqn:E; [|discriminate].
  injection Hx as <-. rewrite forallb_forall in Hall.
  apply Hall. eapply nth_error_In; eassumption.
Qed.

(** The identifier read from the first line of a reference text is
    clean. *)
Lemma head_field_clean (text line0 head : string) :
  py_index (splitlines text) 0 = Ok line0 ->
  py_index (split "="%char line0) 1 = Ok head ->
  no_linebreak head = true.
Proof.
  intros H0 H1.
  eapply forallb_py_index; [|exact H1]. apply split_clean.
  eapply forallb_py_index; [|exact H0].
  apply (splitlines_clean (String.length text)). lia.
Qed.

Lemma split_no_sep (sep : ascii) (s : string) :
  all_chars (fun c => negb (Ascii.eqb c sep)) s = true -> split sep s = [s].
Proof.
  induction s as [|c s IH]; simpl; [reflexivity|].
  intros H. apply andb_true_iff in H as [Hc Hs]. apply negb_true_iff in Hc.
  now rewrite Hc, (IH Hs).
Qed.

(** ** Directory entries *)

Lemma lookup_set_entry_same (name : string) (x : node) (es : entries) :
  lookup name (set_entry name x es) = Some x.
Proof.
  induction es as [|[n y] es IH]; simpl.
  - now rewrite String.eqb_refl.
  - destruct (n =? name) eqn:E; simpl; now rewrite E.
Qed.

Lemma lookup_set_entry_other (name other : string) (x : node) (es : entries) :
  other <> name ->
  lookup other (set_entry name x es) = lookup other es.
Proof.
  intros Hne. induction es as [|[n y] es IH]; simpl.
  - destruct (String.eqb_spec name other); [congruence | reflexivity].
  - destruct (String.eqb_spec n name) as [->|Hn]; simpl.
    + destruct (String.eqb_spec name other); [congruence | reflexivity].
    + destruct (n =? other); [reflexivity | exact IH].
Qed.

(** What [put_images] does to an initialised repository: the images
    directory is replaced, everything else stays. *)
Lemma put_images_spec (es old : entries) (r : repository) (out : list message) :
  node_at IMAGES r = Some (Dir old) ->
  exists r',
    put_images es r out = (r', out, Ok tt)
    /\ node_at IMAGES r' = Some (Dir es)
    /\ images_of r' = es
    /\ home_dir r' = home_dir r
    /\ node_at STAGING_AREA r' = node_at STAGING_AREA r
    /\ get_activated_branch r' = get_activated_branch r
    /\ forall name, name <> ".wit" -> lookup name (home r') = lookup name (home r).
Proof.
  intros Himg. unfold put_images, put_node. rewrite Himg.
  unfold node_at, IMAGES in Himg. cbn [get_node] in Himg.
  destruct (lookup ".wit" (home r)) as [[|wit]|] eqn:Ew; try discriminate.
  destruct (lookup "images" wit) as [img|] eqn:Ei; try discriminate.
  unfold IMAGES. cbn [set_node]. rewrite Ew.
  eexists. split; [reflexivity|].
  unfold images_of, dir_at, get_activated_branch, dir_at, node_at,
    IMAGES, STAGING_AREA, WIT.
  cbn [get_node home home_dir].
  rewrite !lookup_set_entry_same.
  rewrite lookup_set_entry_other by discriminate.
  unfold read_file. rewrite lookup_set_entry_other by discriminate.
  rewrite Ew. repeat split; try reflexivity.
  intros name Hne. now apply lookup_set_entry_other.
Qed.

(** ** Branch creation *)

Lemma images_of_at (r : repository) (es : entries) :
  node_at IMAGES r = Some (Dir es) -> images_of r = es.
Proof. intros H. unfold images_of, dir_at. now rewrite H. Qed.

Lemma read_file_isfile (es : entries) (name text : string) :
  read_file es name = Ok text -> isfile es name = true.
Proof.
  unfold read_file, isfile. destruct (lookup name es) as [[|]|]; congruence.
Qed.

Lemma for_each_app {A S : Type} (body : S -> A -> result S)
    (xs ys : list A) (acc : S) :
  for_each body (xs ++ ys) acc
  = do a <- for_each body xs acc; for_each body ys a.
Proof.
  revert acc. induction xs as [|x xs IH]; intros acc; simpl; [reflexivity|].
  destruct (body acc x); simpl; auto.
Qed.

Lemma split_app_sep (sep : ascii) (s rest : string) :
  all_chars (fun c => negb (Ascii.eqb c sep)) s = true ->
  split sep (s ++ String sep rest) = s :: split sep rest.
Proof.
  induction s as [|c s IH]; simpl.
  - intros _. now rewrite Ascii.eqb_refl.
  - intros H. apply andb_true_iff in H as [Hc Hs]. apply negb_true_iff in Hc.
    now rewrite Hc, (IH Hs).
Qed.

(** No field of a split contains the separator. *)
Lemma split_fields_clean (sep : ascii) (s : string) :
  forallb (all_chars (fun c => negb (Ascii.eqb c sep))) (split sep s) = true.
Proof.
  induction s as [|c s IH]; [reflexivity|]. cbn [split].
  destruct (Ascii.eqb c sep) eqn:E; [exact IH|].
  destruct (split sep s) as [|w ws].
  - cbn. now rewrite E.
  - cbn [forallb all_chars] in *. now rewrite E.
Qed.

(** Reading the branches back after [branch] has appended [name=head]
    gives the old branches with [name] bound to [head]. *)
Lemma get_branches_after_append (old : entries)
    (text name head line0 : string) (d : dict) :
  read_file old "references.txt" = Ok text ->
  py_index (splitlines text) 0 = Ok line0 ->
  py_index (split "="%char line0) 1 = Ok head ->
  opens_blank_line text = false ->
  no_linebreak name = true ->
  no_equals name = true ->
  get_branches old = Ok d ->
  get_branches
    (write_file "references.txt" (text ++ NL ++ name ++ "=" ++ head) old)
  = Ok (dict_set name head d).
Proof.
  intros Hread H0 Hhead Hend Hname Heq Hd.
  unfold get_branches in *. rewrite Hread in Hd. cbn [bind] in Hd.
  unfold read_file, write_file. rewrite lookup_set_entry_same. cbn [bind].
  change (text ++ NL ++ name ++ "=" ++ head)%string
    with (text ++ String LF (name ++ "=" ++ head))%string.
  rewrite (splitlines_app_LF _ (String.length text)) by lia.
  rewrite Hend. cbn [app].
  rewrite (splitlines_single (name ++ "=" ++ head)).
  2:{ rewrite no_linebreak_app, Hname. cbn [andb no_linebreak String.append].
      change (is_linebreak "="%char) with false. cbn [negb andb].
      exact (head_field_clean text line0 head H0 Hhead). }
  2:{ destruct name; discriminate. }
  unfold py_index in H0.
  destruct (splitlines text) as [|l0 ls]; [discriminate|]. cbn [tl app] in *.
  unfold read_bindings in *. rewrite for_each_app, Hd. cbn [bind for_each].
  unfold unpack_binding.
  change (name ++ "=" ++ head)%string with (name ++ String "=" head)%string.
  rewrite (split_app_sep "="%char name head Heq).
  rewrite split_no_sep; [reflexivity|].
  pose proof (split_fields_clean "="%char line0) as Hclean.
  exact (forallb_py_index _ _ _ _ Hclean Hhead).
Qed.

(** C9: [branch name] on a repository whose reference file has a HEAD
    line.  When a line of the file already has [name] before its [=], the
    command reports that the name is in use and changes nothing.
    Otherwise it appends a line feed and [name=head] to the file, where
    [head] is the HEAD commit: no other entry of the images directory
    changes, every line of the file stays where it was, and when the file
    does not end in a line boundary and the name holds none, the lines of
    the file are the old ones followed by the one line [name=head]; if
    moreover the name holds no [=], [get_branches] then reads the old
    branches with [name] bound to [head].  So for a name without [=] and
    without line boundary the command refuses a name that is present and
    binds one that is not. *)
Theorem branch_creates_or_refuses (name : string) (r : repository)
    (out : list message) (old : entries) (text head : string) :
  node_at IMAGES r = Some (Dir old) ->
  read_file old "references.txt" = Ok text ->
  get_head_commit_id old = Ok head ->
  (str_in name (map (fun line => hd "" (split "="%char line)) (splitlines text))
   = true ->
   branch name r out
   = (r, out ++ [Line ("Branch name '" ++ name
                       ++ "' is already in use. Aborting proccess.")], Ok tt))
  /\ (str_in name (map (fun line => hd "" (split "="%char line)) (splitlines text))
      = false ->
      exists r',
        branch name r out = (r', out, Ok tt)
        /\ read_file (images_of r') "references.txt"
           = Ok (text ++ NL ++ name ++ "=" ++ head)%string
        /\ (forall n, n <> "references.txt" ->
                      lookup n (images_of r') = lookup n old)
        /\ node_at STAGING_AREA r' = node_at STAGING_AREA r
        /\ (forall n, n <> ".wit" -> lookup n (home r') = lookup n (home r))
        /\ (exists added,
               splitlines (text ++ NL ++ name ++ "=" ++ head)
               = splitlines text ++ added)
        /\ (opens_blank_line text = false -> no_linebreak name = true ->
            splitlines (text ++ NL ++ name ++ "=" ++ head)
            = splitlines text ++ [(name ++ "=" ++ head)%string])
        /\ (opens_blank_line text = false -> no_linebreak name = true ->
            no_equals name = true ->
            forall d, get_branches old = Ok d ->
                      get_branches (images_of r') = Ok (dict_set name head d))).
Proof.
  intros Himg Hread Hhead.
  pose proof (images_of_at r old Himg) as Hold.
  pose proof (read_file_isfile _ _ _ Hread) as Hfile.
  unfold get_head_commit_id in Hhead. rewrite Hread in Hhead. cbn [bind] in Hhead.
  destruct (py_index (splitlines text) 0) as [line0|e] eqn:E0;
    [|discriminate]. cbn [bind] in Hhead.
  assert (Hrun : forall k : cmd unit,
             branch name r out
             = (if str_in name
                     (map (fun line => hd "" (split "="%char line))
                        (splitlines text))
                then print (Line ("Branch name '" ++ name
                                  ++ "' is already in use. Aborting proccess."))
                else put_images
                       (write_file "references.txt"
                          (text ++ NL ++ name ++ "=" ++ head) old)) r out).
  { intros _. unfold branch, cbind, get, lift. rewrite Hold, Hfile.
    cbn [negb]. rewrite Hread, E0, Hhead. reflexivity. }
  specialize (Hrun (ret tt)). split; intros Hin; rewrite Hrun, Hin.
  - reflexivity.
  - destruct (put_images_spec
                (write_file "references.txt"
                   (text ++ NL ++ name ++ "=" ++ head) old) old r out Himg)
      as (r' & Hput & _ & Himg' & _ & Hst & _ & Hhome).
    exists r'. split; [exact Hput|]. rewrite Himg'.
    split; [|split; [|split; [|split; [|split; [|split]]]]].
    + unfold read_file, write_file. now rewrite lookup_set_entry_same.
    + intros n Hn. now apply lookup_set_entry_other.
    + exact Hst.
    + exact Hhome.
    + change (text ++ NL ++ name ++ "=" ++ head)%string
        with (text ++ String LF (name ++ "=" ++ head))%string.
      rewrite (splitlines_app_LF _ (String.length text)) by lia. eauto.
    + intros Hend Hname.
      change (text ++ NL ++ name ++ "=" ++ head)%string
        with (text ++ String LF (name ++ "=" ++ head))%string.
      rewrite (splitlines_app_LF _ (String.length text)) by lia.
      rewrite Hend. cbn [app]. f_equal. apply splitlines_single.
      * rewrite no_linebreak_app, Hname. cbn [andb no_linebreak].
        change (is_linebreak "="%char) with false. cbn [negb andb].
        exact (head_field_clean text line0 head E0 Hhead).
      * destruct name; discriminate.
    + intros Hend Hname Heq d Hd.
      exact (get_branches_after_append old text name head line0 d
               Hread E0 Hhead Hend Hname Heq Hd).
Qed.

Lemma branch_creates_or_refuses_witness :
  branch "feature" notes_repo []
  = (notes_repo,
     [Line "Branch name 'feature' is already in use. Aborting proccess."],
     Ok tt)
  /\ exists r',
      branch "dev" notes_repo [] = (r', [], Ok tt)
      /\ splitlines
           ("HEAD=" ++ id1 ++ NL ++ "master=" ++ id1 ++ NL ++ "feature=" ++ id2
            ++ NL ++ "dev" ++ "=" ++ id1)
         = splitlines
             ("HEAD=" ++ id1 ++ NL ++ "master=" ++ id1 ++ NL ++ "feature=" ++ id2)
           ++ [("dev" ++ "=" ++ id1)%string].
Proof.
  split.
  - apply (branch_creates_or_refuses "feature" notes_repo []
             (images_of notes_repo)
             ("HEAD=" ++ id1 ++ NL ++ "master=" ++ id1 ++ NL ++ "feature=" ++ id2)
             id1); reflexivity.
  - destruct (branch_creates_or_refuses "dev" notes_repo []
                (images_of notes_repo)
                ("HEAD=" ++ id1 ++ NL ++ "master=" ++ id1 ++ NL
                 ++ "feature=" ++ id2)
                id1 eq_refl eq_refl eq_refl) as [_ Hnew].
    destruct (Hnew eq_refl) as (r' & Hrun & _ & _ & _ & _ & _ & Hlines & _).
    exists r'. split; [exact Hrun|]. apply Hlines; reflexivity.
Defined.

(** A name with [=] in it.  [branch "a=b"] writes the line [a=b=head];
    the entry is then in the file, and a second [branch "a=b"] is not
    refused, since no line has [a=b] before its first [=]: it appends the
    line once more.  The line does not read as a binding either:
    [get_branches] raises [ValueError] on it.  A name with a line break in
    it leaves a line without [=], and so does any name on a file that
    ends in a line break. *)
Lemma branch_name_with_equals :
  let refs := ("HEAD=" ++ id1 ++ NL ++ "master=" ++ id1 ++ NL
               ++ "feature=" ++ id2)%string in
  let r1 := final (branch "a=b" notes_repo []) in
  let r2 := final (branch ("dev" ++ NL ++ "ops") notes_repo []) in
  let ended :=
    mkRepository "/home/user/project"
      [ (".wit", Dir
          [ ("images", Dir
              [ ("references.txt", File ("HEAD=" ++ id1 ++ NL)) ]) ]) ] in
  read_file (images_of notes_repo) "references.txt" = Ok refs
  /\ read_file (images_of r1) "references.txt"
     = Ok (refs ++ NL ++ "a=b=" ++ id1)%string
  /\ returned (branch "a=b" r1 []) = Ok tt
  /\ printed (branch "a=b" r1 []) = []
  /\ read_file (images_of (final (branch "a=b" r1 []))) "references.txt"
     = Ok (refs ++ NL ++ "a=b=" ++ id1 ++ NL ++ "a=b=" ++ id1)%string
  /\ get_branches (images_of r1) = Raise ValueError
  /\ get_branches (images_of r2) = Raise ValueError
  /\ get_branches (images_of ended) = Ok []
  /\ get_branches (images_of (final (branch "dev" ended [])))
     = Raise ValueError.
Proof. vm_compute. repeat split; reflexivity. Qed.

(** ** Trees *)

(** Induction on a tree, with the hypothesis for every entry of a
    directory. *)
Lemma node_rect_entries (P : node -> Prop) :
  (forall content, P (File content)) ->
  (forall es, Forall (fun e => P (snd e)) es -> P (Dir es)) ->
  forall n, P n.
Proof.
  intros HF HD. fix IH 1. intros [content|es].
  - apply HF.
  - apply HD. induction es as [|[name x] es IHes]; constructor.
    + apply IH.
    + exact IHes.
Qed.

Lemma on_child_lookup {A : Type} (rec : node -> A) (es : entries) (name : string) :
  on_child rec es name = option_map rec (lookup name es).
Proof.
  induction es as [|[n x] es IH]; simpl; [reflexivity|].
  destruct (n =? name); [reflexivity | exact IH].
Qed.

Lemma lookup_Forall (P : node -> Prop) (es : entries) (name : string) (x : node) :
  Forall (fun e => P (snd e)) es -> lookup name es = Some x -> P x.
Proof.
  induction 1 as [|[n y] es Hy _ IH]; simpl; [discriminate|].
  destruct (n =? name); [intros [= <-]; exact Hy | exact IH].
Qed.

Lemma isdir_lookup (es : entries) (name : string) :
  isdir es name = true -> exists sub, lookup name es = Some (Dir sub).
Proof.
  unfold isdir. destruct (lookup name es) as [[|sub]|]; try discriminate; eauto.
Qed.

Lemma common_dirs_spec (es1 es2 : entries) (d : string) :
  In d (common_dirs es1 es2) ->
  exists sub1 sub2,
    lookup d es1 = Some (Dir sub1) /\ lookup d es2 = Some (Dir sub2).
Proof.
  unfold common_dirs. intros H. apply filter_In in H as [_ H].
  apply andb_true_iff in H as [H1 H2].
  destruct (isdir_lookup _ _ H1) as [s1 E1].
  destruct (isdir_lookup _ _ H2) as [s2 E2]. eauto.
Qed.

(** A loop whose every pass appends a list of its own appends their
    concatenation. *)
Lemma for_each_appends {A B : Type} (body : list B -> A -> result (list B))
    (xs : list A) :
  (forall x, In x xs -> exists l, forall acc, body acc x = Ok (acc ++ l)) ->
  exists l, forall acc, for_each body xs acc = Ok (acc ++ l).
Proof.
  induction xs as [|x xs IH]; intros H.
  - exists []. intros acc. simpl. now rewrite app_nil_r.
  - destruct (H x (or_introl eq_refl)) as [l Hl].
    destruct (IH (fun y Hy => H y (or_intror Hy))) as [ls Hls].
    exists (l ++ ls). intros acc. simpl. rewrite Hl. simpl.
    rewrite Hls. now rewrite app_assoc.
Qed.

(** On two directories [get_dirs_diffs] returns, and what it appends to
    [changes] does not depend on [changes]. *)
Lemma get_dirs_diffs_total :
  forall (t1 : node) (es1 : entries),
    t1 = Dir es1 ->
    forall (dir2 : string) (es2 : entries) (by_content : bool),
    exists l, forall changes,
      get_dirs_diffs (Dir es1) dir2 (Dir es2) changes by_content
      = Ok (changes ++ l).
Proof.
  induction t1 as [content|es IH] using node_rect_entries;
    intros es1 Heq dir2 es2 by_content; [discriminate|].
  injection Heq as <-.
  destruct (for_each_appends
              (fun changes common_dir =>
                 match on_child get_dirs_diffs es common_dir,
                       lookup common_dir es2 with
                 | Some diffs_below, Some sub2 =>
                     diffs_below (os_path_join dir2 common_dir) sub2 changes
                       by_content
                 | _, _ => Raise OSError
                 end)
              (common_dirs es es2)) as [l Hl].
  { intros d Hd. destruct (common_dirs_spec _ _ _ Hd) as (s1 & s2 & E1 & E2).
    rewrite on_child_lookup, E1, E2. cbn [option_map].
    pose proof (lookup_Forall
                  (fun t => forall es1, t = Dir es1 ->
                     forall dir2 es2 by_content, exists l, forall changes,
                       get_dirs_diffs (Dir es1) dir2 (Dir es2) changes by_content
                       = Ok (changes ++ l))
                  _ _ _ IH E1) as Hsub. cbv beta in Hsub.
    exact (Hsub s1 eq_refl (os_path_join dir2 d) s2 by_content). }
  exists (map (os_path_join dir2)
            (if by_content then mismatch es es2 else right_only es es2) ++ l).
  intros changes. cbn [get_dirs_diffs].
  destruct by_content; rewrite Hl; now rewrite app_assoc.
Qed.

(** ** Status *)

Example status_of_edited_file :
  returned
    (status true
       (mkRepository "/w"
          [ ("a.txt", File "edited");
            (".wit", Dir
              [ ("images", Dir
                  [ ("c", Dir [("a.txt", File "hello")]);
                    ("references.txt", File "HEAD=c") ]);
                ("staging_area", Dir [("a.txt", File "hello"); ("b.txt", File "new")]);
                ("activated.txt", File "master") ]) ]) [])
  = Ok (Some (["/w/.wit/staging_area/b.txt"], ["/w/a.txt"], ["/w/.wit"])).
Proof. reflexivity. Qed.

(** ** Equal trees *)

Lemma str_in_In (x : string) (l : list string) :
  str_in x l = true <-> In x l.
Proof.
  unfold str_in. rewrite existsb_exists. split.
  - intros (y & Hy & E). apply String.eqb_eq in E. now subst.
  - intros H. exists x. split; [exact H | apply String.eqb_refl].
Qed.

Lemma filter_nil {A : Type} (f : A -> bool) (l : list A) :
  (forall x, In x l -> f x = false) -> filter f l = [].
Proof.
  induction l as [|x l IH]; intros H; simpl; [reflexivity|].
  rewrite (H x (or_introl eq_refl)). apply IH. intros y Hy. apply H. now right.
Qed.

Lemma insert_sorted_In (x y : string) (l : list string) :
  In x (insert_sorted y l) <-> x = y \/ In x l.
Proof.
  induction l as [|z l IH]; simpl.
  - intuition.
  - destruct (String.leb y z); simpl; [intuition|]. rewrite IH. intuition.
Qed.

Lemma sort_In (x : string) (l : list string) : In x (sort l) <-> In x l.
Proof.
  induction l as [|y l IH]; simpl; [reflexivity|].
  rewrite insert_sorted_In, IH. intuition.
Qed.

Lemma listing_In (x : string) (es : entries) :
  In x (listing es)
  <-> In x (names es) /\ str_in x (hide ++ DEFAULT_IGNORES) = false.
Proof.
  unfold listing. rewrite sort_In, filter_In, negb_true_iff. reflexivity.
Qed.


Lemma isfile_lookup (es : entries) (name : string) :
  isfile es name = true -> exists c, lookup name es = Some (File c).
Proof.
  unfold isfile. destruct (lookup name es) as [[c|]|]; try discriminate; eauto.
Qed.


Lemma lookup_unique_value (es : entries) (n : string) (x1 x2 : node) :
  lookup n es = Some x1 -> lookup n es = Some x2 -> x1 = x2.
Proof. congruence. Qed.

Lemma same_tree_refl : forall t, same_tree t t.
Proof.
  induction t as [content|es IH] using node_rect_entries; constructor.
  - reflexivity.
  - intros n x1 x2 E1 E2. rewrite E1 in E2. injection E2 as <-.
    exact (lookup_Forall (fun t => same_tree t t) _ _ _ IH E1).
Qed.


(** ** Commit *)

Lemma cbind_ok {A B : Type} (c : cmd A) (k : A -> cmd B)
    (r r2 : repository) (out out2 : list message) (b : B) :
  cbind c k r out = (r2, out2, Ok b) ->
  exists a r1 out1, c r out = (r1, out1, Ok a) /\ k a r1 out1 = (r2, out2, Ok b).
Proof.
  unfold cbind. destruct (c r out) as [[r1 out1] [a|e]]; [|discriminate].
  intros H. exists a, r1, out1. auto.
Qed.

Lemma lift_ok {A : Type} (x : result A) (r r' : repository)
    (out out' : list message) (a : A) :
  lift x r out = (r', out', Ok a) -> x = Ok a /\ r' = r /\ out' = out.
Proof. unfold lift. intros [= -> -> ->]. auto. Qed.

Lemma get_ok (r r' x : repository) (out out' : list message) :
  get r out = (r', out', Ok x) -> x = r /\ r' = r /\ out' = out.
Proof. unfold get. intros [= -> -> ->]. auto. Qed.

Lemma ret_ok {A : Type} (a b : A) (r r' : repository) (out out' : list message) :
  ret a r out = (r', out', Ok b) -> b = a /\ r' = r /\ out' = out.
Proof. unfold ret. intros [= -> -> ->]. auto. Qed.

Lemma print_ok (m : message) (r r' : repository) (out out' : list message) (u : unit) :
  print m r out = (r', out', Ok u) -> r' = r /\ out' = out ++ [m].
Proof. unfold print. intros [= -> ->]. auto. Qed.

Lemma keeps_refl (r : repository) : keeps r r.
Proof. repeat split. Qed.


Lemma put_images_ok (es : entries) (r r' : repository)
    (out out' : list message) (u : unit) :
  put_images es r out = (r', out', Ok u) ->
  node_at IMAGES r' = Some (Dir es) /\ out' = out /\ keeps r r'.
Proof.
  intros H. destruct (node_at IMAGES r) as [[c|old]|] eqn:E;
    try (unfold put_images in H; rewrite E in H; discriminate).
  destruct (put_images_spec es old r out E)
    as (r'' & Hrun & Himg & _ & Hh & Hs & Ha & _).
  rewrite Hrun in H. injection H as <- <-. repeat split; auto.
Qed.


(** *** Identifiers and the reference text *)

Lemma length_append (s t : string) :
  String.length (s ++ t) = String.length s + String.length t.
Proof. induction s as [|c s IH]; simpl; [reflexivity | now rewrite IH]. Qed.

Lemma all_chars_impl (p q : ascii -> bool) (s : string) :
  (forall c, p c = true -> q c = true) ->
  all_chars p s = true -> all_chars q s = true.
Proof.
  intros Hpq. induction s as [|c s IH]; simpl; [reflexivity|].
  intros H. apply andb_true_iff in H as [Hc Hs].
  now rewrite (Hpq c Hc), (IH Hs).
Qed.

Lemma no_linebreak_all_chars (s : string) :
  no_linebreak s = all_chars (fun c => negb (is_linebreak c)) s.
Proof. induction s as [|c s IH]; simpl; [reflexivity | now rewrite IH]. Qed.

Lemma id_char_plain (c : ascii) :
  char_in c COMMIT_ID_CHARS = true ->
  is_linebreak c = false /\ Ascii.eqb c "="%char = false.
Proof.
  unfold COMMIT_ID_CHARS. cbn [char_in]. intros H.
  repeat (apply orb_true_iff in H as [H|H];
          [apply Ascii.eqb_eq in H; subst c; split; reflexivity|]).
  discriminate.
Qed.

Lemma commit_id_ok_facts (s : string) :
  commit_id_ok s = true ->
  String.length s = 40
  /\ no_linebreak s = true
  /\ all_chars (fun c => negb (Ascii.eqb c "="%char)) s = true.
Proof.
  unfold commit_id_ok. intros H. apply andb_true_iff in H as [Hlen Hchars].
  apply Nat.eqb_eq in Hlen. split; [exact Hlen|]. split.
  - rewrite no_linebreak_all_chars. revert Hchars. apply all_chars_impl.
    intros c Hc. destruct (id_char_plain c Hc) as [-> _]. reflexivity.
  - revert Hchars. apply all_chars_impl.
    intros c Hc. destruct (id_char_plain c Hc) as [_ ->]. reflexivity.
Qed.

Lemma commit_id_not_references (s : string) :
  commit_id_ok s = true ->
  s <> "references.txt" /\ "references.txt" <> (s ++ ".txt")%string.
Proof.
  intros H. destruct (commit_id_ok_facts s H) as (Hlen & _ & _). split.
  - intros ->. discriminate.
  - intros E. apply (f_equal String.length) in E.
    rewrite length_append, Hlen in E. discriminate.
Qed.

Lemma split_head_line (id : string) :
  all_chars (fun c => negb (Ascii.eqb c "="%char)) id = true ->
  split "="%char ("HEAD=" ++ id) = ["HEAD"; id].
Proof.
  intros H. pose proof (split_no_sep "="%char id H) as E.
  cbn [String.append split]. rewrite E. reflexivity.
Qed.

Lemma splitlines_join_first (x : string) (ls : list string) :
  no_linebreak x = true -> x <> "" ->
  py_index (splitlines (join_lines (x :: ls))) 0 = Ok x.
Proof.
  intros Hclean Hne. unfold join_lines. destruct ls as [|l ls].
  - cbn [String.concat]. now rewrite splitlines_single.
  - change (String.concat NL (x :: l :: ls))
      with (x ++ String LF (String.concat NL (l :: ls)))%string.
    rewrite (splitlines_app_LF _ (String.length x)) by lia.
    now rewrite splitlines_single.
Qed.

(** The text of a reference file whose first line is [HEAD=id] gives [id]
    as the HEAD commit. *)
Lemma head_of_join (id : string) (ls : list string) (es : entries) :
  commit_id_ok id = true ->
  get_head_commit_id
    (write_file "references.txt" (join_lines (("HEAD=" ++ id)%string :: ls)) es)
  = Ok id.
Proof.
  intros Hid. destruct (commit_id_ok_facts id Hid) as (_ & Hclean & Hsep).
  unfold get_head_commit_id, read_file, write_file.
  rewrite lookup_set_entry_same. cbn [bind].
  rewrite splitlines_join_first.
  - cbn [bind]. now rewrite split_head_line.
  - rewrite no_linebreak_app, Hclean. reflexivity.
  - discriminate.
Qed.

(** *** The dictionary of [update_references] *)

Lemma dict_set_first_key (d : dict) (k k' v : string) :
  first_key d = Some k -> first_key (dict_set k' v d) = Some k.
Proof.
  destruct d as [|[k0 v0] d]; [discriminate|]. simpl.
  destruct (k0 =? k'); auto.
Qed.

Lemma read_bindings_keeps_first (lines : list string) :
  forall (acc d : dict) (k : string),
    for_each
      (fun params line =>
         do binding <- unpack_binding line;
         Ok (dict_set (fst binding) (snd binding) params))
      lines acc = Ok d ->
    first_key acc = Some k -> first_key d = Some k.
Proof.
  induction lines as [|line lines IH]; intros acc d k H Hk; simpl in H.
  - injection H as <-. exact Hk.
  - destruct (unpack_binding line) as [[n c]|e]; [|discriminate].
    simpl in H. eapply IH; [exact H|]. now apply dict_set_first_key.
Qed.

Lemma read_bindings_first (line0 : string) (lines : list string) (d : dict) :
  read_bindings (line0 :: lines) = Ok d ->
  first_key d = Some (hd "" (split "="%char line0)).
Proof.
  unfold read_bindings. cbn [for_each]. unfold unpack_binding at 1.
  destruct (split "="%char line0) as [|n [|c [|x xs]]]; try discriminate.
  cbn [bind fst snd dict_set hd]. intros H.
  eapply read_bindings_keeps_first; [exact H | reflexivity].
Qed.

Lemma dict_set_at_first (d : dict) (k v : string) :
  first_key d = Some k -> exists tl, dict_set k v d = (k, v) :: tl.
Proof.
  destruct d as [|[k0 v0] d]; [discriminate|]. intros [= ->]. simpl.
  rewrite String.eqb_refl. eauto.
Qed.

Lemma dict_set_after_first (k v k' : string) (tl : dict) :
  exists tl', dict_set k' v ((k, v) :: tl) = (k, v) :: tl'.
Proof. simpl. destruct (k =? k'); eauto. Qed.


(** *** A commit that succeeds *)

Lemma lookup_app_last (n name : string) (x : node) (es : entries) :
  n <> name -> lookup n (es ++ [(name, x)]) = lookup n es.
Proof.
  intros Hne. induction es as [|[m y] es IH]; simpl.
  - destruct (String.eqb_spec name n); [congruence | reflexivity].
  - destruct (m =? n); [reflexivity | exact IH].
Qed.

Lemma open_write_ok (name text : string) (es es' : entries) :
  open_write name text es = Ok es' -> es' = write_file name text es.
Proof.
  unfold open_write. destruct (lookup name es) as [[|]|]; congruence.
Qed.

Lemma create_image_dir_ok (fresh_id c : string) (im : entries)
    (r r' : repository) (out out' : list message) :
  node_at IMAGES r = Some (Dir im) ->
  create_image_dir fresh_id r out = (r', out', Ok c) ->
  c = fresh_id /\ out' = out
  /\ node_at IMAGES r' = Some (Dir (im ++ [(fresh_id, Dir [])]))
  /\ keeps r r'
  /\ lookup fresh_id im = None.
Proof.
  intros Him H. unfold create_image_dir in H. apply cbind_ok in H as (x & ra & oa & Hg & H).
  apply get_ok in Hg as (-> & -> & ->). rewrite (images_of_at _ _ Him) in H.
  destruct (lookup fresh_id im) eqn:El;
    [apply lift_ok in H as [H _]; discriminate|].
  apply cbind_ok in H as (u & rb & ob & Hp & H). apply put_images_ok in Hp as (Himg & -> & Hk).
  apply ret_ok in H as (-> & -> & ->). auto.
Qed.

(** A command that only reads leaves the repository and the output. *)
Lemma head_or_default_ok {A : Type} (b : bool) (x : result string)
    (k : string -> cmd A) (d : A) (r r' : repository)
    (out out' : list message) (a : A) :
  (forall s r0 o0 r1 o1 a1, k s r0 o0 = (r1, o1, Ok a1) -> r1 = r0 /\ o1 = o0) ->
  (if b then cbind (lift x) k else ret d) r out = (r', out', Ok a) ->
  r' = r /\ out' = out.
Proof.
  intros Hk H. destruct b.
  - apply cbind_ok in H as (s & ra & oa & Hl & H). apply lift_ok in Hl as (_ & -> & ->).
    exact (Hk _ _ _ _ _ _ H).
  - apply ret_ok in H as (_ & -> & ->). auto.
Qed.






(** ** The ignore list of a checkout *)

Lemma has_sep_app (s t : string) :
  has_sep (s ++ t) = has_sep s || has_sep t.
Proof.
  unfold has_sep. induction s as [|c s IH]; simpl; [reflexivity|].
  now rewrite IH, orb_assoc.
Qed.

Lemma ends_with_sep_has_sep (s : string) :
  ends_with_sep s = true -> has_sep s = true.
Proof.
  unfold has_sep. induction s as [|c s IH]; simpl; [discriminate|].
  destruct s as [|c' s'].
  - intros H. apply Ascii.eqb_eq in H. subst c. reflexivity.
  - intros H. rewrite (IH H). apply orb_true_r.
Qed.

(** A path joined onto a non-empty directory path contains a separator. *)
Lemma os_path_join_has_sep (a b : string) :
  a <> "" -> has_sep (os_path_join a b) = true /\ os_path_join a b <> "".
Proof.
  intros Ha.
  assert (G : forall x : string,
             x = (if ends_with_sep a then a ++ b else a ++ "/" ++ b)%string ->
             has_sep x = true /\ x <> "").
  { intros x ->. destruct a as [|c a]; [congruence|]. split.
    - destruct (ends_with_sep (String c a)) eqn:E.
      + rewrite has_sep_app, (ends_with_sep_has_sep _ E). reflexivity.
      + rewrite !has_sep_app. cbn. now rewrite orb_true_r.
    - destruct (ends_with_sep (String c a)); discriminate. }
  unfold os_path_join. destruct a as [|ca a]; [congruence|].
  destruct b as [|c b]; [apply G; reflexivity|].
  destruct (Ascii.eqb_spec c "/"%char) as [->|Hc].
  - split; [reflexivity | discriminate].
  - destruct c as [[] [] [] [] [] [] [] []];
      try (apply G; reflexivity). congruence.
Qed.

Lemma for_each_invariant {A S : Type} (I : S -> Prop)
    (body : S -> A -> result S) (xs : list A) :
  (forall x acc acc', In x xs -> I acc -> body acc x = Ok acc' -> I acc') ->
  forall acc acc', I acc -> for_each body xs acc = Ok acc' -> I acc'.
Proof.
  induction xs as [|x xs IH]; intros Hbody acc acc' Hacc H; simpl in H.
  - now injection H as <-.
  - destruct (body acc x) as [acc1|e] eqn:E; [|discriminate]. simpl in H.
    apply (IH (fun y a a' Hy => Hbody y a a' (or_intror Hy)) acc1 acc');
      [|exact H].
    exact (Hbody x acc acc1 (or_introl eq_refl) Hacc E).
Qed.

(** Every path that [get_dirs_diffs] reports below a non-empty directory
    path contains a separator. *)
Lemma get_dirs_diffs_has_sep :
  forall (t1 : node) (dir2 : string) (t2 : node) (changes l : list string)
         (by_content : bool),
    dir2 <> "" ->
    forallb has_sep changes = true ->
    get_dirs_diffs t1 dir2 t2 changes by_content = Ok l ->
    forallb has_sep l = true.
Proof.
  induction t1 as [content|es IH] using node_rect_entries;
    intros dir2 t2 changes l by_content Hdir Hch H; [discriminate|].
  destruct t2 as [|es2]; [discriminate|]. cbn [get_dirs_diffs] in H.
  eapply (for_each_invariant (fun acc => forallb has_sep acc = true));
    [ | | exact H].
  - intros d acc acc' Hd Hacc Hstep.
    destruct (common_dirs_spec _ _ _ Hd) as (s1 & s2 & E1 & E2).
    cbv beta in Hstep.
    rewrite on_child_lookup, E1, E2 in Hstep. cbn [option_map] in Hstep.
    pose proof (lookup_Forall
                  (fun t => forall dir2 t2 changes l by_content,
                     dir2 <> "" -> forallb has_sep changes = true ->
                     get_dirs_diffs t dir2 t2 changes by_content = Ok l ->
                     forallb has_sep l = true)
                  _ _ _ IH E1) as Hsub. cbv beta in Hsub.
    apply (Hsub _ _ _ _ _ (proj2 (os_path_join_has_sep dir2 d Hdir)) Hacc Hstep).
  - assert (Hmap : forall ns, forallb has_sep (map (os_path_join dir2) ns) = true).
    { induction ns as [|n ns IHns]; [reflexivity|]. cbn [map forallb].
      now rewrite (proj1 (os_path_join_has_sep dir2 n Hdir)), IHns. }
    destruct by_content; rewrite forallb_app, Hch, Hmap; reflexivity.
Qed.

Lemma str_in_plain (item : string) (ignore : list string) :
  has_sep item = false -> forallb has_sep ignore = true ->
  str_in item ignore = false.
Proof.
  intros Hitem. induction ignore as [|p ignore IH]; [reflexivity|].
  cbn [forallb str_in existsb]. intros H. apply andb_true_iff in H as [Hp Hrest].
  destruct (String.eqb_spec item p) as [->|_]; [congruence|].
  exact (IH Hrest).
Qed.

(** Against a list of paths with separators, the test [item not in ignore]
    holds for every name of the snapshot: the copy is the one with an
    empty list. *)
Lemma execute_checkout_ignore_inert (ignore : list string) :
  forallb has_sep ignore = true ->
  forall (src : node) (dst : option node),
    plain_names src = true ->
    execute_checkout src dst ignore = execute_checkout src dst [].
Proof.
  intros Hign.
  induction src as [content|es IH] using node_rect_entries; intros dst Hplain;
    [reflexivity|].
  cbn [execute_checkout]. cbn [plain_names] in Hplain. revert dst.
  induction IH as [|[item s] es Hs _ IHes]; intros dst; [reflexivity|].
  apply andb_true_iff in Hplain as [Hplain Hrest].
  apply andb_true_iff in Hplain as [Hitem Hsplain].
  apply negb_true_iff in Hitem. cbn [snd] in Hs.
  destruct s as [content|sub].
  - rewrite (str_in_plain item ignore Hitem Hign). cbn [str_in existsb negb].
    destruct (copy2 item content dst); cbn [fst snd]; [apply (IHes Hrest)|].
    reflexivity.
  - rewrite (Hs (child dst item) Hsplain).
    destruct (snd (execute_checkout (Dir sub) (child dst item) []));
      cbn [fst snd]; [apply (IHes Hrest) | reflexivity].
Qed.

(** X28: The list of untracked files that [status] hands to [checkout] never
    protects a file of the snapshot. *)
Lemma untracked_files_inert (r r' : repository) (out out' : list message)
    (changes_to_commit changes_not_staged untracked_files : list string) :
  home_dir r <> "" ->
  status true r out
  = (r', out', Ok (Some (changes_to_commit, changes_not_staged,
                         untracked_files))) ->
  forall (src : node) (dst : option node),
    plain_names src = true ->
    execute_checkout src dst untracked_files = execute_checkout src dst [].
Proof.
  intros Hhome H. apply execute_checkout_ignore_inert.
  unfold status in H. apply cbind_ok in H as (x & ra & oa & Hg & H).
  apply get_ok in Hg as (-> & -> & ->).
  destruct (negb (isfile (images_of r) "references.txt")).
  { apply cbind_ok in H as (u & rb & ob & _ & H).
    apply ret_ok in H as (E & _ & _). discriminate. }
  apply cbind_ok in H as (head & rb & ob & _ & H).
  apply cbind_ok in H as (l1 & rc & oc & _ & H).
  apply cbind_ok in H as (l2 & rd & od & _ & H).
  apply cbind_ok in H as (l3 & re & oe & Hl3 & H).
  apply ret_ok in H as (E & _ & _). injection E as _ _ <-.
  apply lift_ok in Hl3 as (Hl3 & _ & _).
  destruct (the_node (node_at STAGING_AREA r)) as [s|e]; [|discriminate].
  cbn [bind] in Hl3.
  exact (get_dirs_diffs_has_sep s (home_dir r) (Dir (home r)) []
           untracked_files false Hhome eq_refl Hl3).
Qed.

(** ** Paths and names *)

Lemma has_sep_all_chars (s : string) :
  has_sep s = false ->
  all_chars (fun c => negb (Ascii.eqb c "/"%char)) s = true.
Proof.
  unfold has_sep. induction s as [|c s IH]; cbn [char_in all_chars];
    [reflexivity|].
  intros H. apply orb_false_iff in H as [Hc Hs].
  rewrite Ascii.eqb_sym, Hc. cbn [negb andb]. exact (IH Hs).
Qed.

(** A name without separator, other than the empty name, [.] and [..],
    is resolved as the entry of that name. *)
Lemma entry_at_name (es : entries) (name : string) :
  has_sep name = false -> name <> "" -> name <> "." -> name <> ".." ->
  entry_at es name = Ok (lookup name es).
Proof.
  intros Hsep Hne Hdot Hup. unfold entry_at, stays_below.
  rewrite (split_no_sep "/"%char name (has_sep_all_chars name Hsep)).
  assert (Hpre : prefix "/" name = false).
  { destruct name as [|c rest]; [reflexivity|]. cbn [prefix].
    unfold has_sep in Hsep. cbn [char_in] in Hsep.
    apply orb_false_iff in Hsep as [Hc _].
    destruct (ascii_dec "/"%char c) as [E|E].
    - subst c. discriminate Hc.
    - reflexivity. }
  rewrite Hpre. cbn [climbs follow negb andb].
  destruct (String.eqb_spec name "") as [E|_]; [contradiction|].
  destruct (String.eqb_spec name ".") as [E|_]; [contradiction|].
  destruct (String.eqb_spec name "..") as [E|_]; [contradiction|].
  cbn [orb negb]. now destruct (lookup name es).
Qed.

Lemma read_path_name (es : entries) (name : string) :
  has_sep name = false -> name <> "" -> name <> "." -> name <> ".." ->
  read_path es name = read_file es name.
Proof.
  intros Hsep Hne Hdot Hup. unfold read_path, read_file.
  now rewrite (entry_at_name es name Hsep Hne Hdot Hup).
Qed.

(** The metadata file of an identifier without separator. *)
Lemma read_path_meta (es : entries) (c : string) :
  has_sep c = false ->
  read_path es (c ++ ".txt") = read_file es (c ++ ".txt").
Proof.
  intros Hsep.
  assert (Hlen : 4 <= String.length (c ++ ".txt"))
    by (rewrite length_append; cbn; lia).
  apply read_path_name.
  - rewrite has_sep_app, Hsep. reflexivity.
  - intros E. rewrite E in Hlen. cbn in Hlen. lia.
  - intros E. rewrite E in Hlen. cbn in Hlen. lia.
  - intros E. rewrite E in Hlen. cbn in Hlen. lia.
Qed.

Lemma id_char_no_sep (c : ascii) :
  char_in c COMMIT_ID_CHARS = true -> Ascii.eqb "/"%char c = false.
Proof.
  unfold COMMIT_ID_CHARS. cbn [char_in]. intros H.
  repeat (apply orb_true_iff in H as [H|H];
          [apply Ascii.eqb_eq in H; subst c; reflexivity|]).
  discriminate.
Qed.

Lemma commit_id_no_sep (s : string) : commit_id_ok s = true -> has_sep s = false.
Proof.
  unfold commit_id_ok, has_sep. intros H.
  apply andb_true_iff in H as [_ Hchars].
  induction s as [|c s IH]; [reflexivity|].
  cbn [all_chars] in Hchars. apply andb_true_iff in Hchars as [Hc Hs].
  cbn [char_in]. now rewrite (id_char_no_sep c Hc), (IH Hs).
Qed.

(** An identifier that [create_image_dir] can draw names its snapshot
    directory and its metadata file as entries of the images directory. *)
Lemma entry_at_commit_id (es : entries) (c : string) :
  commit_id_ok c = true -> entry_at es c = Ok (lookup c es).
Proof.
  intros H. destruct (commit_id_ok_facts c H) as (Hlen & _ & _).
  apply entry_at_name.
  - exact (commit_id_no_sep c H).
  - intros E. rewrite E in Hlen. discriminate.
  - intros E. rewrite E in Hlen. discriminate.
  - intros E. rewrite E in Hlen. discriminate.
Qed.

(** *** Arguments that are paths *)

(** [./<id3>] leads to the snapshot of [id3]: the merge goes through, and
    the new commit records the argument as it was given. *)
Example merge_of_a_path :
  let done := merge 10 "Thu" id4 ("./" ++ id3) conflict_repo [] in
  returned done = Ok tt
  /\ node_at STAGING_AREA (final done)
     = Some (Dir [("a.txt", File ("theirs" ++ NL))])
  /\ get_head_commit_id (images_of (final done)) = Ok id4
  /\ get_parents (images_of (final done)) id4 = Ok [id2; ("./" ++ id3)%string].
Proof. vm_compute. repeat split; reflexivity. Qed.

(** The empty argument leads to the images directory itself: its regular
    files are copied into the working tree and into the staging area,
    and the read of the activated branch then fails. *)
Example checkout_of_the_images_directory :
  let done := checkout "" two_roots_repo [] in
  returned done = Raise OSError
  /\ printed done = []
  /\ read_at ["references.txt"] (final done)
     = Ok ("HEAD=a" ++ NL ++ "master=a" ++ NL ++ "other=z")%string
  /\ read_at (STAGING_AREA ++ ["references.txt"]) (final done)
     = Ok ("HEAD=a" ++ NL ++ "master=a" ++ NL ++ "other=z")%string.
Proof. vm_compute. repeat split; reflexivity. Qed.

(** A regular file is no directory to go through. *)
Example entry_at_through_a_file :
  entry_at two_roots "references.txt/" = Ok None
  /\ entry_at two_roots "./a" = Ok (Some (Dir []))
  /\ entry_at two_roots "a/" = Ok (Some (Dir []))
  /\ entry_at two_roots "" = Ok (Some (Dir two_roots)).
Proof. vm_compute. repeat split; reflexivity. Qed.

(** [..] leads back to the directory above. *)
Example entry_at_back :
  entry_at two_roots "a/../z" = Ok (Some (Dir []))
  /\ entry_at two_roots "a/.." = Ok (Some (Dir two_roots))
  /\ entry_at two_roots "nowhere/../z" = Ok None
  /\ entry_at two_roots "a.txt/../z" = Ok None.
Proof. vm_compute. repeat split; reflexivity. Qed.

(** An absolute path, and a path that climbs above the directory, lead
    out of the modelled tree. *)
Example entry_at_outside :
  entry_at two_roots "/etc" = Raise OutsideTree
  /\ entry_at two_roots "../staging_area" = Raise OutsideTree
  /\ entry_at two_roots "a/../../staging_area" = Raise OutsideTree
  /\ returned (checkout "/etc" two_roots_repo []) = Raise OutsideTree.
Proof. vm_compute. repeat split; reflexivity. Qed.

(** [os.path.relpath] normalises both paths. *)
Example relpath_normalises :
  relpath "/home/u/.wit/images/./c/src/m.py" "/home/u/.wit/images/./c" = "src/m.py"
  /\ relpath "/home/u/.wit/images/c/m.py" "/home/u/.wit/images/c/" = "m.py"
  /\ relpath "/home/u/a" "/home/u/a" = "."
  /\ relpath "/home/u/b" "/home/u/a/c" = "../../b".
Proof. vm_compute. repeat split; reflexivity. Qed.

(** * Further properties *)

(** ** The per-file merge, one side unchanged *)

Lemma firstn_succ_nth_error {A : Type} (l : list A) (i : nat) (x : A) :
  nth_error l i = Some x -> firstn (S i) l = firstn i l ++ [x].
Proof.
  revert i. induction l as [|y l IH]; intros [|i] H; simpl in *;
    try discriminate.
  - now injection H as ->.
  - now rewrite (IH i H).
Qed.

(** A loop whose pass at every index appends the line of [full] at that
    index produces [full]. *)
Lemma merge_lines_by_index (common branch head full : list string) :
  length full = Nat.max (length branch) (length head) ->
  (forall i x merged,
      nth_error full i = Some x ->
      merge_iteration common branch head i merged = Ok (merged ++ [x])) ->
  merge_lines common branch head = Ok full.
Proof.
  intros Hlen Hiter. unfold merge_lines. rewrite <- Hlen.
  assert (G : forall n i,
             i + n = length full ->
             merge_while common branch head n i (firstn i full) = Ok full).
  { induction n as [|n IH]; intros i Hi; cbn [merge_while].
    - rewrite Nat.add_0_r in Hi. subst i. now rewrite firstn_all.
    - destruct (py_index_ok full i ltac:(lia)) as [x Hx].
      rewrite (Hiter i x _ Hx). cbn [bind].
      rewrite <- (firstn_succ_nth_error _ _ _ Hx). apply IH. lia. }
  exact (G (length full) 0 eq_refl).
Qed.

Lemma nth_error_app_skipn (h c : list string) (i : nat) :
  nth_error (h ++ skipn (length h) c) i
  = if (i <? length h)%nat then nth_error h i else nth_error c i.
Proof.
  rewrite nth_error_app. destruct (Nat.ltb_spec i (length h)); [reflexivity|].
  rewrite nth_error_skipn. f_equal. lia.
Qed.

Lemma length_app_skipn (h c : list string) :
  length (h ++ skipn (length h) c) = Nat.max (length c) (length h).
Proof. rewrite length_app, length_skipn. lia. Qed.

(** X3: When one side is the common ancestor itself, the merge never fails:
    line by line it is the other side, followed by the lines that the
    ancestor has beyond the other side's end (a deletion at the end of a
    file is not carried over). *)
Theorem merge_lines_one_side_unchanged (common other : list string) :
  merge_lines common common other
  = Ok (other ++ skipn (length other) common)
  /\ merge_lines common other common
     = Ok (other ++ skipn (length other) common).
Proof.
  split.
  - apply merge_lines_by_index; [apply length_app_skipn|].
    intros i x merged Hx. rewrite nth_error_app_skipn in Hx.
    unfold merge_iteration, py_index.
    destruct (Nat.ltb_spec i (length other)) as [Hlt|Hge].
    + rewrite Hx. destruct (nth_error common i) as [c|]; [|reflexivity].
      cbn [bind]. rewrite String.eqb_refl. cbn [negb].
      rewrite !andb_false_r. reflexivity.
    + rewrite Hx. apply nth_error_None in Hge. now rewrite Hge.
  - apply merge_lines_by_index;
      [rewrite length_app_skipn; apply Nat.max_comm|].
    intros i x merged Hx. rewrite nth_error_app_skipn in Hx.
    unfold merge_iteration, py_index.
    destruct (Nat.ltb_spec i (length other)) as [Hlt|Hge].
    + rewrite Hx. destruct (nth_error common i) as [c|]; [|reflexivity].
      cbn [bind]. rewrite String.eqb_refl. cbn [negb andb].
      destruct (String.eqb_spec c x) as [->|_]; reflexivity.
    + apply nth_error_None in Hge. rewrite Hge, Hx. reflexivity.
Qed.

(** ** What a successful merge returns *)

Lemma merge_iteration_appends (common branch head : list string) (i : nat)
    (merged out : list string) :
  merge_iteration common branch head i merged = Ok out ->
  exists x,
    out = merged ++ [x]
    /\ (nth_error branch i = Some x \/ nth_error head i = Some x).
Proof.
  unfold merge_iteration, py_index.
  destruct (nth_error branch i) as [b|]; destruct (nth_error head i) as [h|];
    cbn [bind]; try discriminate.
  - destruct (nth_error common i) as [c|]; cbn [bind]; [|discriminate].
    destruct (negb (c =? h) && negb (c =? b)); [discriminate|].
    destruct ((c =? h) && negb (c =? b)); intros [= <-]; eauto.
  - intros [= <-]. eauto.
  - intros [= <-]. eauto.
Qed.

Lemma merge_while_appends (common branch head : list string) :
  forall (n i : nat) (merged out : list string),
    merge_while common branch head n i merged = Ok out ->
    exists added,
      out = merged ++ added /\ length added = n
      /\ forall j x, nth_error added j = Some x ->
                     nth_error branch (i + j) = Some x
                     \/ nth_error head (i + j) = Some x.
Proof.
  induction n as [|n IH]; intros i merged out H; cbn [merge_while] in H.
  - injection H as <-. exists []. rewrite app_nil_r. repeat split.
    intros [|j] x Hx; discriminate.
  - destruct (merge_iteration common branch head i merged) as [m|e] eqn:E;
      [|discriminate]. cbn [bind] in H.
    destruct (merge_iteration_appends _ _ _ _ _ _ E) as (x & -> & Hx).
    destruct (IH _ _ _ H) as (added & -> & Hlen & Hfrom).
    exists (x :: added). rewrite <- app_assoc. split; [reflexivity|].
    split; [simpl; now rewrite Hlen|].
    intros [|j] y Hy; simpl in Hy.
    + injection Hy as <-. now rewrite Nat.add_0_r.
    + replace (i + S j) with (S i + j) by lia. now apply Hfrom.
Qed.

(** X4: A merge that succeeds returns as many lines as the longer of the two
    edited versions, and each of them is the line of one of the two
    versions at the same index: no line of the ancestor alone, and no
    line moved. *)
Theorem merge_lines_positional (common branch head out : list string) :
  merge_lines common branch head = Ok out ->
  length out = Nat.max (length branch) (length head)
  /\ forall i x, nth_error out i = Some x ->
                 nth_error branch i = Some x \/ nth_error head i = Some x.
Proof.
  unfold merge_lines. intros H.
  destruct (merge_while_appends _ _ _ _ _ _ _ H) as (added & -> & Hlen & Hfrom).
  split; [exact Hlen | exact Hfrom].
Qed.

Lemma merge_lines_positional_witness :
  length ["a"; "B"; "c"] = Nat.max 3 2
  /\ forall i x, nth_error ["a"; "B"; "c"] i = Some x ->
                 nth_error ["a"; "B"; "c"] i = Some x
                 \/ nth_error ["a"; "b"] i = Some x.
Proof.
  apply (merge_lines_positional ["a"; "b"] ["a"; "B"; "c"] ["a"; "b"]).
  reflexivity.
Defined.

Lemma merge_common_changes_conflict_witness :
  merge_common_changes "base" "theirs" "ours" "out" same_line_store
  = (same_line_store, Raise ValueError).
Proof.
  apply (merge_common_changes_conflict same_line_store
           "base" "theirs" "ours" "out"
           ("title" ++ NL ++ "line" ++ NL)%string
           ("title" ++ NL ++ "theirs" ++ NL)%string
           ("title" ++ NL ++ "ours" ++ NL)%string 1 "line" "theirs" "ours");
    try reflexivity; discriminate.
Defined.

(** ** The scan for a common commit *)

Lemma scan_common_snoc (src head : list string) (x : string) :
  scan_common (src ++ [x]) head
  = if str_in x head then Some x else scan_common src head.
Proof. unfold scan_common. now rewrite fold_left_app. Qed.

Lemma scan_common_disjoint (src head : list string) :
  (forall c, In c src -> ~ In c head) -> scan_common src head = None.
Proof.
  induction src as [|x l IH] using rev_ind; intros H; [reflexivity|].
  rewrite scan_common_snoc.
  destruct (str_in x head) eqn:E.
  - apply str_in_In in E. exfalso. apply (H x); [|exact E].
    apply in_or_app. right. now left.
  - apply IH. intros c Hc. apply H. apply in_or_app. now left.
Qed.

(** X5: The scan of [wit.merge] ends with the last identifier of the source
    history that occurs in the head history: nothing after it in the
    source history occurs there.  It ends with nothing exactly when the
    two histories share no identifier. *)
Theorem scan_common_last_match (src_commits head_commits : list string) :
  match scan_common src_commits head_commits with
  | Some c =>
      exists before after,
        src_commits = before ++ c :: after
        /\ In c head_commits
        /\ forall y, In y after -> ~ In y head_commits
  | None => forall y, In y src_commits -> ~ In y head_commits
  end.
Proof.
  induction src_commits as [|x l IH] using rev_ind.
  - intros y [].
  - rewrite scan_common_snoc. destruct (str_in x head_commits) eqn:E.
    + exists l, []. split; [reflexivity|]. split; [now apply str_in_In|].
      intros y [].
    + assert (Hx : ~ In x head_commits)
        by (intros H; apply str_in_In in H; congruence).
      destruct (scan_common l head_commits) as [c|].
      * destruct IH as (before & after & -> & Hc & Hafter).
        exists before, (after ++ [x]). rewrite <- app_assoc.
        split; [reflexivity|]. split; [exact Hc|].
        intros y Hy. apply in_app_or in Hy as [Hy|[<-|[]]]; auto.
      * intros y Hy. apply in_app_or in Hy as [Hy|[<-|[]]]; auto.
Qed.

(** ** What a history holds *)

Lemma get_all_commits_util_listed (images : entries) :
  forall (depth : nat) (c : string) (commits l : list string),
    get_all_commits_util depth images c commits = Some (Ok l) ->
    exists rest,
      l = commits ++ c :: rest
      /\ Forall (fun x => exists ps, get_parents images x = Ok ps) (c :: rest).
Proof.
  induction depth as [|depth IH]; intros c commits l H; [discriminate|].
  rewrite get_all_commits_util_unfold in H.
  destruct (get_parents images c) as [parents|e] eqn:Ep; [|discriminate].
  assert (W : forall ps acc out,
             walk_parents depth images ps acc = Some (Ok out) ->
             exists rest,
               out = acc ++ rest
               /\ Forall (fun x => exists ps, get_parents images x = Ok ps) rest).
  { induction ps as [|p ps IHps]; intros acc out Hw; cbn [walk_parents] in Hw.
    - injection Hw as <-. exists []. rewrite app_nil_r. auto.
    - destruct (get_all_commits_util depth images p acc) as [[m|e]|] eqn:Eu;
        try discriminate. cbn [fbind] in Hw.
      destruct (IH _ _ _ Eu) as (r1 & -> & H1).
      destruct (IHps _ _ Hw) as (r2 & -> & H2).
      exists ((p :: r1) ++ r2). rewrite <- !app_assoc. split; [reflexivity|].
      apply Forall_app. auto. }
  destruct (W _ _ _ H) as (rest & -> & Hrest).
  exists rest. rewrite <- app_assoc. split; [reflexivity|].
  constructor; eauto.
Qed.

(** X6: A history that [get_all_commits] returns starts with the commit it
    was asked for (so [head_commits[0]] in [wit.merge] is HEAD and never
    out of range), and every commit in it has a readable metadata file. *)
Theorem get_all_commits_starts_with_commit (depth : nat) (images : entries)
    (c : string) (l : list string) :
  get_all_commits depth images (Some c) = Some (Ok l) ->
  exists rest,
    l = c :: rest
    /\ forall x, In x l -> exists ps, get_parents images x = Ok ps.
Proof.
  unfold get_all_commits. intros H.
  destruct (get_all_commits_util_listed images depth c [] l H)
    as (rest & -> & Hall).
  exists rest. split; [reflexivity|]. now apply Forall_forall.
Qed.

Lemma get_all_commits_starts_with_commit_witness :
  exists rest,
    ["d"; "b"; "a"; "c"; "a"] = "d" :: rest
    /\ forall x, In x ["d"; "b"; "a"; "c"; "a"] ->
                 exists ps, get_parents diamond x = Ok ps.
Proof.
  apply (get_all_commits_starts_with_commit 3 diamond "d"). reflexivity.
Defined.

(** ** Merges that stop early *)

(** X7: A source that is no branch, and for which
    [os.path.join(images_dir, param + ".txt")] cannot be opened: [merge]
    reports it, logs and prints the error, and changes nothing else. *)
Theorem merge_unknown_source (depth : nat) (date fresh_id param : string)
    (r : repository) (out : list message) (branches : dict) :
  isfile (images_of r) "references.txt" = true ->
  get_branches (images_of r) = Ok branches ->
  dict_get param branches = None ->
  read_path (images_of r) (param ++ ".txt") = Raise OSError ->
  merge (S depth) date fresh_id param r out
  = (r, out ++ [Line "Wrong commit_id or branch name entered."]
          ++ [Logged OSError] ++ [ErrorText OSError], Ok tt).
Proof.
  intros Hrefs Hbr Hparam Hmeta.
  assert (Hp : get_parents (images_of r) param = Raise OSError).
  { unfold get_parents. now rewrite Hmeta. }
  unfold merge, cbind, get, lift, try_os, ret, print.
  rewrite Hrefs, Hbr, Hparam. cbn [negb].
  unfold get_all_commits. cbn [get_all_commits_util]. rewrite Hp.
  cbn [lift_fueled]. rewrite <- !app_assoc. reflexivity.
Qed.

Lemma merge_unknown_source_witness :
  merge 5 "Fri" id4 "nowhere" notes_repo []
  = (notes_repo,
     [Line "Wrong commit_id or branch name entered."; Logged OSError;
      ErrorText OSError], Ok tt).
Proof.
  apply (merge_unknown_source 4 "Fri" id4 "nowhere" notes_repo []
           [("master", id1); ("feature", id2)]); reflexivity.
Defined.

(** X8: Two histories without a common identifier: [merge] says so and
    changes nothing. *)
Theorem merge_no_common_basis (depth : nat) (date fresh_id param : string)
    (r : repository) (out : list message) (branches : dict)
    (src_commits head_commits : list string) :
  isfile (images_of r) "references.txt" = true ->
  get_branches (images_of r) = Ok branches ->
  get_all_commits depth (images_of r)
    (Some match dict_get param branches with
          | Some c => c
          | None => param
          end) = Some (Ok src_commits) ->
  get_all_commits depth (images_of r) None = Some (Ok head_commits) ->
  (forall c, In c src_commits -> ~ In c head_commits) ->
  merge depth date fresh_id param r out
  = (r, out ++ [Line "No common basis between the HEAD commit and the branch was found. Aborting."],
     Ok tt).
Proof.
  intros Hrefs Hbr Hsrc Hhead Hdisjoint.
  pose proof (scan_common_disjoint _ _ Hdisjoint) as Hscan.
  unfold merge, cbind, get, lift, try_os, ret.
  rewrite Hrefs, Hbr. cbn [negb]. rewrite Hsrc, Hhead. cbn [lift_fueled].
  rewrite Hscan. reflexivity.
Qed.

Lemma merge_no_common_basis_witness :
  merge 3 "Fri" id4 "other" two_roots_repo []
  = (two_roots_repo,
     [Line "No common basis between the HEAD commit and the branch was found. Aborting."],
     Ok tt).
Proof.
  apply (merge_no_common_basis 3 "Fri" id4 "other" two_roots_repo []
           [("master", "a"); ("other", "z")] ["z"] ["a"]);
    try reflexivity.
  intros c [<-|[]] [E|[]]. discriminate.
Defined.

(** ** Reading the reference file back *)

Lemma opens_blank_line_clean (s : string) :
  no_linebreak s = true -> s <> "" -> opens_blank_line s = false.
Proof.
  induction s as [|c s IH]; intros Hc Hne; [congruence|].
  cbn [no_linebreak] in Hc. apply andb_true_iff in Hc as [Hc Hs].
  apply negb_true_iff in Hc.
  destruct s as [|c' s'].
  - cbn [opens_blank_line]. now rewrite Hc.
  - rewrite opens_blank_line_cons. apply IH; [exact Hs | discriminate].
Qed.

Lemma splitlines_join (ls : list string) :
  Forall (fun l => no_linebreak l = true /\ l <> "") ls ->
  splitlines (join_lines ls) = ls.
Proof.
  unfold join_lines. induction ls as [|x ls IH]; intros H; [reflexivity|].
  inversion H as [|? ? [Hx Hne] Hls]; subst.
  destruct ls as [|l ls].
  - cbn [String.concat]. now rewrite splitlines_single.
  - change (String.concat NL (x :: l :: ls))
      with (x ++ String LF (String.concat NL (l :: ls)))%string.
    rewrite (splitlines_app_LF _ (String.length x)) by lia.
    rewrite splitlines_single by assumption.
    rewrite opens_blank_line_clean by assumption.
    rewrite IH by assumption. reflexivity.
Qed.

Lemma unpack_binding_line (k v : string) :
  no_equals k = true -> no_equals v = true ->
  unpack_binding (k ++ "=" ++ v) = Ok (k, v).
Proof.
  intros Hk Hv. unfold unpack_binding.
  change (k ++ "=" ++ v)%string with (k ++ String "="%char v)%string.
  rewrite split_app_sep by exact Hk.
  rewrite split_no_sep by exact Hv. reflexivity.
Qed.

Lemma unpack_binding_clean (line k v : string) :
  no_linebreak line = true ->
  unpack_binding line = Ok (k, v) ->
  clean_field k = true /\ clean_field v = true.
Proof.
  unfold unpack_binding, clean_field. intros Hline H.
  pose proof (split_fields_clean "="%char line) as Heq.
  pose proof (split_clean "="%char line Hline) as Hlb.
  destruct (split "="%char line) as [|a [|b [|x xs]]]; try discriminate.
  injection H as -> ->.
  cbn [forallb] in Heq, Hlb.
  apply andb_true_iff in Heq as [Hk Heq]. apply andb_true_iff in Heq as [Hv _].
  apply andb_true_iff in Hlb as [Hk' Hlb]. apply andb_true_iff in Hlb as [Hv' _].
  unfold no_equals. now rewrite Hk, Hv, Hk', Hv'.
Qed.

Lemma dict_set_fresh (k v : string) (d : dict) :
  ~ In k (map fst d) -> dict_set k v d = d ++ [(k, v)].
Proof.
  induction d as [|[k' v'] d IH]; intros H; [reflexivity|].
  cbn [dict_set map fst In] in *.
  destruct (String.eqb_spec k' k) as [->|_]; [tauto|].
  cbn [app]. f_equal. apply IH. tauto.
Qed.

Lemma dict_set_In (k v : string) (d : dict) (kv : string * string) :
  In kv (dict_set k v d) -> kv = (k, v) \/ In kv d.
Proof.
  induction d as [|[k' v'] d IH]; cbn [dict_set].
  - intros [<-|[]]. now left.
  - destruct (String.eqb_spec k' k) as [->|Hne].
    + intros [<-|H]; [now left | right; now right].
    + intros [<-|H]; [right; now left|].
      destruct (IH H) as [->|Hin]; [now left | right; now right].
Qed.

Lemma dict_set_keys (k v x : string) (d : dict) :
  In x (map fst (dict_set k v d)) -> x = k \/ In x (map fst d).
Proof.
  intros H. apply in_map_iff in H as (kv & <- & Hin).
  apply dict_set_In in Hin as [->|Hin]; [now left|].
  right. now apply in_map.
Qed.

Lemma dict_set_NoDup (k v : string) (d : dict) :
  NoDup (map fst d) -> NoDup (map fst (dict_set k v d)).
Proof.
  induction d as [|[k' v'] d IH]; intros H; cbn [dict_set].
  - cbn. constructor; [intros [] | constructor].
  - cbn [map fst] in H. inversion H as [|? ? Hnot Hrest]; subst.
    destruct (String.eqb_spec k' k) as [->|Hne]; cbn [map fst].
    + now constructor.
    + constructor; [|now apply IH].
      intros Hin. apply dict_set_keys in Hin as [->|Hin]; tauto.
Qed.

Lemma dict_set_well_formed (k v : string) (d : dict) :
  clean_field k = true -> clean_field v = true ->
  well_formed d -> well_formed (dict_set k v d).
Proof.
  intros Hk Hv [Hnd Hall]. split; [now apply dict_set_NoDup|].
  apply Forall_forall. intros kv Hin.
  apply dict_set_In in Hin as [->|Hin]; [now split|].
  now apply (proj1 (Forall_forall _ _) Hall).
Qed.

Lemma read_bindings_well_formed (lines : list string) (acc d : dict) :
  forallb no_linebreak lines = true ->
  well_formed acc ->
  for_each
    (fun params line =>
       do binding <- unpack_binding line;
       Ok (dict_set (fst binding) (snd binding) params))
    lines acc = Ok d ->
  well_formed d.
Proof.
  intros Hlines Hacc H.
  eapply (for_each_invariant well_formed); [ | exact Hacc | exact H].
  intros line a a' Hin Ha Hstep. cbv beta in Hstep.
  destruct (unpack_binding line) as [[k v]|e] eqn:Eu; [|discriminate].
  cbn [bind fst snd] in Hstep. injection Hstep as <-.
  assert (Hline : no_linebreak line = true)
    by exact (proj1 (forallb_forall _ _) Hlines line Hin).
  destruct (unpack_binding_clean line k v Hline Eu) as [Hk Hv].
  now apply dict_set_well_formed.
Qed.

Lemma read_bindings_lines (d : dict) :
  forall acc : dict,
    NoDup (map fst d) ->
    (forall k, In k (map fst d) -> ~ In k (map fst acc)) ->
    Forall (fun kv => clean_field (fst kv) = true
                      /\ clean_field (snd kv) = true) d ->
    for_each
      (fun params line =>
         do binding <- unpack_binding line;
         Ok (dict_set (fst binding) (snd binding) params))
      (map (fun kv => (fst kv ++ "=" ++ snd kv)%string) d) acc
    = Ok (acc ++ d).
Proof.
  induction d as [|[k v] d IH]; intros acc Hnd Hfresh Hall.
  - cbn. now rewrite app_nil_r.
  - cbn [map fst] in Hnd. inversion Hnd as [|? ? Hnot Hrest]; subst.
    inversion Hall as [|? ? [Hk Hv] Hall']; subst. cbn [fst snd] in Hk, Hv.
    unfold clean_field in Hk, Hv.
    apply andb_true_iff in Hk as [_ Hk]. apply andb_true_iff in Hv as [_ Hv].
    cbn [map for_each fst snd].
    rewrite (unpack_binding_line k v Hk Hv). cbn [bind fst snd].
    rewrite dict_set_fresh by (apply Hfresh; now left).
    rewrite IH; [now rewrite <- app_assoc | exact Hrest | | exact Hall'].
    intros x Hx Hin. rewrite map_app in Hin.
    apply in_app_or in Hin as [Hin|[<-|[]]].
    + apply (Hfresh x); [now right | exact Hin].
    + exact (Hnot Hx).
Qed.

Lemma dict_get_dict_set (n k v : string) (d : dict) :
  dict_get n (dict_set k v d) = if k =? n then Some v else dict_get n d.
Proof.
  induction d as [|[k' v'] d IH]; cbn [dict_set dict_get].
  - reflexivity.
  - destruct (String.eqb_spec k' k) as [->|Hne]; cbn [dict_get].
    + now destruct (String.eqb_spec k n).
    + rewrite IH. destruct (String.eqb_spec k' n) as [->|_]; [|reflexivity].
      destruct (String.eqb_spec k n) as [->|_]; [congruence | reflexivity].
Qed.

Lemma read_bindings_from (lines : list string) :
  forall acc1 acc2 d1 : dict,
    for_each
      (fun params line =>
         do binding <- unpack_binding line;
         Ok (dict_set (fst binding) (snd binding) params))
      lines acc1 = Ok d1 ->
    exists d2,
      for_each
        (fun params line =>
           do binding <- unpack_binding line;
           Ok (dict_set (fst binding) (snd binding) params))
        lines acc2 = Ok d2
      /\ forall n, dict_get n acc1 = dict_get n acc2 ->
                   dict_get n d1 = dict_get n d2.
Proof.
  induction lines as [|line lines IH]; intros acc1 acc2 d1 H.
  - cbn in H. injection H as <-. exists acc2. split; [reflexivity | auto].
  - cbn [for_each] in *.
    destruct (unpack_binding line) as [[k v]|e]; [|discriminate].
    cbn [bind fst snd] in *.
    destruct (IH _ (dict_set k v acc2) _ H) as (d2 & Hd2 & Hsame).
    exists d2. split; [exact Hd2|].
    intros n Hn. apply Hsame. rewrite !dict_get_dict_set. now rewrite Hn.
Qed.

Lemma binding_lines_clean (d : dict) :
  Forall (fun kv => clean_field (fst kv) = true
                    /\ clean_field (snd kv) = true) d ->
  Forall (fun l => no_linebreak l = true /\ l <> "")
    (map (fun kv => (fst kv ++ "=" ++ snd kv)%string) d).
Proof.
  intros H. apply Forall_map. eapply Forall_impl; [|exact H].
  intros [k v] [Hk Hv]. cbn [fst snd] in *. unfold clean_field in Hk, Hv.
  apply andb_true_iff in Hk as [Hk _]. apply andb_true_iff in Hv as [Hv _].
  split.
  - rewrite no_linebreak_app, Hk.
    change ("=" ++ v)%string with (String "="%char v).
    cbn [no_linebreak]. now rewrite Hv.
  - destruct k; discriminate.
Qed.

Lemma dict_in_clean_key (k : string) (d : dict) :
  well_formed d -> dict_in k d = true -> clean_field k = true.
Proof.
  intros [_ Hall]. unfold dict_in.
  induction d as [|[k' v'] d IH]; cbn [dict_get]; [discriminate|].
  inversion Hall as [|? ? [Hk _] Hall']; subst. cbn [fst] in Hk.
  destruct (String.eqb_spec k' k) as [<-|_]; [now intros _ | now apply IH].
Qed.

(** What [update_references] leaves in a reference file that starts with
    the HEAD line. *)
Lemma update_references_bindings (images images' : entries)
    (commit_id branch : string) :
  head_line_first images = true ->
  clean_field commit_id = true ->
  update_references images commit_id branch = Ok images' ->
  get_head_commit_id images' = Ok commit_id
  /\ exists before after,
      get_branches images = Ok before
      /\ get_branches images' = Ok after
      /\ forall name,
          name <> "HEAD" ->
          dict_get name after
          = if (name =? branch) && dict_in name before then Some commit_id
            else dict_get name before.
Proof.
  unfold head_line_first, update_references, get_branches.
  intros Hfirst Hid H.
  destruct (read_file images "references.txt") as [text|e]; [|discriminate].
  cbn [bind] in H |- *.
  pose proof (splitlines_clean (String.length text) text (le_n _)) as Hclean.
  destruct (splitlines text) as [|line0 lines]; [discriminate|].
  apply String.eqb_eq in Hfirst.
  destruct (read_bindings (line0 :: lines)) as [params|e] eqn:Er; [|discriminate].
  cbn [bind] in H.
  assert (Hwf : well_formed params).
  { apply (read_bindings_well_formed (line0 :: lines) [] params Hclean);
      [|exact Er]. split; constructor. }
  pose proof (read_bindings_first _ _ _ Er) as Hkey. rewrite Hfirst in Hkey.
  unfold read_bindings in Er. cbn [for_each] in Er.
  destruct (unpack_binding line0) as [[k0 v0]|e] eqn:Eu; [|discriminate].
  cbn [bind fst snd dict_set] in Er.
  assert (Hk0 : k0 = "HEAD").
  { unfold unpack_binding in Eu. rewrite <- Hfirst.
    destruct (split "="%char line0) as [|a [|b [|x xs]]]; try discriminate.
    now injection Eu as -> ->. }
  subst k0.
  destruct (read_bindings_from lines _ [] _ Er) as (before & Hbefore & Hsame).
  remember (dict_set "HEAD" commit_id params) as params1 eqn:E1.
  remember (if dict_in branch params1
            then dict_set branch commit_id params1 else params1)
    as params2 eqn:E2.
  assert (Hwf1 : well_formed params1)
    by (subst params1; apply dict_set_well_formed;
        [reflexivity | exact Hid | exact Hwf]).
  assert (Hwf2 : well_formed params2).
  { subst params2. destruct (dict_in branch params1) eqn:Ein; [|exact Hwf1].
    apply dict_set_well_formed; [|exact Hid | exact Hwf1].
    exact (dict_in_clean_key branch params1 Hwf1 Ein). }
  assert (Hhead : exists tl2, params2 = ("HEAD", commit_id) :: tl2).
  { destruct (dict_set_at_first params "HEAD" commit_id Hkey) as [tl1 Etl1].
    rewrite Etl1 in E1. subst params1.
    destruct (dict_set_after_first "HEAD" commit_id branch tl1) as [tl' Etl'].
    destruct (dict_in branch (("HEAD", commit_id) :: tl1)); subst params2;
      eauto. }
  destruct Hhead as [tl2 Ehead].
  injection H as <-.
  change (fun kv : string * string => (fst kv ++ String "="%char (snd kv))%string)
    with (fun kv : string * string => (fst kv ++ "=" ++ snd kv)%string).
  assert (Hread : read_file
                    (write_file "references.txt"
                       (join_lines
                          (map (fun kv => (fst kv ++ "=" ++ snd kv)%string) params2))
                       images) "references.txt"
                  = Ok (join_lines
                          (map (fun kv => (fst kv ++ "=" ++ snd kv)%string) params2))).
  { unfold read_file, write_file. now rewrite lookup_set_entry_same. }
  unfold get_head_commit_id. rewrite Hread. cbn [bind].
  rewrite splitlines_join by (apply binding_lines_clean; apply Hwf2).
  rewrite Ehead. cbn [map fst snd tl py_index nth_error bind].
  unfold clean_field in Hid. apply andb_true_iff in Hid as [Hlb Heq].
  split.
  - change ("HEAD" ++ "=" ++ commit_id)%string with ("HEAD=" ++ commit_id)%string.
    rewrite (split_head_line commit_id Heq). reflexivity.
  - exists before, tl2. split; [exact Hbefore|].
    destruct Hwf2 as [Hnd2 Hall2]. rewrite Ehead in Hnd2, Hall2.
    cbn [map fst] in Hnd2. inversion Hnd2 as [|? ? _ Hnd]; subst.
    inversion Hall2 as [|? ? _ Hall]; subst.
    split.
    + unfold read_bindings.
      rewrite (read_bindings_lines tl2 [] Hnd); [reflexivity | | exact Hall].
      intros k _ [].
    + intros name Hname.
      assert (Hparams : dict_get name params = dict_get name before).
      { apply Hsame. cbn [dict_get].
        destruct (String.eqb_spec "HEAD" name); [congruence | reflexivity]. }
      assert (H1 : dict_get name (dict_set "HEAD" commit_id params)
                   = dict_get name before).
      { rewrite dict_get_dict_set.
        destruct (String.eqb_spec "HEAD" name); [congruence | exact Hparams]. }
      assert (H2 : dict_get name tl2
                   = dict_get name
                       (if dict_in branch (dict_set "HEAD" commit_id params)
                        then dict_set branch commit_id
                               (dict_set "HEAD" commit_id params)
                        else dict_set "HEAD" commit_id params)).
      { rewrite Ehead. cbn [dict_get].
        destruct (String.eqb_spec "HEAD" name); [congruence | reflexivity]. }
      rewrite H2.
      destruct (String.eqb_spec name branch) as [<-|Hnb]; cbn [andb].
      * unfold dict_in at 1 2. rewrite H1.
        destruct (dict_get name before) eqn:Eb.
        -- rewrite dict_get_dict_set. now rewrite String.eqb_refl.
        -- exact H1.
      * destruct (dict_in branch (dict_set "HEAD" commit_id params));
          [|exact H1].
        rewrite dict_get_dict_set.
        destruct (String.eqb_spec branch name); [congruence | exact H1].
Qed.

(** X9: [update_references], read back.  On a reference file that starts
    with the HEAD line, and for an identifier without line boundary or
    [=]: HEAD is the identifier afterwards; the given branch is bound to
    it when it was bound before and is not created otherwise; every other
    branch keeps its commit. *)
Theorem update_references_read_back (images images' : entries)
    (commit_id branch : string) :
  head_line_first images = true ->
  clean_field commit_id = true ->
  update_references images commit_id branch = Ok images' ->
  get_head_commit_id images' = Ok commit_id
  /\ exists before after,
      get_branches images = Ok before
      /\ get_branches images' = Ok after
      /\ forall name,
          name <> "HEAD" ->
          dict_get name after
          = if (name =? branch) && dict_in name before then Some commit_id
            else dict_get name before.
Proof. exact (update_references_bindings images images' commit_id branch). Qed.

Lemma update_references_read_back_witness :
  get_head_commit_id
    (write_file "references.txt"
       ("HEAD=" ++ id3 ++ NL ++ "master=" ++ id3 ++ NL ++ "feature=" ++ id2)
       (images_of notes_repo)) = Ok id3
  /\ exists before after,
      get_branches (images_of notes_repo) = Ok before
      /\ get_branches
           (write_file "references.txt"
              ("HEAD=" ++ id3 ++ NL ++ "master=" ++ id3 ++ NL ++ "feature=" ++ id2)
              (images_of notes_repo)) = Ok after
      /\ forall name,
          name <> "HEAD" ->
          dict_get name after
          = if (name =? "master") && dict_in name before then Some id3
            else dict_get name before.
Proof.
  apply (update_references_read_back (images_of notes_repo) _ id3 "master");
    reflexivity.
Defined.

(** ** The directory comparison, characterised *)

Lemma ltb_length_nil {A : Type} (l : list A) :
  (0 <? length l)%nat = false <-> l = [].
Proof. destruct l; cbn; split; congruence. Qed.

Lemma filter_nil_inv {A : Type} (f : A -> bool) (l : list A) :
  filter f l = [] -> forall x, In x l -> f x = false.
Proof.
  induction l as [|y l IH]; intros H x Hx; [destruct Hx|].
  cbn [filter] in H. destruct (f y) eqn:E; [discriminate|].
  destruct Hx as [<-|Hx]; [exact E | now apply IH].
Qed.

Lemma lookup_In_names (n : string) (es : entries) (x : node) :
  lookup n es = Some x -> In n (names es).
Proof.
  induction es as [|[m y] es IH]; cbn [lookup names map fst]; [discriminate|].
  destruct (String.eqb_spec m n) as [->|_]; [now left | right; now apply IH].
Qed.

Lemma In_names_lookup (n : string) (es : entries) :
  In n (names es) -> exists x, lookup n es = Some x.
Proof.
  induction es as [|[m y] es IH]; cbn [lookup names map fst]; [intros []|].
  destruct (String.eqb_spec m n) as [->|Hne]; [eauto|].
  intros [E|H]; [congruence | now apply IH].
Qed.

Lemma listing_visible (n : string) (es : entries) :
  In n (listing es) <-> In n (names es) /\ ignored n = false.
Proof. apply listing_In. Qed.

Lemma left_only_nil (es1 es2 : entries) :
  left_only es1 es2 = []
  <-> forall n, ignored n = false -> In n (names es1) -> In n (names es2).
Proof.
  unfold left_only. split.
  - intros H n Hv Hn.
    assert (Hl : In n (listing es1)) by (apply listing_visible; now split).
    pose proof (filter_nil_inv _ _ H n Hl) as Hf.
    apply negb_false_iff, str_in_In, listing_visible in Hf. tauto.
  - intros H. apply filter_nil. intros n Hn. apply negb_false_iff, str_in_In.
    apply listing_visible in Hn as [Hn Hv]. apply listing_visible. auto.
Qed.

Lemma common_In (n : string) (es1 es2 : entries) :
  In n (common es1 es2)
  <-> ignored n = false /\ In n (names es1) /\ In n (names es2).
Proof.
  unfold common. rewrite filter_In, str_in_In, !listing_visible. tauto.
Qed.

Lemma common_files_In (n : string) (es1 es2 : entries) :
  In n (common_files es1 es2)
  <-> ignored n = false
      /\ exists c1 c2, lookup n es1 = Some (File c1)
                       /\ lookup n es2 = Some (File c2).
Proof.
  unfold common_files. rewrite filter_In, common_In, andb_true_iff. split.
  - intros [(Hv & _ & _) [H1 H2]]. split; [exact Hv|].
    destruct (isfile_lookup _ _ H1) as [c1 E1].
    destruct (isfile_lookup _ _ H2) as [c2 E2]. eauto.
  - intros (Hv & c1 & c2 & E1 & E2). unfold isfile. rewrite E1, E2.
    repeat split; eauto using lookup_In_names.
Qed.

Lemma common_dirs_In (n : string) (es1 es2 : entries) :
  In n (common_dirs es1 es2)
  <-> ignored n = false
      /\ exists s1 s2, lookup n es1 = Some (Dir s1)
                       /\ lookup n es2 = Some (Dir s2).
Proof.
  unfold common_dirs. rewrite filter_In, common_In, andb_true_iff. split.
  - intros [(Hv & _ & _) [H1 H2]]. split; [exact Hv|].
    destruct (isdir_lookup _ _ H1) as [s1 E1].
    destruct (isdir_lookup _ _ H2) as [s2 E2]. eauto.
  - intros (Hv & s1 & s2 & E1 & E2). unfold isdir. rewrite E1, E2.
    repeat split; eauto using lookup_In_names.
Qed.

Lemma mismatch_nil (es1 es2 : entries) :
  mismatch es1 es2 = []
  <-> forall n c1 c2,
        ignored n = false ->
        lookup n es1 = Some (File c1) -> lookup n es2 = Some (File c2) ->
        c1 = c2.
Proof.
  unfold mismatch. split.
  - intros H n c1 c2 Hv E1 E2.
    assert (Hn : In n (common_files es1 es2))
      by (apply common_files_In; eauto).
    pose proof (filter_nil_inv _ _ H n Hn) as Hf. cbv beta in Hf.
    rewrite E1, E2 in Hf. apply negb_false_iff in Hf.
    now apply String.eqb_eq.
  - intros H. apply filter_nil. intros n Hn.
    apply common_files_In in Hn as (Hv & c1 & c2 & E1 & E2).
    rewrite E1, E2, (H n c1 c2 Hv E1 E2). now rewrite String.eqb_refl.
Qed.

Lemma for_dirs_agree (es1 es2 : entries) (dirs : list string) :
  (forall d, In d dirs ->
     exists s1 s2 b,
       lookup d es1 = Some (Dir s1) /\ lookup d es2 = Some (Dir s2)
       /\ are_dir_trees_equal (Dir s1) (Dir s2) = Ok b
       /\ (b = true <-> agree (Dir s1) (Dir s2))) ->
  exists b,
    (fix for_dirs (dirs : list string) : result bool :=
       match dirs with
       | [] => Ok true
       | common_dir :: dirs' =>
           match on_child are_dir_trees_equal es1 common_dir,
                 lookup common_dir es2 with
           | Some equal_below, Some new_dir2 =>
               do same <- equal_below new_dir2;
               if negb same then Ok false else for_dirs dirs'
           | _, _ => Raise OSError
           end
       end) dirs = Ok b
    /\ (b = true
        <-> forall d s1 s2,
              In d dirs ->
              lookup d es1 = Some (Dir s1) -> lookup d es2 = Some (Dir s2) ->
              agree (Dir s1) (Dir s2)).
Proof.
  induction dirs as [|d dirs IH]; intros H.
  - exists true. split; [reflexivity|]. split; [intros _ d s1 s2 []|reflexivity].
  - destruct (H d (or_introl eq_refl)) as (s1 & s2 & b & E1 & E2 & Eb & Hb).
    destruct IH as (b' & Eb' & Hb'); [intros d' Hd'; apply H; now right|].
    rewrite on_child_lookup, E1, E2. cbn [option_map]. rewrite Eb.
    cbn [bind]. destruct b; cbn [negb].
    + exists b'. split; [exact Eb'|]. rewrite Hb'. split.
      * intros Hall d' t1 t2 [<-|Hd'] F1 F2; [|now apply (Hall d')].
        rewrite E1 in F1. rewrite E2 in F2.
        injection F1 as <-. injection F2 as <-. now apply Hb.
      * intros Hall d' t1 t2 Hd'. apply Hall. now right.
    + exists false. split; [reflexivity|]. split; [discriminate|].
      intros Hall. apply Hb. apply (Hall d); [now left | exact E1 | exact E2].
Qed.

Lemma are_dir_trees_equal_agree :
  forall (t1 : node) (es1 : entries),
    t1 = Dir es1 ->
    forall es2 : entries,
    exists b,
      are_dir_trees_equal (Dir es1) (Dir es2) = Ok b
      /\ (b = true <-> agree (Dir es1) (Dir es2)).
Proof.
  induction t1 as [content|es IH] using node_rect_entries;
    intros es1 Heq es2; [discriminate|].
  injection Heq as <-. cbn [are_dir_trees_equal].
  change (0 <? length (funny_files es es2))%nat with false.
  change (0 <? length (errors es es2))%nat with false.
  rewrite !orb_false_r.
  destruct (0 <? length (left_only es es2))%nat eqn:El; cbn [orb].
  { exists false. split; [reflexivity|]. split; [discriminate|].
    intros Ha. inversion Ha as [? ? Hn _ _]; subst.
    assert (left_only es es2 = [])
      by (apply left_only_nil; intros n Hv; now apply Hn).
    apply ltb_length_nil in H. congruence. }
  destruct (0 <? length (right_only es es2))%nat eqn:Er.
  { exists false. split; [reflexivity|]. split; [discriminate|].
    intros Ha. inversion Ha as [? ? Hn _ _]; subst.
    assert (left_only es2 es = [])
      by (apply left_only_nil; intros n Hv; now apply Hn).
    apply ltb_length_nil in H. unfold right_only in Er. unfold left_only in H.
    congruence. }
  destruct (0 <? length (mismatch es es2))%nat eqn:Em.
  { exists false. split; [reflexivity|]. split; [discriminate|].
    intros Ha. inversion Ha as [? ? _ Hf _]; subst.
    assert (mismatch es es2 = []) by (now apply mismatch_nil).
    apply ltb_length_nil in H. congruence. }
  apply ltb_length_nil in El, Er, Em.
  destruct (for_dirs_agree es es2 (common_dirs es es2)) as (b & Eb & Hb).
  { intros d Hd. apply common_dirs_In in Hd as (_ & s1 & s2 & E1 & E2).
    pose proof (lookup_Forall
                  (fun t => forall es1, t = Dir es1 -> forall es2,
                     exists b, are_dir_trees_equal (Dir es1) (Dir es2) = Ok b
                               /\ (b = true <-> agree (Dir es1) (Dir es2)))
                  _ _ _ IH E1) as Hsub. cbv beta in Hsub.
    destruct (Hsub s1 eq_refl s2) as (b & Eb & Hb).
    exists s1, s2, b. auto. }
  exists b. split; [exact Eb|]. rewrite Hb. split.
  - intros Hall. constructor.
    + intros n Hv. split.
      * now apply (proj1 (left_only_nil es es2) El).
      * apply (proj1 (left_only_nil es2 es)); [exact Er | exact Hv].
    + now apply mismatch_nil.
    + intros n s1 s2 Hv E1 E2. apply (Hall n); [|exact E1 | exact E2].
      apply common_dirs_In. eauto.
  - intros Ha d s1 s2 Hd E1 E2. inversion Ha as [? ? _ _ Hdirs]; subst.
    apply common_dirs_In in Hd as [Hv _]. now apply (Hdirs d).
Qed.

(** X10: [are_dir_trees_equal] always returns on two directories, and returns
    [True] exactly when they agree: the same names at every level apart
    from the ignored ones, equal contents for two regular files of one
    name, agreement for two directories of one name. *)
Theorem are_dir_trees_equal_characterised (es1 es2 : entries) :
  exists b,
    are_dir_trees_equal (Dir es1) (Dir es2) = Ok b
    /\ (b = true <-> agree (Dir es1) (Dir es2)).
Proof. exact (are_dir_trees_equal_agree (Dir es1) es1 eq_refl es2). Qed.

Lemma names_lookup (n : string) (es : entries) :
  In n (names es) <-> exists x, lookup n es = Some x.
Proof.
  split; [apply In_names_lookup|]. intros [x E]. now apply (lookup_In_names n es x).
Qed.

Lemma agree_lookup (es1 es1' es2 es2' : entries) :
  (forall m, ignored m = false -> lookup m es1' = lookup m es1) ->
  (forall m, ignored m = false -> lookup m es2' = lookup m es2) ->
  agree (Dir es1) (Dir es2) -> agree (Dir es1') (Dir es2').
Proof.
  intros H1 H2 Ha. inversion Ha as [? ? Hn Hf Hd]; subst. constructor.
  - intros n Hv. rewrite !names_lookup, (H1 n Hv), (H2 n Hv), <- !names_lookup.
    now apply Hn.
  - intros n c1 c2 Hv. rewrite (H1 n Hv), (H2 n Hv). now apply Hf.
  - intros n s1 s2 Hv. rewrite (H1 n Hv), (H2 n Hv). now apply Hd.
Qed.

Lemma lookup_ignored_head (n m : string) (x : node) (es : entries) :
  ignored n = true -> ignored m = false ->
  lookup m ((n, x) :: es) = lookup m es.
Proof.
  intros Hn Hm. cbn [lookup].
  destruct (String.eqb_spec n m) as [->|_]; [congruence | reflexivity].
Qed.

Lemma are_dir_trees_equal_lookup (es1 es1' es2 es2' : entries) :
  (forall m, ignored m = false -> lookup m es1' = lookup m es1) ->
  (forall m, ignored m = false -> lookup m es2' = lookup m es2) ->
  are_dir_trees_equal (Dir es1') (Dir es2')
  = are_dir_trees_equal (Dir es1) (Dir es2).
Proof.
  intros H1 H2.
  destruct (are_dir_trees_equal_agree (Dir es1) es1 eq_refl es2)
    as (b & -> & Hb).
  destruct (are_dir_trees_equal_agree (Dir es1') es1' eq_refl es2')
    as (b' & -> & Hb').
  f_equal.
  assert (Hiff : agree (Dir es1') (Dir es2') <-> agree (Dir es1) (Dir es2)).
  { split; apply agree_lookup; auto; intros m Hm; symmetry; auto. }
  destruct b, b'; try reflexivity.
  - apply Hb'. apply Hiff. now apply Hb.
  - symmetry. apply Hb. apply Hiff. now apply Hb'.
Qed.

(** X11: An entry whose name [filecmp] ignores ([RCS], [CVS], [tags], [.git],
    [.hg], [.bzr], [_darcs], [__pycache__]) makes no difference to
    [are_dir_trees_equal], on either side and whatever it holds. *)
Theorem are_dir_trees_equal_ignored_name (n : string) (x : node)
    (es1 es2 : entries) :
  ignored n = true ->
  are_dir_trees_equal (Dir es1) (Dir ((n, x) :: es2))
  = are_dir_trees_equal (Dir es1) (Dir es2)
  /\ are_dir_trees_equal (Dir ((n, x) :: es1)) (Dir es2)
     = are_dir_trees_equal (Dir es1) (Dir es2).
Proof.
  intros Hn. split; apply are_dir_trees_equal_lookup; intros m Hm;
    try reflexivity; now apply lookup_ignored_head.
Qed.

Lemma are_dir_trees_equal_ignored_name_witness :
  are_dir_trees_equal (Dir [("a.txt", File "hello")])
    (Dir [("tags", File "new"); ("a.txt", File "hello")])
  = are_dir_trees_equal (Dir [("a.txt", File "hello")])
      (Dir [("a.txt", File "hello")])
  /\ are_dir_trees_equal
       (Dir [("tags", File "new"); ("a.txt", File "hello")])
       (Dir [("a.txt", File "hello")])
     = are_dir_trees_equal (Dir [("a.txt", File "hello")])
         (Dir [("a.txt", File "hello")]).
Proof.
  apply (are_dir_trees_equal_ignored_name "tags" (File "new")
           [("a.txt", File "hello")] [("a.txt", File "hello")]).
  reflexivity.
Defined.

Lemma agree_refl : forall (t : node) (es : entries),
  t = Dir es -> agree (Dir es) (Dir es).
Proof.
  induction t as [content|es0 IH] using node_rect_entries;
    intros es Heq; [discriminate|].
  injection Heq as <-. constructor.
  - reflexivity.
  - intros n c1 c2 _ E1 E2. congruence.
  - intros n s1 s2 _ E1 E2. rewrite E1 in E2. injection E2 as <-.
    exact (lookup_Forall
             (fun t => forall es, t = Dir es -> agree (Dir es) (Dir es))
             _ _ _ IH E1 s1 eq_refl).
Qed.

(** X12: A name that is a regular file in one directory and a directory in
    the other is no difference for [are_dir_trees_equal]: two directories
    that are otherwise identical compare equal. *)
Theorem are_dir_trees_equal_file_against_dir (n content : string)
    (sub es : entries) :
  are_dir_trees_equal (Dir ((n, File content) :: es))
    (Dir ((n, Dir sub) :: es)) = Ok true
  /\ are_dir_trees_equal (Dir ((n, Dir sub) :: es))
       (Dir ((n, File content) :: es)) = Ok true.
Proof.
  assert (Ha : forall x y : node,
             (forall c s, x = File c -> y = Dir s -> True) ->
             (forall c1 c2, x = File c1 -> y = File c2 -> False) ->
             (forall s1 s2, x = Dir s1 -> y = Dir s2 -> False) ->
             agree (Dir ((n, x) :: es)) (Dir ((n, y) :: es))).
  { intros x y _ Hff Hdd. constructor.
    - intros m _. reflexivity.
    - intros m c1 c2 _. cbn [lookup].
      destruct (String.eqb_spec n m) as [_|_].
      + intros E1 E2. injection E1 as ->. injection E2 as ->.
        destruct (Hff c1 c2 eq_refl eq_refl).
      + congruence.
    - intros m s1 s2 _. cbn [lookup].
      destruct (String.eqb_spec n m) as [_|_].
      + intros E1 E2. injection E1 as ->. injection E2 as ->.
        destruct (Hdd s1 s2 eq_refl eq_refl).
      + intros E1 E2. rewrite E1 in E2. injection E2 as <-.
        assert (Hs : agree (Dir es) (Dir es)) by now apply (agree_refl (Dir es)).
        inversion Hs as [? ? _ _ Hd]; subst.
        destruct (ignored m) eqn:Em.
        * now apply (agree_refl (Dir s1)).
        * now apply (Hd m). }
  split.
  - destruct (are_dir_trees_equal_agree (Dir ((n, File content) :: es))
                ((n, File content) :: es) eq_refl ((n, Dir sub) :: es))
      as (b & -> & Hb). f_equal. apply Hb. apply Ha; try discriminate; auto.
  - destruct (are_dir_trees_equal_agree (Dir ((n, Dir sub) :: es))
                ((n, Dir sub) :: es) eq_refl ((n, File content) :: es))
      as (b & -> & Hb). f_equal. apply Hb. apply Ha; try discriminate; auto.
Qed.

(** ** Trees without differences *)

Lemma for_each_unchanged {A S : Type} (body : S -> A -> result S)
    (xs : list A) (acc : S) :
  (forall x, In x xs -> body acc x = Ok acc) -> for_each body xs acc = Ok acc.
Proof.
  induction xs as [|x xs IH]; intros H; [reflexivity|].
  cbn [for_each]. rewrite (H x (or_introl eq_refl)). cbn [bind].
  apply IH. intros y Hy. apply H. now right.
Qed.

Lemma same_tree_same_names (t1 t2 : node) :
  same_tree t1 t2 -> same_names t1 t2.
Proof.
  induction 1 as [content|es1 es2 Hn Hsub IH]; constructor; auto.
Qed.

Lemma get_dirs_diffs_nothing :
  forall (t1 : node) (es1 : entries),
    t1 = Dir es1 ->
    forall (es2 : entries) (by_content : bool),
      (if by_content then same_tree (Dir es1) (Dir es2)
       else same_names (Dir es1) (Dir es2)) ->
      forall (dir2 : string) (changes : list string),
        get_dirs_diffs (Dir es1) dir2 (Dir es2) changes by_content = Ok changes.
Proof.
  induction t1 as [content|es IH] using node_rect_entries;
    intros es1 Heq es2 by_content Hsame dir2 changes; [discriminate|].
  injection Heq as <-. cbn [get_dirs_diffs].
  assert (Hnone : (if by_content
                   then changes ++ map (os_path_join dir2) (mismatch es es2)
                   else changes ++ map (os_path_join dir2) (right_only es es2))
                  = changes).
  { destruct by_content.
    - inversion Hsame as [|? ? _ Hsub]; subst.
      assert (Hm : mismatch es es2 = []).
      { apply mismatch_nil. intros n c1 c2 _ E1 E2.
        pose proof (Hsub n _ _ E1 E2) as Hc. now inversion Hc. }
      rewrite Hm. cbn [map]. apply app_nil_r.
    - inversion Hsame as [|? ? Hn _]; subst.
      assert (Hr : left_only es2 es = [])
        by (apply left_only_nil; intros n _; apply Hn).
      unfold left_only in Hr. unfold right_only. rewrite Hr. cbn [map].
      apply app_nil_r. }
  rewrite Hnone. apply for_each_unchanged. intros d Hd.
  apply common_dirs_In in Hd as (_ & s1 & s2 & E1 & E2).
  rewrite on_child_lookup, E1, E2. cbn [option_map].
  apply (lookup_Forall
           (fun t => forall es1, t = Dir es1 ->
              forall (es2 : entries) (by_content : bool),
                (if by_content then same_tree (Dir es1) (Dir es2)
                 else same_names (Dir es1) (Dir es2)) ->
                forall dir2 changes,
                  get_dirs_diffs (Dir es1) dir2 (Dir es2) changes by_content
                  = Ok changes)
           _ _ _ IH E1 s1 eq_refl).
  destruct by_content.
  - inversion Hsame as [|? ? _ Hsub]; subst. exact (Hsub d _ _ E1 E2).
  - inversion Hsame as [|? ? _ Hsub]; subst. exact (Hsub d _ _ E1 E2).
Qed.

(** X13: Between two identical directory trees [get_dirs_diffs] finds nothing,
    by presence and by content. *)
Theorem get_dirs_diffs_identical (es1 es2 : entries) (dir2 : string) :
  same_tree (Dir es1) (Dir es2) ->
  get_dirs_diffs (Dir es1) dir2 (Dir es2) [] false = Ok []
  /\ get_dirs_diffs (Dir es1) dir2 (Dir es2) [] true = Ok [].
Proof.
  intros H. split.
  - apply (get_dirs_diffs_nothing (Dir es1) es1 eq_refl es2 false).
    now apply same_tree_same_names.
  - now apply (get_dirs_diffs_nothing (Dir es1) es1 eq_refl es2 true).
Qed.

Lemma get_dirs_diffs_identical_witness :
  get_dirs_diffs
    (Dir [("a.txt", File "hello"); ("src", Dir [("m.py", File "x")])])
    "/home/user/project"
    (Dir [("src", Dir [("m.py", File "x")]); ("a.txt", File "hello")])
    [] false = Ok []
  /\ get_dirs_diffs
       (Dir [("a.txt", File "hello"); ("src", Dir [("m.py", File "x")])])
       "/home/user/project"
       (Dir [("src", Dir [("m.py", File "x")]); ("a.txt", File "hello")])
       [] true = Ok [].
Proof.
  apply (get_dirs_diffs_identical
           [("a.txt", File "hello"); ("src", Dir [("m.py", File "x")])]
           [("src", Dir [("m.py", File "x")]); ("a.txt", File "hello")]).
  constructor.
  - cbn. tauto.
  - intros n x1 x2. cbn [lookup].
    destruct (String.eqb_spec "a.txt" n) as [<-|_].
    + cbn. intros E1 E2. injection E1 as <-. injection E2 as <-. constructor.
    + destruct (String.eqb_spec "src" n) as [_|_]; cbv iota.
      * intros E1 E2. injection E1 as <-. injection E2 as <-.
        apply same_tree_refl.
      * intros E. discriminate E.
Defined.

(** X14: The comparison by presence looks at names only: between two trees
    that hold the same names it finds nothing, however the contents of
    the files differ. *)
Theorem diff_presence_same_names (es1 es2 : entries) (dir2 : string) :
  same_names (Dir es1) (Dir es2) ->
  get_dirs_diffs (Dir es1) dir2 (Dir es2) [] false = Ok [].
Proof.
  intros H.
  now apply (get_dirs_diffs_nothing (Dir es1) es1 eq_refl es2 false).
Qed.

Lemma diff_presence_same_names_witness :
  get_dirs_diffs (Dir [("a.txt", File "hello")])
    "/home/user/project/.wit/staging_area"
    (Dir [("a.txt", File "changed")]) [] false = Ok [].
Proof.
  apply (diff_presence_same_names [("a.txt", File "hello")]
           [("a.txt", File "changed")]).
  constructor.
  - cbn. tauto.
  - intros n x1 x2. cbn [lookup].
    destruct (String.eqb_spec "a.txt" n) as [_|_]; cbv iota.
    + intros E1 E2. injection E1 as <-. injection E2 as <-. constructor.
    + intros E. discriminate E.
Defined.

(** ** What the commands leave alone *)

Section Preserves.
Variable R : repository -> repository -> Prop.
Hypothesis R_refl : forall r, R r r.
Hypothesis R_trans : forall r1 r2 r3, R r1 r2 -> R r2 r3 -> R r1 r3.

Lemma preserves_ret {A : Type} (a : A) : preserves R (ret a).
Proof. intros r out r' out' res H. injection H as <- _ _. apply R_refl. Qed.

Lemma preserves_lift {A : Type} (x : result A) : preserves R (lift x).
Proof. intros r out r' out' res H. injection H as <- _ _. apply R_refl. Qed.

Lemma preserves_get : preserves R get.
Proof. intros r out r' out' res H. injection H as <- _ _. apply R_refl. Qed.

Lemma preserves_print (m : message) : preserves R (print m).
Proof. intros r out r' out' res H. injection H as <- _ _. apply R_refl. Qed.

Lemma preserves_cbind {A B : Type} (c : cmd A) (k : A -> cmd B) :
  preserves R c -> (forall a, preserves R (k a)) -> preserves R (cbind c k).
Proof.
  intros Hc Hk r out r' out' res H. unfold cbind in H.
  destruct (c r out) as [[r1 out1] [a|e]] eqn:E.
  - exact (R_trans _ _ _ (Hc _ _ _ _ _ E) (Hk a _ _ _ _ _ H)).
  - injection H as <- _ _. exact (Hc _ _ _ _ _ E).
Qed.

Lemma preserves_try_os {A : Type} (c handler : cmd A) :
  preserves R c -> preserves R handler -> preserves R (try_os c handler).
Proof.
  intros Hc Hh r out r' out' res H. unfold try_os in H.
  destruct (c r out) as [[r1 out1] [a|e]] eqn:E.
  - injection H as <- _ _. exact (Hc _ _ _ _ _ E).
  - destruct e; try (injection H as <- _ _; exact (Hc _ _ _ _ _ E)).
    exact (R_trans _ _ _ (Hc _ _ _ _ _ E) (Hh _ _ _ _ _ H)).
Qed.

Lemma preserves_for_items {A : Type} (body : A -> cmd unit) (items : list A) :
  (forall item, preserves R (body item)) -> preserves R (for_items body items).
Proof.
  intros Hb. induction items as [|item items IH]; cbn [for_items].
  - apply preserves_ret.
  - apply preserves_cbind; [apply Hb | intros _; exact IH].
Qed.

End Preserves.

Lemma work_kept_refl (r : repository) : work_kept r r.
Proof. repeat split. Qed.

Lemma work_kept_trans (r1 r2 r3 : repository) :
  work_kept r1 r2 -> work_kept r2 r3 -> work_kept r1 r3.
Proof.
  unfold work_kept. intros (a & b & c) (d & e & f).
  repeat split; try congruence. intros n Hn. now rewrite f, c.
Qed.

Lemma untouched_refl (r : repository) : untouched r r.
Proof. split; [apply work_kept_refl | reflexivity]. Qed.

Lemma untouched_trans (r1 r2 r3 : repository) :
  untouched r1 r2 -> untouched r2 r3 -> untouched r1 r3.
Proof.
  intros [a b] [c d]. split; [exact (work_kept_trans _ _ _ a c) | congruence].
Qed.

Lemma preserves_weaken {A : Type} (c : cmd A) :
  preserves untouched c -> preserves work_kept c.
Proof. intros H r out r' out' res E. exact (proj1 (H _ _ _ _ _ E)). Qed.

Lemma preserves_put_images (es : entries) : preserves untouched (put_images es).
Proof.
  intros r out r' out' res H.
  destruct (node_at IMAGES r) as [[c|old]|] eqn:E;
    try (unfold put_images in H; rewrite E in H; injection H as <- _ _;
         apply untouched_refl).
  destruct (put_images_spec es old r out E)
    as (r'' & Hrun & _ & _ & Hh & Hs & Ha & Hout).
  rewrite Hrun in H. injection H as <- _ _. repeat split; auto.
Qed.

Lemma preserves_put_staging (x : node) :
  preserves work_kept (put_node STAGING_AREA x).
Proof.
  intros r out r' out' res H. unfold put_node, STAGING_AREA in H.
  cbn [set_node] in H.
  destruct (lookup ".wit" (home r)) as [[c|wit]|] eqn:Ew;
    try (injection H as <- _ _; apply work_kept_refl).
  injection H as <- _ _.
  unfold work_kept, get_activated_branch, dir_at, node_at, WIT.
  cbn [get_node home home_dir].
  rewrite lookup_set_entry_same, Ew. unfold read_file.
  rewrite lookup_set_entry_other by discriminate.
  repeat split. intros n Hn. now apply lookup_set_entry_other.
Qed.

Lemma preserves_status (checkout : bool) :
  preserves (fun r r' => r' = r) (status checkout).
Proof.
  unfold status.
  repeat first
    [ apply preserves_cbind; [congruence | | intros ?]
    | apply preserves_ret; reflexivity
    | apply preserves_lift; reflexivity
    | apply preserves_get; reflexivity
    | apply preserves_print; reflexivity
    | match goal with
      | |- preserves _ (if ?b then _ else _) => destruct b
      end ].
Qed.

Lemma preserves_commit (date fresh_id msg : string)
    (second_parent : option string) :
  preserves untouched (commit date fresh_id msg second_parent).
Proof.
  unfold commit, create_image_dir, create_meta_data.
  repeat first
    [ apply preserves_cbind; [apply untouched_trans | | intros ?]
    | apply preserves_ret; apply untouched_refl
    | apply preserves_lift; apply untouched_refl
    | apply preserves_get; apply untouched_refl
    | apply preserves_print; apply untouched_refl
    | apply preserves_put_images
    | match goal with
      | |- preserves _ (if ?b then _ else _) => destruct b
      | |- preserves _ (match ?x with _ => _ end) => destruct x
      end ].
Qed.

(** X15: [status] never changes the repository, whatever it returns. *)
Theorem status_changes_nothing (checkout : bool) (r : repository)
    (out : list message) :
  final (status checkout r out) = r.
Proof.
  destruct (status checkout r out) as [[r' out'] res] eqn:E.
  exact (preserves_status checkout r out r' out' res E).
Qed.

(** X16: However [commit] ends, it has written below [.wit/images] only: the
    working tree, the staging area and the activated branch are as they
    were. *)
Theorem commit_writes_images_only (date fresh_id msg : string)
    (second_parent : option string) (r : repository) (out : list message) :
  let r' := final (commit date fresh_id msg second_parent r out) in
  home_dir r' = home_dir r
  /\ (forall n, n <> ".wit" -> lookup n (home r') = lookup n (home r))
  /\ node_at STAGING_AREA r' = node_at STAGING_AREA r
  /\ get_activated_branch r' = get_activated_branch r.
Proof.
  destruct (commit date fresh_id msg second_parent r out)
    as [[r' out'] res] eqn:E.
  destruct (preserves_commit date fresh_id msg second_parent r out r' out' res E)
    as [(Hh & Ha & Hw) Hs].
  cbn. auto.
Qed.

(** X17: However [merge] ends, the working tree (the log file apart, which
    is not part of the modelled tree) and the activated branch are as
    they were: the merged files go to the staging area and to the new
    commit only. *)
Theorem merge_leaves_working_tree (depth : nat) (date fresh_id param : string)
    (r : repository) (out : list message) :
  let r' := final (merge depth date fresh_id param r out) in
  home_dir r' = home_dir r
  /\ (forall n, n <> ".wit" -> lookup n (home r') = lookup n (home r))
  /\ get_activated_branch r' = get_activated_branch r.
Proof.
  assert (H : preserves work_kept (merge depth date fresh_id param)).
  { unfold merge.
    repeat first
      [ apply preserves_cbind; [apply work_kept_trans | | intros ?]
      | apply preserves_try_os; [apply work_kept_trans | | ]
      | apply preserves_for_items;
          [apply work_kept_refl | apply work_kept_trans | intros ?;
           unfold merge_copy ]
      | apply preserves_ret; apply work_kept_refl
      | apply preserves_lift; apply work_kept_refl
      | apply preserves_get; apply work_kept_refl
      | apply preserves_print; apply work_kept_refl
      | apply preserves_put_staging
      | apply preserves_weaken; apply preserves_put_images
      | apply preserves_weaken; apply preserves_commit
      | match goal with
        | |- preserves _ (if ?b then _ else _) => destruct b
        | |- preserves _ (match ?x with _ => _ end) => destruct x
        end ]. }
  destruct (merge depth date fresh_id param r out) as [[r' out'] res] eqn:E.
  destruct (H r out r' out' res E) as (Hh & Ha & Hw). cbn. auto.
Qed.

(** ** Checkouts and commits that are refused *)

(** X18: With a change to commit or a change not staged, [checkout] prints
    its warning and changes nothing. *)
Theorem checkout_blocked_by_changes (param : string) (r : repository)
    (out : list message)
    (changes_to_commit changes_not_staged untracked_files : list string) :
  status true r out
  = (r, out, Ok (Some (changes_to_commit, changes_not_staged, untracked_files))) ->
  changes_to_commit <> [] \/ changes_not_staged <> [] ->
  checkout param r out
  = (r, out ++ [Line "Can not complete the checkout. Make sure all changes made to the project are fully committed."],
     Ok tt).
Proof.
  intros Hst Hch. unfold checkout, cbind. rewrite Hst.
  destruct changes_to_commit as [|x xs]; [|reflexivity].
  destruct changes_not_staged as [|y ys]; [|reflexivity].
  destruct Hch as [H|H]; congruence.
Qed.

Lemma checkout_blocked_by_changes_witness :
  checkout "feature" staged_repo []
  = (staged_repo,
     [Line "Can not complete the checkout. Make sure all changes made to the project are fully committed."],
     Ok tt).
Proof.
  eapply (checkout_blocked_by_changes "feature" staged_repo []
            ["/home/user/project/.wit/staging_area/b.txt"]).
  - vm_compute. reflexivity.
  - left. discriminate.
Defined.

(** X19: In a repository without pending changes, a [checkout] of something
    that is no branch, and for which [os.path.join(images_dir, param)] is
    no directory (nothing is there, or a regular file), reports the failed
    copy, logs and prints the error, and changes nothing else. *)
Theorem checkout_unknown_target (param : string) (r : repository)
    (out : list message) (untracked_files : list string) (branches : dict)
    (found : option node) :
  status true r out = (r, out, Ok (Some ([], [], untracked_files))) ->
  get_branches (images_of r) = Ok branches ->
  dict_get param branches = None ->
  entry_at (images_of r) param = Ok found ->
  is_dir_node found = false ->
  checkout param r out
  = (r, out ++ [Line "Copy proccess aborted due to an error."]
          ++ [Logged OSError] ++ [ErrorText OSError], Ok tt).
Proof.
  intros Hst Hbr Hparam Hfound Hdir.
  assert (Hrefs : isfile (images_of r) "references.txt" = true).
  { unfold get_branches in Hbr.
    destruct (read_file (images_of r) "references.txt") as [text|e] eqn:E;
      [|discriminate].
    exact (read_file_isfile _ _ _ E). }
  unfold checkout, cbind. rewrite Hst. cbn [length Nat.ltb Nat.leb orb].
  unfold get, lift, ret. rewrite Hrefs. cbn [negb]. rewrite Hbr, Hparam, Hfound.
  unfold try_os, cbind, checkout_into, print, ret.
  destruct found as [[content|sub]|]; try discriminate.
  - cbn [execute_checkout fst snd]. unfold node_at. cbn [get_node set_node].
    destruct r as [h es]. cbn [home home_dir]. rewrite <- !app_assoc.
    reflexivity.
  - rewrite <- !app_assoc. reflexivity.
Qed.

Lemma checkout_unknown_target_witness :
  checkout "./nowhere" staged_clean_repo []
  = (staged_clean_repo,
     [Line "Copy proccess aborted due to an error."; Logged OSError;
      ErrorText OSError], Ok tt).
Proof.
  eapply (checkout_unknown_target "./nowhere" staged_clean_repo []
            ["/home/user/project/.wit"] [("master", id1)] None);
    vm_compute; reflexivity.
Defined.

(** X20: When [commit] goes on to create a snapshot and the identifier drawn
    is the name of an entry of the images directory, [os.mkdir] fails:
    [commit] raises and the repository is unchanged. *)
Theorem commit_identifier_taken (date fresh_id msg : string)
    (second_parent : option string) (r : repository) (out : list message)
    (x : node) :
  lookup fresh_id (images_of r) = Some x ->
  isfile (images_of r) "references.txt" = false
  \/ (exists head snapshot staging,
        isfile (images_of r) "references.txt" = true
        /\ get_head_commit_id (images_of r) = Ok head
        /\ lookup head (images_of r) = Some snapshot
        /\ node_at STAGING_AREA r = Some staging
        /\ are_dir_trees_equal snapshot staging = Ok false) ->
  commit date fresh_id msg second_parent r out = (r, out, Raise OSError).
Proof.
  intros Htaken Hgo. unfold commit, cbind, get, create_image_dir, cbind, get.
  destruct Hgo as [Hno|(head & snapshot & staging & Hrefs & Hh & Hs & Hst & He)].
  - rewrite Hno. unfold ret. rewrite Htaken. reflexivity.
  - rewrite Hrefs. unfold lift. rewrite Hh, Hs, Hst. cbn [the_node bind].
    rewrite He, Htaken. reflexivity.
Qed.

Lemma commit_identifier_taken_witness :
  commit "Fri" id1 "add b" None staged_repo []
  = (staged_repo, [], Raise OSError).
Proof.
  eapply (commit_identifier_taken "Fri" id1 "add b" None staged_repo []).
  - vm_compute. reflexivity.
  - right. exists id1, (Dir [("a.txt", File "hello")]),
      (Dir [("a.txt", File "hello"); ("b.txt", File "more")]).
    repeat split; vm_compute; reflexivity.
Defined.

(** ** What a commit records *)

Lemma string_app_assoc (a b c : string) :
  ((a ++ b) ++ c)%string = (a ++ b ++ c)%string.
Proof. induction a as [|x a IH]; cbn; congruence. Qed.

Lemma all_chars_app (p : ascii -> bool) (s t : string) :
  all_chars p (s ++ t) = all_chars p s && all_chars p t.
Proof.
  induction s as [|c s IH]; cbn [String.append all_chars]; [reflexivity|].
  now rewrite IH, andb_assoc.
Qed.

Lemma id_char_no_comma (c : ascii) :
  char_in c COMMIT_ID_CHARS = true -> Ascii.eqb c ","%char = false.
Proof.
  unfold COMMIT_ID_CHARS. cbn [char_in]. intros H.
  repeat (apply orb_true_iff in H as [H|H];
          [apply Ascii.eqb_eq in H; subst c; reflexivity|]).
  discriminate.
Qed.

Lemma commit_id_no_comma (s : string) :
  commit_id_ok s = true ->
  all_chars (fun c => negb (Ascii.eqb c ","%char)) s = true.
Proof.
  unfold commit_id_ok. intros H. apply andb_true_iff in H as [_ Hchars].
  revert Hchars. apply all_chars_impl.
  intros c Hc. now rewrite (id_char_no_comma c Hc).
Qed.

Lemma str_neq_app_txt (s : string) : s <> (s ++ ".txt")%string.
Proof.
  intros E. apply (f_equal String.length) in E.
  rewrite length_append in E. cbn in E. lia.
Qed.

Lemma split_nonempty (sep : ascii) (s : string) : split sep s <> [].
Proof.
  destruct s as [|c s]; cbn [split]; [discriminate|].
  destruct (Ascii.eqb c sep); [discriminate|].
  destruct (split sep s); discriminate.
Qed.

Lemma meta_line0 (parent d m : string) :
  no_linebreak parent = true ->
  py_index
    (splitlines (String.concat "" [("parent=" ++ parent ++ NL)%string; d; m])) 0
  = Ok ("parent=" ++ parent)%string.
Proof.
  intros Hp.
  change (String.concat "" [("parent=" ++ parent ++ NL)%string; d; m])
    with (("parent=" ++ parent ++ NL) ++ (d ++ m))%string.
  change ("parent=" ++ parent ++ NL)%string
    with ("parent=" ++ (parent ++ NL))%string.
  rewrite <- (string_app_assoc "parent=" parent NL).
  rewrite (string_app_assoc ("parent=" ++ parent) NL (d ++ m)).
  change (NL ++ (d ++ m))%string with (String LF (d ++ m)).
  rewrite (splitlines_app_LF _ (String.length ("parent=" ++ parent))) by lia.
  rewrite splitlines_single; [reflexivity | | discriminate].
  rewrite no_linebreak_app. now rewrite Hp.
Qed.

Lemma split_parent_line (parent : string) :
  no_equals parent = true ->
  split "="%char ("parent=" ++ parent) = ["parent"; parent].
Proof.
  intros H. pose proof (split_no_sep "="%char parent H) as E.
  cbn [String.append split]. rewrite E. reflexivity.
Qed.

Lemma get_parents_written (images : entries) (c parent d m : string) :
  lookup (c ++ ".txt") images
  = Some (File (String.concat "" [("parent=" ++ parent ++ NL)%string; d; m])) ->
  has_sep c = false ->
  no_linebreak parent = true ->
  no_equals parent = true ->
  get_parents images c
  = Ok (if hd "" (split ","%char parent) =? "None" then []
        else split ","%char parent).
Proof.
  intros Hl Hsep Hlb Heq. unfold get_parents.
  rewrite (read_path_meta images c Hsep). unfold read_file.
  rewrite Hl. cbn [bind].
  rewrite (meta_line0 parent d m Hlb). cbn [bind].
  rewrite (split_parent_line parent Heq). cbn [py_index nth_error bind].
  pose proof (split_nonempty ","%char parent) as Hne.
  destruct (split ","%char parent) as [|first rest]; [congruence|].
  cbn [py_index nth_error bind hd]. now destruct (first =? "None").
Qed.

Lemma create_meta_data_exact (date c msg : string)
    (second_parent : option string) (im : entries) (r r' : repository)
    (out out' : list message) (u : unit) :
  node_at IMAGES r = Some (Dir im) ->
  create_meta_data date c msg second_parent r out = (r', out', Ok u) ->
  out' = out /\ keeps r r'
  /\ exists parent,
      node_at IMAGES r'
      = Some (Dir (write_file (c ++ ".txt")
                     (String.concat ""
                        [("parent=" ++ parent ++ NL)%string;
                         ("date=" ++ date ++ NL)%string;
                         ("message=" ++ msg ++ NL)%string]) im))
      /\ (if isfile im "references.txt"
          then exists head,
                 get_head_commit_id im = Ok head
                 /\ parent = match second_parent with
                             | None => head
                             | Some second => (head ++ "," ++ second)%string
                             end
          else parent = "None").
Proof.
  intros Him H. unfold create_meta_data in H.
  apply cbind_ok in H as (x & ra & oa & Hg & H).
  apply get_ok in Hg as (-> & -> & ->). rewrite (images_of_at _ _ Him) in H.
  apply cbind_ok in H as (parent & rb & ob & Hpar & H).
  assert (Hparent : rb = r /\ ob = out
                    /\ (if isfile im "references.txt"
                        then exists head,
                               get_head_commit_id im = Ok head
                               /\ parent = match second_parent with
                                           | None => head
                                           | Some second =>
                                               (head ++ "," ++ second)%string
                                           end
                        else parent = "None")).
  { destruct (isfile im "references.txt").
    - apply cbind_ok in Hpar as (head & rc & oc & Hl & Hpar).
      apply lift_ok in Hl as (Hh & -> & ->).
      destruct second_parent; apply ret_ok in Hpar as (-> & -> & ->);
        repeat split; eauto.
    - apply ret_ok in Hpar as (-> & -> & ->). auto. }
  destruct Hparent as (-> & -> & Hparent).
  apply cbind_ok in H as (im' & rc & oc & Hw & H).
  apply lift_ok in Hw as (Hw & -> & ->).
  apply open_write_ok in Hw. subst im'.
  apply put_images_ok in H as (Himg & -> & Hk).
  split; [reflexivity|]. split; [exact Hk|]. eauto.
Qed.

Lemma commit_exact (date fresh_id msg : string) (second_parent : option string)
    (r r1 : repository) (out out1 : list message) (c : string)
    (im staged : entries) :
  node_at IMAGES r = Some (Dir im) ->
  node_at STAGING_AREA r = Some (Dir staged) ->
  commit_id_ok fresh_id = true ->
  commit date fresh_id msg second_parent r out = (r1, out1, Ok (Some c)) ->
  c = fresh_id
  /\ exists parent im3 im4 activated_branch,
      node_at IMAGES r1 = Some (Dir im4)
      /\ get_activated_branch r = Ok activated_branch
      /\ (forall n, n <> fresh_id -> n <> (fresh_id ++ ".txt")%string ->
                    lookup n im3 = lookup n im)
      /\ lookup (fresh_id ++ ".txt") im3
         = Some (File (String.concat ""
                         [("parent=" ++ parent ++ NL)%string;
                          ("date=" ++ date ++ NL)%string;
                          ("message=" ++ msg ++ NL)%string]))
      /\ (if isfile im "references.txt"
          then (exists head,
                  get_head_commit_id im = Ok head
                  /\ parent = match second_parent with
                              | None => head
                              | Some second => (head ++ "," ++ second)%string
                              end)
               /\ update_references im3 fresh_id activated_branch = Ok im4
          else parent = "None"
               /\ im4 = write_file "references.txt"
                          (join_lines [("HEAD=" ++ fresh_id)%string;
                                       ("master=" ++ fresh_id)%string]) im3).
Proof.
  intros Him Hst Hid H.
  destruct (commit_id_not_references fresh_id Hid) as [Hne1 Hne2].
  unfold commit in H. apply cbind_ok in H as (x & ra & oa & Hg & H).
  apply get_ok in Hg as (-> & -> & ->). rewrite (images_of_at _ _ Him) in H.
  apply cbind_ok in H as (unchanged & rb & ob & Hun & H).
  apply head_or_default_ok in Hun as [-> ->].
  2:{ intros s r0 o0 r' o' a' Hk. apply lift_ok in Hk as (_ & -> & ->). auto. }
  destruct unchanged.
  { apply cbind_ok in H as (u & rc & oc & Hp & H).
    apply ret_ok in H as (E & _ & _). discriminate. }
  apply cbind_ok in H as (commit_id & rc & oc & Hmk & H).
  destruct (create_image_dir_ok _ _ _ _ _ _ _ Him Hmk)
    as (-> & -> & Him1 & Hk1 & Hnew).
  clear Hmk. apply cbind_ok in H as (u & rd & od & Hmeta & H).
  destruct (create_meta_data_exact _ _ _ _ _ _ _ _ _ _ Him1 Hmeta)
    as (-> & Hk2 & parent & Him2 & Hparent).
  clear Hmeta. apply cbind_ok in H as (x & re & oe & Hg & H).
  apply get_ok in Hg as (-> & -> & ->).
  apply cbind_ok in H as (snapshot & rf & o6 & Hsnap & H).
  apply lift_ok in Hsnap as (Hsnap & -> & ->).
  assert (Hst3 : node_at STAGING_AREA rd = Some (Dir staged)).
  { destruct Hk1 as (_ & E1 & _), Hk2 as (_ & E2 & _). congruence. }
  assert (Es : snapshot = copy_tree (Dir staged))
    by (rewrite Hst3 in Hsnap; congruence).
  subst snapshot. clear Hsnap.
  rewrite (images_of_at _ _ Him2) in H.
  apply cbind_ok in H as (u2 & rg & og & Hput & H).
  apply put_images_ok in Hput as (Him3 & -> & Hk3).
  apply cbind_ok in H as (u3 & rh & oh & Hpr & H).
  apply print_ok in Hpr as [-> ->].
  apply cbind_ok in H as (act & ri & oi & Hact & H).
  apply lift_ok in Hact as (Hact & -> & ->).
  apply cbind_ok in H as (x & rj & oj & Hg & H).
  apply get_ok in Hg as (-> & -> & ->).
  rewrite (images_of_at _ _ Him3) in H.
  apply cbind_ok in H as (u4 & rk & ok & Hrefs & H).
  apply ret_ok in H as (E & -> & ->). injection E as ->.
  remember (set_entry fresh_id (copy_tree (Dir staged))
              (write_file (fresh_id ++ ".txt")
                 (String.concat ""
                    [("parent=" ++ parent ++ NL)%string;
                     ("date=" ++ date ++ NL)%string;
                     ("message=" ++ msg ++ NL)%string])
                 (im ++ [(fresh_id, Dir [])]))) as im3 eqn:E3.
  assert (Hother : forall n, n <> fresh_id -> n <> (fresh_id ++ ".txt")%string ->
                             lookup n im3 = lookup n im).
  { intros n H1 H2. subst im3. unfold write_file.
    rewrite !lookup_set_entry_other by auto. now apply lookup_app_last. }
  assert (Hmeta : lookup (fresh_id ++ ".txt") im3
                  = Some (File (String.concat ""
                                  [("parent=" ++ parent ++ NL)%string;
                                   ("date=" ++ date ++ NL)%string;
                                   ("message=" ++ msg ++ NL)%string]))).
  { subst im3. unfold write_file.
    rewrite lookup_set_entry_other
      by (intros E; symmetry in E; exact (str_neq_app_txt _ E)).
    apply lookup_set_entry_same. }
  assert (Hrefs1 : isfile (im ++ [(fresh_id, Dir [])]) "references.txt"
                   = isfile im "references.txt")
    by (unfold isfile; now rewrite lookup_app_last).
  assert (Hhead1 : get_head_commit_id (im ++ [(fresh_id, Dir [])])
                   = get_head_commit_id im)
    by (unfold get_head_commit_id, read_file; now rewrite lookup_app_last).
  assert (Hrefs3 : isfile im3 "references.txt" = isfile im "references.txt")
    by (unfold isfile; rewrite Hother; auto).
  assert (Hactr : get_activated_branch r = Ok act).
  { destruct Hk1 as (_ & _ & E1), Hk2 as (_ & _ & E2), Hk3 as (_ & _ & E3').
    congruence. }
  rewrite Hrefs1, Hhead1 in Hparent. rewrite Hrefs3 in Hrefs.
  split; [reflexivity|].
  destruct (isfile im "references.txt").
  - apply cbind_ok in Hrefs as (im' & rl & ol & Hup & Hrefs).
    apply lift_ok in Hup as (Hup & -> & ->).
    apply put_images_ok in Hrefs as (Him4 & _ & Hk4).
    exists parent, im3, im', act. auto 10.
  - apply cbind_ok in Hrefs as (im' & rl & ol & Hw & Hrefs).
    apply lift_ok in Hw as (Hw & -> & ->).
    apply put_images_ok in Hrefs as (Him4 & _ & Hk4).
    apply open_write_ok in Hw. subst im'.
    exists parent, im3,
      (write_file "references.txt"
         (join_lines [("HEAD=" ++ fresh_id)%string;
                      ("master=" ++ fresh_id)%string]) im3), act.
    auto 10.
Qed.

Lemma update_references_writes (images images' : entries)
    (commit_id branch : string) :
  update_references images commit_id branch = Ok images' ->
  exists text, images' = write_file "references.txt" text images.
Proof.
  unfold update_references. intros H.
  destruct (read_file images "references.txt") as [text|e]; [|discriminate].
  cbn [bind] in H.
  destruct (read_bindings (splitlines text)) as [params|e]; [|discriminate].
  cbn [bind] in H. injection H as <-. eauto.
Qed.

Lemma commit_id_not_None (s : string) : commit_id_ok s = true -> s <> "None".
Proof. intros H ->. discriminate. Qed.

Lemma commit_id_clean (s : string) :
  commit_id_ok s = true -> clean_field s = true.
Proof.
  intros H. destruct (commit_id_ok_facts s H) as (_ & Hlb & Heq).
  unfold clean_field, no_equals. now rewrite Hlb, Heq.
Qed.

Lemma commit_parents (date fresh_id msg : string)
    (second_parent : option string) (r r1 : repository)
    (out out1 : list message) (c : string) (im staged : entries) :
  node_at IMAGES r = Some (Dir im) ->
  node_at STAGING_AREA r = Some (Dir staged) ->
  commit_id_ok fresh_id = true ->
  commit date fresh_id msg second_parent r out = (r1, out1, Ok (Some c)) ->
  (isfile im "references.txt" = false ->
   get_parents (images_of r1) c = Ok [])
  /\ (forall head,
        isfile im "references.txt" = true ->
        get_head_commit_id im = Ok head ->
        commit_id_ok head = true ->
        match second_parent with
        | None => get_parents (images_of r1) c = Ok [head]
        | Some second =>
            commit_id_ok second = true ->
            get_parents (images_of r1) c = Ok [head; second]
        end).
Proof.
  intros Him Hst Hid H.
  destruct (commit_id_not_references fresh_id Hid) as [Hne1 Hne2].
  destruct (commit_exact _ _ _ _ _ _ _ _ _ _ _ Him Hst Hid H)
    as (-> & parent & im3 & im4 & act & Him4 & _ & _ & Hmeta & Hcase).
  rewrite (images_of_at _ _ Him4).
  assert (Hwritten : forall text,
             im4 = write_file "references.txt" text im3 ->
             no_linebreak parent = true -> no_equals parent = true ->
             get_parents im4 fresh_id
             = Ok (if hd "" (split ","%char parent) =? "None" then []
                   else split ","%char parent)).
  { intros text -> Hlb Heq.
    eapply get_parents_written;
      [|exact (commit_id_no_sep fresh_id Hid) | exact Hlb | exact Heq].
    unfold write_file. rewrite lookup_set_entry_other by auto. exact Hmeta. }
  split.
  - intros Hno. rewrite Hno in Hcase. destruct Hcase as [-> ->].
    now rewrite (Hwritten _ eq_refl).
  - intros head Hrefs Hhead Hok. rewrite Hrefs in Hcase.
    destruct Hcase as [(head' & Hhead' & Hparent) Hup].
    assert (head' = head) by congruence. subst head'.
    destruct (update_references_writes _ _ _ _ Hup) as [text Etext].
    destruct (commit_id_ok_facts head Hok) as (_ & Hlb & Heq).
    pose proof (commit_id_no_comma head Hok) as Hcomma.
    pose proof (commit_id_not_None head Hok) as Hnone.
    destruct second_parent as [second|].
    + intros Hok2.
      destruct (commit_id_ok_facts second Hok2) as (_ & Hlb2 & Heq2).
      pose proof (commit_id_no_comma second Hok2) as Hcomma2.
      rewrite (Hwritten text Etext); subst parent.
      * change (head ++ "," ++ second)%string
          with (head ++ String ","%char second)%string.
        rewrite (split_app_sep ","%char head second Hcomma).
        rewrite (split_no_sep ","%char second Hcomma2). cbn [hd].
        destruct (String.eqb_spec head "None"); [contradiction | reflexivity].
      * rewrite no_linebreak_app, Hlb.
        change ("," ++ second)%string with (String ","%char second).
        cbn [no_linebreak]. now rewrite Hlb2.
      * unfold no_equals. rewrite all_chars_app, Heq.
        change ("," ++ second)%string with (String ","%char second).
        cbn [all_chars]. now rewrite Heq2.
    + subst parent. rewrite (Hwritten text Etext Hlb Heq).
      rewrite (split_no_sep ","%char head Hcomma). cbn [hd].
      destruct (String.eqb_spec head "None"); [contradiction | reflexivity].
Qed.

(** X21: The parents a new commit records, read back by [get_parents]: none
    for the first commit, the previous HEAD otherwise, followed by the
    second parent when there is one. *)
Theorem commit_records_parents (date fresh_id msg : string)
    (second_parent : option string) (r r1 : repository)
    (out out1 : list message) (c : string) (im staged : entries) :
  node_at IMAGES r = Some (Dir im) ->
  node_at STAGING_AREA r = Some (Dir staged) ->
  commit_id_ok fresh_id = true ->
  commit date fresh_id msg second_parent r out = (r1, out1, Ok (Some c)) ->
  (isfile im "references.txt" = false ->
   get_parents (images_of r1) c = Ok [])
  /\ (forall head,
        isfile im "references.txt" = true ->
        get_head_commit_id im = Ok head ->
        commit_id_ok head = true ->
        match second_parent with
        | None => get_parents (images_of r1) c = Ok [head]
        | Some second =>
            commit_id_ok second = true ->
            get_parents (images_of r1) c = Ok [head; second]
        end).
Proof.
  exact (commit_parents date fresh_id msg second_parent r r1 out out1 c im
           staged).
Qed.

Lemma commit_records_parents_witness :
  (isfile (images_of staged_repo) "references.txt" = false ->
   get_parents (images_of (final staged_commit)) id3 = Ok [])
  /\ (forall head,
        isfile (images_of staged_repo) "references.txt" = true ->
        get_head_commit_id (images_of staged_repo) = Ok head ->
        commit_id_ok head = true ->
        get_parents (images_of (final staged_commit)) id3 = Ok [head]).
Proof.
  apply (commit_records_parents "Fri" id3 "add b" None staged_repo
           (final staged_commit) [] (printed staged_commit) id3
           (images_of staged_repo)
           [("a.txt", File "hello"); ("b.txt", File "more")]);
    reflexivity.
Defined.

(** X22: The first commit of a repository writes the reference file with HEAD
    and [master] on the new commit, whatever [activated.txt] names. *)
Theorem first_commit_references (date fresh_id msg : string)
    (second_parent : option string) (r r1 : repository)
    (out out1 : list message) (c : string) (im staged : entries) :
  node_at IMAGES r = Some (Dir im) ->
  node_at STAGING_AREA r = Some (Dir staged) ->
  commit_id_ok fresh_id = true ->
  isfile im "references.txt" = false ->
  commit date fresh_id msg second_parent r out = (r1, out1, Ok (Some c)) ->
  get_head_commit_id (images_of r1) = Ok c
  /\ get_branches (images_of r1) = Ok [("master", c)].
Proof.
  intros Him Hst Hid Hno H.
  destruct (commit_exact _ _ _ _ _ _ _ _ _ _ _ Him Hst Hid H)
    as (-> & parent & im3 & im4 & act & Him4 & _ & _ & _ & Hcase).
  rewrite Hno in Hcase. destruct Hcase as [_ ->].
  rewrite (images_of_at _ _ Him4). split; [now apply head_of_join|].
  pose proof (commit_id_clean fresh_id Hid) as Hclean.
  unfold get_branches, read_file, write_file.
  rewrite lookup_set_entry_same. cbn [bind].
  change [("HEAD=" ++ fresh_id)%string; ("master=" ++ fresh_id)%string]
    with (map (fun kv : string * string => (fst kv ++ "=" ++ snd kv)%string)
            [("HEAD", fresh_id); ("master", fresh_id)]).
  rewrite splitlines_join
    by (apply binding_lines_clean; repeat constructor; exact Hclean).
  cbn [map tl fst snd]. unfold read_bindings.
  apply (read_bindings_lines [("master", fresh_id)] []).
  - repeat constructor. intros [].
  - intros k _ [].
  - repeat constructor. exact Hclean.
Qed.

Lemma first_commit_references_witness :
  get_head_commit_id (images_of (final first_commit)) = Ok id1
  /\ get_branches (images_of (final first_commit)) = Ok [("master", id1)].
Proof.
  apply (first_commit_references "Mon" id1 "first" None new_repo
           (final first_commit) [] (printed first_commit) id1 []
           [("a.txt", File "hello")]);
    reflexivity.
Defined.

(** X23: A later commit moves HEAD and the activated branch, if the reference
    file lists it, to the new commit; every other branch keeps its
    commit. *)
Theorem commit_advances_activated_branch (date fresh_id msg : string)
    (second_parent : option string) (r r1 : repository)
    (out out1 : list message) (c : string) (im staged : entries) :
  node_at IMAGES r = Some (Dir im) ->
  node_at STAGING_AREA r = Some (Dir staged) ->
  commit_id_ok fresh_id = true ->
  isfile im "references.txt" = true ->
  head_line_first im = true ->
  commit date fresh_id msg second_parent r out = (r1, out1, Ok (Some c)) ->
  get_head_commit_id (images_of r1) = Ok c
  /\ exists activated_branch before after,
      get_activated_branch r = Ok activated_branch
      /\ get_branches im = Ok before
      /\ get_branches (images_of r1) = Ok after
      /\ forall name,
          name <> "HEAD" ->
          dict_get name after
          = if (name =? activated_branch) && dict_in name before then Some c
            else dict_get name before.
Proof.
  intros Him Hst Hid Hrefs Hfirst H.
  destruct (commit_id_not_references fresh_id Hid) as [Hne1 Hne2].
  destruct (commit_exact _ _ _ _ _ _ _ _ _ _ _ Him Hst Hid H)
    as (-> & parent & im3 & im4 & act & Him4 & Hact & Hother & _ & Hcase).
  rewrite Hrefs in Hcase. destruct Hcase as [_ Hup].
  rewrite (images_of_at _ _ Him4).
  assert (Hread : read_file im3 "references.txt" = read_file im "references.txt")
    by (unfold read_file; rewrite Hother; auto).
  assert (Hfirst3 : head_line_first im3 = true)
    by (unfold head_line_first in *; now rewrite Hread).
  destruct (update_references_bindings im3 im4 fresh_id act Hfirst3
              (commit_id_clean fresh_id Hid) Hup)
    as (Hhead & before & after & Hb & Ha & Hall).
  split; [exact Hhead|].
  exists act, before, after. repeat split; auto.
  unfold get_branches in *. now rewrite <- Hread.
Qed.

Lemma commit_advances_activated_branch_witness :
  get_head_commit_id (images_of (final staged_commit)) = Ok id3
  /\ exists activated_branch before after,
      get_activated_branch staged_repo = Ok activated_branch
      /\ get_branches (images_of staged_repo) = Ok before
      /\ get_branches (images_of (final staged_commit)) = Ok after
      /\ forall name,
          name <> "HEAD" ->
          dict_get name after
          = if (name =? activated_branch) && dict_in name before then Some id3
            else dict_get name before.
Proof.
  apply (commit_advances_activated_branch "Fri" id3 "add b" None staged_repo
           (final staged_commit) [] (printed staged_commit) id3
           (images_of staged_repo)
           [("a.txt", File "hello"); ("b.txt", File "more")]);
    reflexivity.
Defined.

(** ** What [execute_checkout] does to its destination *)

Lemma execute_checkout_no_directory (ignore : list string) :
  forall (src : node) (items : entries),
    src = Dir items ->
    forall dst : option node,
      is_dir_node dst = false ->
      execute_checkout (Dir items) dst ignore
      = (dst, if has_copy (Dir items) ignore then Raise OSError else Ok tt).
Proof.
  induction src as [content|es IH] using node_rect_entries;
    intros items Heq dst Hdst; [discriminate|].
  injection Heq as <-. cbn [execute_checkout has_copy].
  assert (Hchild : forall item, child dst item = None)
    by (intros item; destruct dst as [[c|d]|]; try reflexivity; discriminate).
  assert (Hset : forall item d, set_child dst item d = dst)
    by (intros item d; destruct dst as [[c|d']|]; try reflexivity; discriminate).
  assert (Hcopy : forall item content, copy2 item content dst = Raise OSError)
    by (intros item content; destruct dst as [[c|d']|]; try reflexivity;
        discriminate).
  induction IH as [|[item s] rest Hs _ IHrest]; [reflexivity|].
  cbn [snd] in Hs. destruct s as [content|sub].
  - destruct (str_in item ignore); cbn [negb orb].
    + cbn [snd fst]. exact IHrest.
    + rewrite Hcopy. reflexivity.
  - rewrite Hchild, (Hs sub eq_refl None eq_refl). cbn [fst snd].
    rewrite Hset. destruct (has_copy (Dir sub) ignore); cbn [orb].
    + reflexivity.
    + exact IHrest.
Qed.

(** X25: [execute_checkout] never creates a directory.  When the destination
    is missing, or is a regular file, nothing changes there: the call
    raises [OSError] if the source tree holds a regular file whose name
    is not ignored, and returns otherwise. *)
Theorem execute_checkout_creates_no_directory (items : entries)
    (ignore : list string) :
  execute_checkout (Dir items) None ignore
  = (None, if has_copy (Dir items) ignore then Raise OSError else Ok tt)
  /\ forall content,
      execute_checkout (Dir items) (Some (File content)) ignore
      = (Some (File content),
         if has_copy (Dir items) ignore then Raise OSError else Ok tt).
Proof.
  split; [|intros content];
    now apply (execute_checkout_no_directory ignore (Dir items)).
Qed.

Lemma names_set_entry (n item : string) (x : node) (es : entries) :
  In n (names es) -> In n (names (set_entry item x es)).
Proof.
  induction es as [|[m y] es IH]; [intros []|].
  cbn [set_entry names map fst].
  destruct (String.eqb_spec m item) as [->|_]; cbn [map fst]; [auto|].
  intros [E|H]; [now left | right; now apply IH].
Qed.

Lemma execute_checkout_kind (ignore : list string) :
  forall (src : node) (dst : option node),
    match dst with
    | Some (Dir es) =>
        exists es',
          fst (execute_checkout src dst ignore) = Some (Dir es')
          /\ (forall n, In n (names es) -> In n (names es'))
          /\ (forall n,
                 match src with
                 | Dir items => ~ In n (names items)
                 | File _ => True
                 end -> lookup n es' = lookup n es)
    | _ => fst (execute_checkout src dst ignore) = dst
    end.
Proof.
  induction src as [content|items IH] using node_rect_entries; intros dst.
  { destruct dst as [[c|es]|]; try reflexivity. exists es. auto. }
  cbn [execute_checkout]. revert dst.
  induction IH as [|[item s] rest Hs _ IHrest]; intros dst.
  { destruct dst as [[c|es]|]; try reflexivity. exists es. auto. }
  cbn [snd] in Hs.
  (* what one pass of the loop does to the destination *)
  assert (Hstep :
    forall step : option node * result unit,
      step = match s with
             | Dir _ =>
                 let below := execute_checkout s (child dst item) ignore in
                 (set_child dst item (fst below), snd below)
             | File content =>
                 if negb (str_in item ignore) then
                   match copy2 item content dst with
                   | Ok d => (Some d, Ok tt)
                   | Raise e => (dst, Raise e)
                   end
                 else (dst, Ok tt)
             end ->
      match dst with
      | Some (Dir es) =>
          exists es1,
            fst step = Some (Dir es1)
            /\ (forall n, In n (names es) -> In n (names es1))
            /\ (forall n, n <> item -> lookup n es1 = lookup n es)
      | _ => fst step = dst
      end).
  { intros step ->. destruct s as [content|sub].
    - destruct (negb (str_in item ignore)).
      + destruct dst as [[c|es]|]; try reflexivity. cbn [copy2].
        destruct (lookup item es) as [[c|d]|] eqn:El.
        * eexists. split; [reflexivity|]. unfold write_file.
          split; [intros n; apply names_set_entry|].
          intros n Hn. now apply lookup_set_entry_other.
        * unfold open_write.
          destruct (lookup item d) as [[c|d']|]; cbn [bind fst].
          -- eexists. split; [reflexivity|].
             split; [intros n; apply names_set_entry|].
             intros n Hn. now apply lookup_set_entry_other.
          -- exists es. auto.
          -- eexists. split; [reflexivity|].
             split; [intros n; apply names_set_entry|].
             intros n Hn. now apply lookup_set_entry_other.
        * eexists. split; [reflexivity|]. unfold write_file.
          split; [intros n; apply names_set_entry|].
          intros n Hn. now apply lookup_set_entry_other.
      + destruct dst as [[c|es]|]; try reflexivity. exists es. auto.
    - cbn zeta. cbn [fst]. destruct dst as [[c|es]|]; try reflexivity.
      cbn [child set_child].
      destruct (fst (execute_checkout (Dir sub) (lookup item es) ignore))
        as [x|].
      + eexists. split; [reflexivity|].
        split; [intros n; apply names_set_entry|].
        intros n Hn. now apply lookup_set_entry_other.
      + exists es. auto. }
  match goal with
  | |- context [match snd ?st with _ => _ end] =>
      specialize (Hstep st eq_refl); destruct st as [dst1 res1]
  end.
  cbn [fst snd] in Hstep |- *.
  destruct res1 as [u|e].
  - specialize (IHrest dst1).
    destruct dst as [[c|es]|].
    + subst dst1. exact IHrest.
    + destruct Hstep as (es1 & -> & Hn1 & Hl1).
      destruct IHrest as (es' & E & Hn & Hl).
      exists es'. split; [exact E|]. split; [auto|].
      intros n Hnot. cbn [names map fst] in Hnot.
      rewrite Hl, Hl1; [reflexivity | | ]; intros H; apply Hnot;
        first [now right | subst; now left].
    + subst dst1. exact IHrest.
  - cbn [fst]. destruct dst as [[c|es]|]; try exact Hstep.
    destruct Hstep as (es1 & -> & Hn1 & Hl1).
    exists es1. split; [reflexivity|]. split; [exact Hn1|].
    intros n Hnot. apply Hl1. intros ->. apply Hnot. now left.
Qed.

(** X26: [execute_checkout] removes nothing: however it ends, a destination
    directory is a directory afterwards, with every name it had, and an
    entry whose name does not occur at the top of the source is as it
    was. *)
Theorem execute_checkout_removes_nothing (items es : entries)
    (ignore : list string) :
  exists es',
    fst (execute_checkout (Dir items) (Some (Dir es)) ignore) = Some (Dir es')
    /\ (forall n, In n (names es) -> In n (names es'))
    /\ (forall n, ~ In n (names items) -> lookup n es' = lookup n es).
Proof. exact (execute_checkout_kind ignore (Dir items) (Some (Dir es))). Qed.

(** ** Checking out a commit by its identifier *)

Lemma dir_below_file (q : list string) (content : string) :
  dir_below q (Some (File content)) = false.
Proof. destruct q; reflexivity. Qed.

Lemma dir_below_set_entry (item : string) (x : node) (es : entries)
    (p : list string) :
  (forall q, dir_below q (Some x) = true ->
             dir_below q (lookup item es) = true) ->
  dir_below p (Some (Dir (set_entry item x es))) = true ->
  dir_below p (Some (Dir es)) = true.
Proof.
  intros Hx. destruct p as [|n q]; [reflexivity|].
  unfold dir_below. cbn [get_node].
  destruct (String.eqb_spec n item) as [->|Hne].
  - rewrite lookup_set_entry_same. intros H.
    specialize (Hx q H). unfold dir_below in Hx.
    destruct (lookup item es); [exact Hx | discriminate].
  - now rewrite lookup_set_entry_other.
Qed.

Lemma execute_checkout_invariant (ignore : list string) :
  forall (src : node) (dst : option node),
    (snd (execute_checkout src dst ignore) = Ok tt
     \/ snd (execute_checkout src dst ignore) = Raise OSError)
    /\ forall p, dir_below p (fst (execute_checkout src dst ignore)) = true ->
                 dir_below p dst = true.
Proof.
  induction src as [content|items IH] using node_rect_entries; intros dst.
  { cbn. auto. }
  cbn [execute_checkout]. revert dst.
  induction IH as [|[item s] rest Hs _ IHrest]; intros dst.
  { cbn. auto. }
  cbn [snd] in Hs.
  assert (Hstep :
    forall step : option node * result unit,
      step = match s with
             | Dir _ =>
                 let below := execute_checkout s (child dst item) ignore in
                 (set_child dst item (fst below), snd below)
             | File content =>
                 if negb (str_in item ignore) then
                   match copy2 item content dst with
                   | Ok d => (Some d, Ok tt)
                   | Raise e => (dst, Raise e)
                   end
                 else (dst, Ok tt)
             end ->
      (snd step = Ok tt \/ snd step = Raise OSError)
      /\ forall p, dir_below p (fst step) = true -> dir_below p dst = true).
  { intros step ->. destruct s as [content|sub].
    - destruct (negb (str_in item ignore)); [|cbn; auto].
      destruct dst as [[c|es]|]; try solve [cbn; auto].
      cbn [copy2]. destruct (lookup item es) as [[c|d]|] eqn:El.
      + cbn [fst snd]. split; [auto|]. intros p. unfold write_file.
        apply dir_below_set_entry. intros q. now rewrite dir_below_file.
      + unfold open_write.
        destruct (lookup item d) as [[c|d']|] eqn:Ed; cbn [bind fst snd];
          try (split; [auto|]; intros p; apply dir_below_set_entry;
               intros q; rewrite El; unfold write_file;
               apply dir_below_set_entry; intros q';
               now rewrite dir_below_file).
        auto.
      + cbn [fst snd]. split; [auto|]. intros p. unfold write_file.
        apply dir_below_set_entry. intros q. now rewrite dir_below_file.
    - cbn zeta. cbn [fst snd].
      destruct (Hs (child dst item)) as [Hres Hdir]. split; [exact Hres|].
      destruct dst as [[c|es]|]; try solve [cbn; auto].
      cbn [child set_child] in *.
      destruct (fst (execute_checkout (Dir sub) (lookup item es) ignore))
        as [x|]; [|auto].
      intros p. apply dir_below_set_entry. exact Hdir. }
  match goal with
  | |- context [match snd ?st with _ => _ end] =>
      specialize (Hstep st eq_refl); destruct st as [dst1 res1]
  end.
  cbn [fst snd] in Hstep |- *. destruct Hstep as [Hres Hdir].
  destruct res1 as [u|e].
  - destruct (IHrest dst1) as [Hres' Hdir']. split; [exact Hres'|].
    intros p Hp. auto.
  - cbn [fst snd]. split; [|exact Hdir].
    destruct Hres as [Hres|Hres]; [discriminate | now right].
Qed.

Lemma checkout_into_home (commit_dir : option node) (ignore : list string)
    (r : repository) (out : list message) :
  exists r' res,
    checkout_into commit_dir [] ignore r out = (r', out, res)
    /\ (res = Ok tt \/ res = Raise OSError)
    /\ forall p, dir_below p (Some (Dir (home r'))) = true ->
                 dir_below p (Some (Dir (home r))) = true.
Proof.
  unfold checkout_into. destruct commit_dir as [src|]; [|eauto 6].
  destruct (execute_checkout_invariant ignore src (node_at [] r))
    as [Hres Hdir].
  eexists. eexists. split; [reflexivity|]. split; [exact Hres|].
  unfold node_at in *. cbn [get_node set_node] in *.
  destruct (fst (execute_checkout src (Some (Dir (home r))) ignore))
    as [[c|es]|]; auto.
Qed.

Lemma checkout_into_staging (commit_dir : option node) (ignore : list string)
    (r : repository) (out : list message) :
  exists r' res,
    checkout_into commit_dir STAGING_AREA ignore r out = (r', out, res)
    /\ (res = Ok tt \/ res = Raise OSError)
    /\ forall n q,
        n <> "staging_area" ->
        get_node (".wit" :: n :: q) (Dir (home r'))
        = get_node (".wit" :: n :: q) (Dir (home r)).
Proof.
  unfold checkout_into. destruct commit_dir as [src|]; [|eauto 6].
  destruct (execute_checkout_invariant ignore src (node_at STAGING_AREA r))
    as [Hres _].
  eexists. eexists. split; [reflexivity|]. split; [exact Hres|].
  intros n q Hn.
  destruct (fst (execute_checkout src (node_at STAGING_AREA r) ignore))
    as [d|]; [|reflexivity].
  unfold STAGING_AREA. cbn [set_node].
  destruct (lookup ".wit" (home r)) as [[c|wit]|] eqn:Ew; try reflexivity.
  cbn [home get_node]. rewrite lookup_set_entry_same, Ew.
  now rewrite lookup_set_entry_other.
Qed.

Lemma get_node_app (p q : list string) :
  forall t : node,
    get_node (p ++ q) t
    = match get_node p t with
      | Some x => get_node q x
      | None => None
      end.
Proof.
  induction p as [|n p IH]; intros t; [reflexivity|].
  cbn [app get_node]. destruct t as [c|es]; [reflexivity|].
  destruct (lookup n es); [apply IH | reflexivity].
Qed.

Lemma entry_at_again (es es' : entries) (path : string) (found : option node) :
  entry_at es path = Ok found -> exists found', entry_at es' path = Ok found'.
Proof.
  unfold entry_at. destruct (stays_below path); [eauto | discriminate].
Qed.

(** X27: [checkout] with an argument that is not a branch name, so with a
    commit identifier, never completes.  In a repository without pending
    changes, with [commit_dir] what is found at
    [os.path.join(images_dir, param)]: either the copy into the working
    tree fails, or it is made and the copy into the staging area fails,
    and the failure is reported, logged and printed; or both copies are
    made and the read of the activated branch, which the source looks for
    below [references.txt], raises an [OSError] that [checkout] does not
    handle, with nothing printed.  In each case the repository is left as
    the copies left it: the update of the references and of the activated
    branch is never reached. *)
Theorem checkout_by_commit_id_never_completes (param : string)
    (r : repository) (out : list message) (untracked_files : list string)
    (branches : dict) (commit_dir : option node) :
  status true r out = (r, out, Ok (Some ([], [], untracked_files))) ->
  get_branches (images_of r) = Ok branches ->
  dict_get param branches = None ->
  entry_at (images_of r) param = Ok commit_dir ->
  (exists r1,
      checkout_into commit_dir [] untracked_files r out
      = (r1, out, Raise OSError)
      /\ checkout param r out
         = (r1, out ++ [Line "Copy proccess aborted due to an error.";
                        Logged OSError; ErrorText OSError], Ok tt))
  \/ (exists r1 commit_dir1 r2,
        checkout_into commit_dir [] untracked_files r out = (r1, out, Ok tt)
        /\ entry_at (images_of r1) param = Ok commit_dir1
        /\ checkout_into commit_dir1 STAGING_AREA [] r1 out
           = (r2, out, Raise OSError)
        /\ checkout param r out
           = (r2, out ++ [Line "Copy to staging area proccess aborted due to an error.";
                          Logged OSError; ErrorText OSError], Ok tt))
  \/ (exists r1 commit_dir1 r2,
        checkout_into commit_dir [] untracked_files r out = (r1, out, Ok tt)
        /\ entry_at (images_of r1) param = Ok commit_dir1
        /\ checkout_into commit_dir1 STAGING_AREA [] r1 out = (r2, out, Ok tt)
        /\ checkout param r out = (r2, out, Raise OSError)).
Proof.
  intros Hst Hbr Hparam Hfound.
  assert (Hfile : exists text,
             get_node (IMAGES ++ ["references.txt"]) (Dir (home r))
             = Some (File text)).
  { unfold get_branches, read_file in Hbr. unfold images_of, dir_at, node_at in Hbr.
    rewrite get_node_app.
    destruct (get_node IMAGES (Dir (home r))) as [[c|es]|];
      try discriminate.
    cbn [get_node].
    destruct (lookup "references.txt" es) as [[text|d]|]; try discriminate.
    eauto. }
  destruct Hfile as [text Hfile].
  assert (Hrefs : isfile (images_of r) "references.txt" = true).
  { unfold get_branches in Hbr.
    destruct (read_file (images_of r) "references.txt") as [t|e] eqn:E;
      [|discriminate].
    exact (read_file_isfile _ _ _ E). }
  unfold checkout, cbind. rewrite Hst. cbn [length Nat.ltb Nat.leb orb].
  unfold get, lift, ret. rewrite Hrefs. cbn [negb]. rewrite Hbr.
  unfold dict_in. rewrite Hparam, Hfound.
  unfold try_os, cbind, print, ret.
  destruct (checkout_into_home commit_dir untracked_files r out)
    as (r1 & res1 & E1 & [-> | ->] & Hdir1); rewrite E1.
  2:{ left. exists r1. split; [reflexivity|].
      rewrite <- !app_assoc. reflexivity. }
  right.
  destruct (entry_at_again _ (images_of r1) _ _ Hfound) as [commit_dir1 Hfound1].
  rewrite Hfound1.
  destruct (checkout_into_staging commit_dir1 [] r1 out)
    as (r2 & res2 & E2 & [-> | ->] & Hsame2); rewrite E2.
  2:{ left. exists r1, commit_dir1, r2.
      split; [reflexivity|]. split; [exact Hfound1|]. split; [exact E2|].
      rewrite <- !app_assoc. reflexivity. }
  right. exists r1, commit_dir1, r2.
  split; [reflexivity|]. split; [exact Hfound1|]. split; [exact E2|].
  assert (Hread : read_at (IMAGES ++ ["references.txt"; ".wit"; "activated.txt"]) r2
                  = Raise OSError).
  { unfold read_at, node_at.
    change (IMAGES ++ ["references.txt"; ".wit"; "activated.txt"])
      with ((IMAGES ++ ["references.txt"]) ++ [".wit"; "activated.txt"]).
    rewrite get_node_app.
    change (IMAGES ++ ["references.txt"])
      with (".wit" :: "images" :: ["references.txt"]) in *.
    rewrite Hsame2 by discriminate.
    pose proof (Hdir1 (".wit" :: "images" :: ["references.txt"])) as Hd.
    unfold dir_below in Hd. rewrite Hfile in Hd. cbn [is_dir_node] in Hd.
    destruct (get_node (".wit" :: "images" :: ["references.txt"])
                (Dir (home r1))) as [[c|d]|]; try reflexivity.
    specialize (Hd eq_refl). discriminate. }
  rewrite Hread. reflexivity.
Qed.

Lemma checkout_by_commit_id_never_completes_witness :
  exists r1 commit_dir1 r2,
    checkout_into (Some (Dir [("a.txt", File "hello"); ("notes.txt", File "their notes")])) []
      ["/home/user/project/.wit"; "/home/user/project/notes.txt"]
      notes_repo []
    = (r1, [], Ok tt)
    /\ entry_at (images_of r1) ("./" ++ id2) = Ok commit_dir1
    /\ checkout_into commit_dir1 STAGING_AREA [] r1 [] = (r2, [], Ok tt)
    /\ checkout ("./" ++ id2) notes_repo [] = (r2, [], Raise OSError).
Proof.
  destruct (checkout_by_commit_id_never_completes ("./" ++ id2) notes_repo []
              ["/home/user/project/.wit"; "/home/user/project/notes.txt"]
              [("master", id1); ("feature", id2)]
              (Some (Dir [("a.txt", File "hello"); ("notes.txt", File "their notes")])))
    as [(r1 & H & _) | [(r1 & d & r2 & H1 & H2 & H & _) | H]];
    try (vm_compute; reflexivity).
  - apply (f_equal snd) in H. vm_compute in H. discriminate H.
  - vm_compute in H1. injection H1 as <-.
    vm_compute in H2. injection H2 as <-.
    apply (f_equal snd) in H. vm_compute in H. discriminate H.
  - exact H.
Defined.

(** ** Creating a repository *)

Lemma lookup_app_new (name : string) (x : node) (es : entries) :
  lookup name es = None -> lookup name (es ++ [(name, x)]) = Some x.
Proof.
  induction es as [|[m y] es IH]; cbn [lookup app].
  - now rewrite String.eqb_refl.
  - destruct (m =? name); [discriminate | exact IH].
Qed.

Lemma set_entry_new (name : string) (x : node) (es : entries) :
  lookup name es = None -> set_entry name x es = es ++ [(name, x)].
Proof.
  induction es as [|[m y] es IH]; cbn [lookup set_entry app]; [reflexivity|].
  destruct (m =? name); [discriminate|]. intros H. now rewrite IH.
Qed.

Lemma set_entry_app_last (name : string) (x y : node) (es : entries) :
  lookup name es = None ->
  set_entry name x (es ++ [(name, y)]) = es ++ [(name, x)].
Proof.
  induction es as [|[m z] es IH]; cbn [lookup set_entry app].
  - now rewrite String.eqb_refl.
  - destruct (m =? name); [discriminate|]. intros H. now rewrite IH.
Qed.

Lemma init_on_plain_directory (r : repository) (out : list message) :
  lookup ".wit" (home r) = None ->
  init r out
  = (mkRepository (home_dir r)
       (home r ++ [(".wit", Dir [("images", Dir []);
                                 ("staging_area", Dir []);
                                 ("activated.txt", File "master")])]),
     out, Ok tt).
Proof.
  intros Hno. destruct r as [h es]. cbn [home home_dir] in *.
  unfold init, cbind, try_os, cbind, mkdir, put_node, node_at, ret, get, lift,
    dir_at, node_at, WIT, IMAGES, STAGING_AREA.
  cbn [home home_dir get_node set_node]. rewrite Hno.
  rewrite (set_entry_new ".wit" _ es Hno).
  cbn [home home_dir get_node set_node].
  rewrite !(lookup_app_new ".wit" _ es Hno).
  cbn [lookup set_entry home home_dir String.eqb Ascii.eqb Bool.eqb].
  rewrite !(set_entry_app_last ".wit" _ _ es Hno).
  cbn [home home_dir get_node set_node].
  rewrite !(lookup_app_new ".wit" _ es Hno).
  cbn [lookup set_entry home home_dir String.eqb Ascii.eqb Bool.eqb].
  rewrite !(set_entry_app_last ".wit" _ _ es Hno).
  cbn [home home_dir get_node set_node].
  rewrite !(lookup_app_new ".wit" _ es Hno).
  cbn [lookup set_entry home home_dir String.eqb Ascii.eqb Bool.eqb open_write
         write_file].
  rewrite !(set_entry_app_last ".wit" _ _ es Hno).
  reflexivity.
Qed.

Lemma init_on_repository (r : repository) (out : list message) (x : node) :
  lookup ".wit" (home r) = Some x ->
  init r out = (r, out ++ [Logged OSError] ++ [ErrorText OSError], Ok tt).
Proof.
  intros Hwit.
  unfold init, cbind, try_os, cbind, mkdir, node_at, WIT, print, ret.
  cbn [get_node]. rewrite Hwit. now rewrite <- app_assoc.
Qed.

(** X29: [init] in a directory without [.wit] creates [.wit] with the empty
    directories [images] and [staging_area] and the activated branch
    [master], touches nothing else, and leaves a repository without
    commit.  Where [.wit] exists, as after a first [init], the error is
    logged and printed and nothing else changes. *)
Theorem init_creates_or_refuses (r : repository) (out : list message) :
  (lookup ".wit" (home r) = None ->
   exists r',
     init r out = (r', out, Ok tt)
     /\ home_dir r' = home_dir r
     /\ home r' = home r ++ [(".wit", Dir [("images", Dir []);
                                           ("staging_area", Dir []);
                                           ("activated.txt", File "master")])]
     /\ get_activated_branch r' = Ok "master"
     /\ status false r' out
        = (r', out ++ [Line "No commit was found."], Ok None)
     /\ init r' out
        = (r', out ++ [Logged OSError] ++ [ErrorText OSError], Ok tt))
  /\ (forall x,
        lookup ".wit" (home r) = Some x ->
        init r out
        = (r, out ++ [Logged OSError] ++ [ErrorText OSError], Ok tt)).
Proof.
  split; [|intros x; apply init_on_repository].
  intros Hno. eexists. split; [exact (init_on_plain_directory r out Hno)|].
  cbn [home home_dir]. split; [reflexivity|]. split; [reflexivity|].
  assert (Hwit : lookup ".wit"
                   (home r ++ [(".wit", Dir [("images", Dir []);
                                             ("staging_area", Dir []);
                                             ("activated.txt", File "master")])])
                 = Some (Dir [("images", Dir []);
                              ("staging_area", Dir []);
                              ("activated.txt", File "master")]))
    by now apply lookup_app_new.
  split; [|split].
  - unfold get_activated_branch, dir_at, node_at, WIT. cbn [get_node home].
    now rewrite Hwit.
  - unfold status, cbind, get, images_of, dir_at, node_at, IMAGES.
    cbn [get_node home]. rewrite Hwit. reflexivity.
  - eapply init_on_repository. cbn [home]. exact Hwit.
Qed.

Lemma init_creates_or_refuses_witness :
  (exists r',
     init plain_project [] = (r', [], Ok tt)
     /\ home_dir r' = "/home/user/project"
     /\ home r' = [("a.txt", File "hello");
                   (".wit", Dir [("images", Dir []);
                                 ("staging_area", Dir []);
                                 ("activated.txt", File "master")])]
     /\ get_activated_branch r' = Ok "master"
     /\ status false r' [] = (r', [Line "No commit was found."], Ok None)
     /\ init r' [] = (r', [Logged OSError; ErrorText OSError], Ok tt))
  /\ init notes_repo []
     = (notes_repo, [Logged OSError; ErrorText OSError], Ok tt).
Proof.
  split.
  - apply (proj1 (init_creates_or_refuses plain_project [])). reflexivity.
  - eapply (proj2 (init_creates_or_refuses notes_repo [])). reflexivity.
Defined.

(** ** Labels of the commit graph *)

Lemma append_nil_r (s : string) : (s ++ "")%string = s.
Proof. induction s as [|c s IH]; cbn; congruence. Qed.

Lemma concat_empty_cons (x : string) (l : list string) :
  String.concat "" (x :: l) = (x ++ String.concat "" l)%string.
Proof. destruct l; cbn [String.concat]; [now rewrite append_nil_r | reflexivity]. Qed.

Lemma substring_drop (n : nat) :
  forall (j m : nat) (s : string),
    substring (n + j) m s = substring j m (string_drop n s).
Proof.
  induction n as [|n IH]; intros j m s; [reflexivity|].
  destruct s as [|c s]; cbn [Nat.add substring string_drop].
  - destruct j, m; reflexivity.
  - apply IH.
Qed.

Lemma substring_then_drop (m : nat) :
  forall s : string, (substring 0 m s ++ string_drop m s)%string = s.
Proof.
  induction m as [|m IH]; intros s.
  - destruct s; reflexivity.
  - destruct s as [|c s]; [reflexivity|].
    cbn [substring string_drop String.append]. now rewrite IH.
Qed.

Lemma string_drop_length (m : nat) :
  forall s : string, String.length (string_drop m s) = String.length s - m.
Proof.
  induction m as [|m IH]; intros s; cbn [string_drop]; [lia|].
  destruct s as [|c s]; cbn [String.length]; [reflexivity | apply IH].
Qed.

Lemma substring_length_le (m : nat) :
  forall s : string, String.length (substring 0 m s) <= m.
Proof.
  induction m as [|m IH]; intros s.
  - destruct s; cbn; lia.
  - destruct s as [|c s]; cbn [substring String.length]; [lia|].
    specialize (IH s). lia.
Qed.

Lemma substring_nonempty (m : nat) (s : string) :
  0 < m -> s <> "" -> substring 0 m s <> "".
Proof. destruct m, s; cbn; intros; try lia; congruence. Qed.

Lemma no_linebreak_substring (m : nat) :
  forall s : string,
    no_linebreak s = true -> no_linebreak (substring 0 m s) = true.
Proof.
  induction m as [|m IH]; intros s H.
  - destruct s; reflexivity.
  - destruct s as [|c s]; [reflexivity|]. cbn [substring no_linebreak] in *.
    apply andb_true_iff in H as [Hc Hs]. now rewrite Hc, IH.
Qed.

Lemma no_linebreak_drop (m : nat) :
  forall s : string,
    no_linebreak s = true -> no_linebreak (string_drop m s) = true.
Proof.
  induction m as [|m IH]; intros s H; cbn [string_drop]; [exact H|].
  destruct s as [|c s]; [reflexivity|]. cbn [no_linebreak] in H.
  apply andb_true_iff in H as [_ Hs]. now apply IH.
Qed.

Lemma chunks_of (n : nat) :
  forall text : string,
    map (fun j => substring j 10 text) (map (fun k => k * 10) (seq 0 (S n)))
    = substring 0 10 text
      :: map (fun j => substring j 10 (string_drop 10 text))
           (map (fun k => k * 10) (seq 0 n)).
Proof.
  intros text. cbn [seq map Nat.mul]. f_equal.
  rewrite <- seq_shift, !map_map. apply map_ext. intros k.
  change (S k * 10) with (10 + k * 10). apply substring_drop.
Qed.

Lemma chunks_spec (n : nat) :
  forall text : string,
    String.length text <= n * 10 ->
    (forall k, k < n -> k * 10 < String.length text) ->
    String.concat ""
      (map (fun j => substring j 10 text) (map (fun k => k * 10) (seq 0 n)))
    = text
    /\ Forall (fun l => 1 <= String.length l <= 10)
         (map (fun j => substring j 10 text) (map (fun k => k * 10) (seq 0 n)))
    /\ (no_linebreak text = true ->
        Forall (fun l => no_linebreak l = true /\ l <> "")
          (map (fun j => substring j 10 text)
             (map (fun k => k * 10) (seq 0 n)))).
Proof.
  induction n as [|n IH]; intros text Hlen Hfull.
  - destruct text; [|cbn in Hlen; lia]. cbn. auto.
  - rewrite chunks_of.
    assert (Hne : text <> "").
    { intros ->. specialize (Hfull 0 ltac:(lia)). cbn in Hfull. lia. }
    destruct (IH (string_drop 10 text)) as (Hcat & Hall & Hclean).
    { rewrite string_drop_length. lia. }
    { intros k Hk. rewrite string_drop_length.
      specialize (Hfull (S k) ltac:(lia)). lia. }
    split; [|split].
    + rewrite concat_empty_cons, Hcat. apply substring_then_drop.
    + constructor; [|exact Hall]. split; [|apply substring_length_le].
      pose proof (substring_nonempty 10 text ltac:(lia) Hne) as H.
      destruct (substring 0 10 text); [congruence | cbn; lia].
    + intros Hlb. constructor.
      * split; [now apply no_linebreak_substring|].
        now apply substring_nonempty; [lia|].
      * apply Hclean. now apply no_linebreak_drop.
Qed.

(** X30: The label of a text without line break, split into lines again: the
    lines put together are the text, and every line has between one and
    ten characters. *)
Theorem split_text_for_node_lines (text : string) :
  no_linebreak text = true ->
  String.concat "" (splitlines (split_text_for_node text)) = text
  /\ Forall (fun l => 1 <= String.length l <= 10)
       (splitlines (split_text_for_node text)).
Proof.
  intros Hlb. unfold split_text_for_node, label_chunks, range_step.
  destruct (chunks_spec ((String.length text + 10 - 1) / 10) text)
    as (Hcat & Hall & Hclean).
  - pose proof (Nat.div_mod_eq (String.length text + 10 - 1) 10) as E.
    pose proof (Nat.mod_upper_bound (String.length text + 10 - 1) 10
                  ltac:(lia)) as B.
    lia.
  - intros k Hk.
    pose proof (Nat.div_mod_eq (String.length text + 10 - 1) 10) as E.
    nia.
  - rewrite splitlines_join by auto. auto.
Qed.

Lemma split_text_for_node_lines_witness :
  String.concat "" (splitlines (split_text_for_node id1)) = id1
  /\ Forall (fun l => 1 <= String.length l <= 10)
       (splitlines (split_text_for_node id1)).
Proof. apply (split_text_for_node_lines id1). reflexivity. Defined.

(** ** The list of untracked files as an ignore list *)

Lemma untracked_files_inert_witness :
  execute_checkout (Dir [("a.txt", File "hello"); ("notes.txt", File "their notes")])
    (Some (Dir (home notes_repo)))
    ["/home/user/project/.wit"; "/home/user/project/notes.txt"]
  = execute_checkout
      (Dir [("a.txt", File "hello"); ("notes.txt", File "their notes")])
      (Some (Dir (home notes_repo))) [].
Proof.
  apply (untracked_files_inert notes_repo notes_repo [] [] [] []
           ["/home/user/project/.wit"; "/home/user/project/notes.txt"]).
  - intros E. discriminate E.
  - reflexivity.
  - reflexivity.
Defined.

(** ** The history after a commit *)

Lemma history_transfer (im im' : entries) :
  forall (depth : nat) (c : string) (acc l : list string),
    get_all_commits_util depth im c acc = Some (Ok l) ->
    exists v,
      l = acc ++ v
      /\ forall acc',
          (forall x, In x v -> get_parents im' x = get_parents im x) ->
          get_all_commits_util depth im' c acc' = Some (Ok (acc' ++ v)).
Proof.
  induction depth as [|depth IH]; intros c acc l H; [discriminate|].
  rewrite get_all_commits_util_unfold in H.
  destruct (get_parents im c) as [parents|e] eqn:Ep; [|discriminate].
  assert (W : forall ps acc out,
             walk_parents depth im ps acc = Some (Ok out) ->
             exists v,
               out = acc ++ v
               /\ forall acc',
                   (forall x, In x v -> get_parents im' x = get_parents im x) ->
                   walk_parents depth im' ps acc' = Some (Ok (acc' ++ v))).
  { induction ps as [|p ps IHps]; intros a out Hw; cbn [walk_parents] in Hw.
    - injection Hw as <-. exists []. rewrite app_nil_r.
      split; [reflexivity|]. intros acc' _. cbn. now rewrite app_nil_r.
    - destruct (get_all_commits_util depth im p a) as [[m|e]|] eqn:Eu;
        try discriminate. cbn [fbind] in Hw.
      destruct (IH _ _ _ Eu) as (v1 & -> & H1).
      destruct (IHps _ _ Hw) as (v2 & -> & H2).
      exists (v1 ++ v2). rewrite <- app_assoc. split; [reflexivity|].
      intros acc' Hagree. cbn [walk_parents].
      rewrite H1 by (intros x Hx; apply Hagree, in_or_app; now left).
      cbn [fbind].
      rewrite H2 by (intros x Hx; apply Hagree, in_or_app; now right).
      now rewrite <- app_assoc. }
  destruct (W _ _ _ H) as (v & -> & Hv).
  exists (c :: v). rewrite <- app_assoc. split; [reflexivity|].
  intros acc' Hagree. rewrite get_all_commits_util_unfold.
  rewrite (Hagree c (or_introl eq_refl)), Ep.
  rewrite Hv by (intros x Hx; apply Hagree; now right).
  now rewrite <- app_assoc.
Qed.

Lemma string_app_cancel (s : string) :
  forall a b : string, (a ++ s)%string = (b ++ s)%string ->
                       String.length a = String.length b -> a = b.
Proof.
  induction a as [|x a IH]; intros [|y b] E Hlen; try discriminate.
  - reflexivity.
  - cbn [String.append] in E. injection E as -> E. cbn in Hlen.
    f_equal. apply IH; [exact E | lia].
Qed.

(** X24: A commit on top of HEAD extends the history by itself: the history
    walked from the new HEAD is the new commit followed by the history
    walked from the old HEAD. *)
Theorem commit_extends_history (depth : nat) (date fresh_id msg : string)
    (r r1 : repository) (out out1 : list message) (c : string)
    (im staged : entries) (head_commits : list string) :
  node_at IMAGES r = Some (Dir im) ->
  node_at STAGING_AREA r = Some (Dir staged) ->
  commit_id_ok fresh_id = true ->
  isfile im "references.txt" = true ->
  head_line_first im = true ->
  get_all_commits depth im None = Some (Ok head_commits) ->
  forallb commit_id_ok head_commits = true ->
  ~ In fresh_id head_commits ->
  commit date fresh_id msg None r out = (r1, out1, Ok (Some c)) ->
  get_all_commits (S depth) (images_of r1) None
  = Some (Ok (c :: head_commits)).
Proof.
  intros Him Hst Hid Hrefs Hfirst Hhist Hids Hnew H.
  destruct (commit_id_ok_facts fresh_id Hid) as (Hlen & _ & _).
  unfold get_all_commits in Hhist.
  destruct (get_head_commit_id im) as [head|e] eqn:Ehead; [|discriminate].
  destruct (history_transfer im (images_of r1) _ _ _ _ Hhist)
    as (v & Ev & Hv).
  cbn [app] in Ev. subst v.
  assert (Hhead_in : In head head_commits).
  { destruct (get_all_commits_util_listed im _ _ _ _ Hhist)
      as (rest & -> & _). now left. }
  assert (Hhead_ok : commit_id_ok head = true)
    by exact (proj1 (forallb_forall _ _) Hids head Hhead_in).
  destruct (commit_parents _ _ _ _ _ _ _ _ _ _ _ Him Hst Hid H)
    as [_ Hparents].
  specialize (Hparents head Hrefs Ehead Hhead_ok). cbn beta iota in Hparents.
  destruct (commit_exact _ _ _ _ _ _ _ _ _ _ _ Him Hst Hid H)
    as (-> & parent & im3 & im4 & act & Him4 & _ & Hother & _ & Hcase).
  rewrite Hrefs in Hcase. destruct Hcase as [_ Hup].
  rewrite (images_of_at _ _ Him4) in *.
  destruct (commit_id_not_references fresh_id Hid) as [Hne1 Hne2].
  assert (Hread : read_file im3 "references.txt" = read_file im "references.txt")
    by (unfold read_file; rewrite Hother; auto).
  assert (Hfirst3 : head_line_first im3 = true)
    by (unfold head_line_first in *; now rewrite Hread).
  destruct (update_references_bindings im3 im4 fresh_id act Hfirst3
              (commit_id_clean fresh_id Hid) Hup) as (Hhead4 & _).
  destruct (update_references_writes _ _ _ _ Hup) as [text ->].
  unfold get_all_commits. rewrite Hhead4.
  rewrite get_all_commits_util_unfold, Hparents.
  cbn [walk_parents app].
  rewrite (Hv [fresh_id]); [reflexivity|].
  intros x Hx.
  assert (Hx_ok : commit_id_ok x = true)
    by exact (proj1 (forallb_forall _ _) Hids x Hx).
  destruct (commit_id_ok_facts x Hx_ok) as (Hxlen & _ & _).
  destruct (commit_id_not_references x Hx_ok) as [_ Hxrefs].
  unfold get_parents.
  rewrite !(read_path_meta _ x (commit_id_no_sep x Hx_ok)).
  unfold read_file, write_file.
  rewrite lookup_set_entry_other by auto.
  rewrite Hother; [reflexivity | | ].
  - intros E. apply (f_equal String.length) in E.
    rewrite length_append in E. cbn in E. lia.
  - intros E. apply string_app_cancel in E; [|lia].
    subst x. contradiction.
Qed.

Lemma commit_extends_history_witness :
  get_all_commits 2 (images_of (final staged_commit)) None
  = Some (Ok [id3; id1]).
Proof.
  apply (commit_extends_history 1 "Fri" id3 "add b" staged_repo
           (final staged_commit) [] (printed staged_commit) id3
           (images_of staged_repo)
           [("a.txt", File "hello"); ("b.txt", File "more")] [id1]);
    try reflexivity.
  intros [E|[]]. discriminate E.
Defined.

(** ** The status lists against the diffs of the specification *)






(** *** Membership in the diffs of the specification *)




(** *** What a loop of appending passes collects *)


(** *** [get_dirs_diffs] against the specification *)




